(** * Analog: ledger, betting and dice cogs

    A shallow embedding of the economy cog (accounts, transactions,
    conditions, the daily stipend), of the gambling cog (betting sessions,
    payouts, refunds) and of the dice-throw parser of the game tools cog.

    Conventions of the embedding.
    - Python integers are [Z].  Discord identifiers (users, channels) are [Z].
    - Strings are Rocq [string]s, that is, sequences of 8-bit characters;
      [lower], [strip] and the digit class act on the ASCII range.
    - A clock reading ([datetime.now().timestamp()]) is an integer number of
      microseconds since the epoch; [int(timestamp)] is the number of whole
      seconds.  Every operation receives the reading [now] of the clock at
      the time it runs; the readings taken inside one constructor call are
      identified.
    - Python exceptions are values of [exn]; a computation is a function from
      the world to a new world and either an exception or a result, so what
      was written before an exception is raised stays written.
    - One guild is modelled: its economy tables, its gambling tables, the
      set of its current members and of its text channels.
    - [Sqids().encode] is a third-party reversible encoding of a list of
      naturals; a transaction identifier is modelled as the encoded triple
      itself, so two identifiers are equal exactly when the triples are.
    - The tables hold unbounded integers: the 64-bit range of the storage
      engine and the range that the identifier encoding accepts are not
      modelled.  Foreign keys are not enforced, as in the engine's default.
    - What is sent to the chat (messages, embeds, pins) is not modelled; the
      reply of a command is returned as a value, and an exception raised
      while a message is built is raised in the model as well. *)

From stdpp Require Import gmap strings list fin_maps sorting.
From Stdlib Require Import ZArith Lia Ascii.

Open Scope Z_scope.

(** ** Exceptions and the computation monad *)

Inductive exn : Type :=
  | ValueError_negative_balance   (* 'Le solde du compte ne peut pas être négatif' *)
  | ValueError_negative_amount    (* 'Le montant ne peut pas être négatif' *)
  | ValueError_not_linked         (* 'La transaction n'est pas liée à ce compte' *)
  | ValueError_no_betting         (* 'Le pari n'existe pas.' *)
  | ValueError_int                (* int() of a text that is not a number *)
  | ValueError_unpack             (* unpacking a list of the wrong length *)
  | KeyError                      (* missing dictionary key *)
  | TypeError                     (* subscripting None *)
  | IntegrityError                (* sqlite3: CHECK constraint failed *)
  | ZeroDivisionError
  | OverflowError
  | BadArgument_format            (* 'Format de lancer de dés invalide' *)
  | BadArgument_too_many.         (* 'Nombre de dés trop important' *)

(** f-strings used as transaction reasons. *)
Inductive reason : Type :=
  | R_text (s : string)
  | R_reset                       (* 'Réinitialisation du compte' *)
  | R_cancel (id : Z * Z * Z)     (* f'Annule {transaction.id}' *)
  | R_daily (today : string)      (* f'Aide quotidienne du {today}' *)
  | R_bet (title : string)        (* f"Pari sur {data['title']}" *)
  | R_win (title : string)        (* f"Gains du pari {data['title']}" *)
  | R_refund (title : string).    (* f"Remboursement du pari {betting['title']}" *)

(** A value of the [config] table: a text that [int()] reads as a number,
    or any other text. *)
Inductive cfg_value : Type :=
  | CfgInt (n : Z)
  | CfgText (s : string).

#[global] Instance cfg_value_eq_dec : EqDecision cfg_value.
Proof. solve_decision. Defined.

Record tx_row : Type := mk_tx_row {
  row_id : Z * Z * Z;
  row_timestamp : Z;
  row_amount : Z;
  row_reason : reason;
  row_user_id : Z }.

Record betting_row : Type := mk_betting_row {
  bg_title : string;
  bg_choices : string;            (* the labels joined by ',' *)
  bg_message_id : Z;
  bg_minimal_bet : Z;
  bg_author_id : Z }.

Record bet_row : Type := mk_bet_row {
  bet_id : Z;
  bet_user_id : Z;
  bet_channel_id : Z;
  bet_choice : string;
  bet_amount : Z }.

Record world : Type := mk_world {
  members : gset Z;                       (* guild.get_member succeeds *)
  text_channels : gset Z;                 (* guild.get_channel succeeds *)
  accounts : gmap Z Z;                    (* user_id -> balance *)
  transactions : list tx_row;             (* in rowid order *)
  config : gmap string cfg_value;
  conditions : gmap (string * Z) string;  (* (name, obj.id) -> value *)
  last_cleanup : Z;                       (* Economy.last_cleanup *)
  bettings : gmap Z betting_row;          (* channel_id -> session *)
  bets : list bet_row;                    (* in rowid order *)
  bets_seq : Z }.                         (* AUTOINCREMENT counter *)

Definition set_accounts (f : gmap Z Z → gmap Z Z) (w : world) : world :=
  mk_world (members w) (text_channels w) (f (accounts w)) (transactions w)
    (config w) (conditions w) (last_cleanup w) (bettings w) (bets w) (bets_seq w).
Definition set_transactions (f : list tx_row → list tx_row) (w : world) : world :=
  mk_world (members w) (text_channels w) (accounts w) (f (transactions w))
    (config w) (conditions w) (last_cleanup w) (bettings w) (bets w) (bets_seq w).
Definition set_config (f : gmap string cfg_value → gmap string cfg_value) (w : world) : world :=
  mk_world (members w) (text_channels w) (accounts w) (transactions w)
    (f (config w)) (conditions w) (last_cleanup w) (bettings w) (bets w) (bets_seq w).
Definition set_conditions (f : gmap (string * Z) string → gmap (string * Z) string)
    (w : world) : world :=
  mk_world (members w) (text_channels w) (accounts w) (transactions w)
    (config w) (f (conditions w)) (last_cleanup w) (bettings w) (bets w) (bets_seq w).
Definition set_last_cleanup (t : Z) (w : world) : world :=
  mk_world (members w) (text_channels w) (accounts w) (transactions w)
    (config w) (conditions w) t (bettings w) (bets w) (bets_seq w).
Definition set_bettings (f : gmap Z betting_row → gmap Z betting_row) (w : world) : world :=
  mk_world (members w) (text_channels w) (accounts w) (transactions w)
    (config w) (conditions w) (last_cleanup w) (f (bettings w)) (bets w) (bets_seq w).
Definition set_bets (f : list bet_row → list bet_row) (w : world) : world :=
  mk_world (members w) (text_channels w) (accounts w) (transactions w)
    (config w) (conditions w) (last_cleanup w) (bettings w) (f (bets w)) (bets_seq w).
Definition set_bets_seq (n : Z) (w : world) : world :=
  mk_world (members w) (text_channels w) (accounts w) (transactions w)
    (config w) (conditions w) (last_cleanup w) (bettings w) (bets w) n.

Definition M (A : Type) : Type := world → world * (exn + A).

Definition ret {A} (a : A) : M A := λ w, (w, inr a).
Definition raise {A} (e : exn) : M A := λ w, (w, inl e).
Definition bind {A B} (m : M A) (k : A → M B) : M B :=
  λ w, match m w with
       | (w', inr a) => k a w'
       | (w', inl e) => (w', inl e)
       end.
Definition get : M world := λ w, (w, inr w).
Definition modify (f : world → world) : M unit := λ w, (f w, inr tt).

Notation "x <- c1 ;; c2" := (bind c1 (λ x, c2))
  (at level 100, c1 at next level, right associativity).
Notation "c1 ;;; c2" := (bind c1 (λ _, c2))
  (at level 100, right associativity).

(** [for x in l: body x] *)
Fixpoint for_each {A} (l : list A) (body : A → M unit) : M unit :=
  match l with
  | [] => ret tt
  | x :: l' => body x ;;; for_each l' body
  end.

(** [[f x for x in l]] *)
Fixpoint map_M {A B} (f : A → M B) (l : list A) : M (list B) :=
  match l with
  | [] => ret []
  | x :: l' => y <- f x ;; ys <- map_M f l' ;; ret (y :: ys)
  end.

(** ** Python floats

    A finite binary64 number is [mant * 2 ^ expo].  Every operation is the
    exact operation on rationals followed by rounding to the nearest
    binary64 number, ties to even; this is also what [int / int] and
    [float(int)] compute.  A result beyond the largest finite number is
    reported as [None] where it arises: Python raises [OverflowError] for
    [int / int] and [float(int)], and produces an infinity for an operation
    on floats, on which the [round] and [int] that consume the value here
    raise [OverflowError] in turn. *)
Module Float.

Record t : Type := mk { mant : Z; expo : Z }.

(** nearest integer to [n / d], ties to even, for [0 <= n] and [0 < d] *)
Definition half_even (n d : Z) : Z :=
  let q := n / d in
  let r := n mod d in
  if 2 * r <? d then q
  else if d <? 2 * r then q + 1
  else if Z.even q then q else q + 1.

Definition scale (x e : Z) : Z := x * 2 ^ Z.max e 0.

(** nearest binary64 number to [n / d] for [0 < n] and [0 < d]: the
    exponent [e] is the one with [2^52 <= n / (d * 2^e) < 2^53], or the
    least exponent [-1074] of the format *)
Definition nearest_pos (n d : Z) : option t :=
  let k := Z.log2 n - Z.log2 d in
  let e0 := k - 52 in
  let e1 := if scale (2 ^ 52 * d) e0 <=? scale n (- e0) then e0 else e0 - 1 in
  let e := Z.max e1 (-1074) in
  let m := half_even (scale n (- e)) (scale d e) in
  if (971 <? e) || ((e =? 971) && (2 ^ 53 <=? m)) then None
  else Some (mk m e).

Definition neg (x : t) : t := mk (- mant x) (expo x).

(** nearest binary64 number to [n / d] for [d <> 0] *)
Definition nearest (n d : Z) : option t :=
  let n' := if d <? 0 then - n else n in
  let d' := Z.abs d in
  if n' =? 0 then Some (mk 0 0)
  else if n' <? 0 then option_map neg (nearest_pos (- n') d')
  else nearest_pos n' d'.

(** exact numerator and denominator of a float *)
Definition num (x : t) : Z := scale (mant x) (expo x).
Definition den (x : t) : Z := scale 1 (- expo x).

Definition lift (o : option t) : exn + t :=
  match o with
  | Some x => inr x
  | None => inl OverflowError
  end.

(** [float(n)] *)
Definition of_int (n : Z) : exn + t := lift (nearest n 1).

(** [p / q] on two integers *)
Definition true_divide (p q : Z) : exn + t :=
  if q =? 0 then inl ZeroDivisionError else lift (nearest p q).

(** [x * y], [x - y], [x / y] on two floats *)
Definition mul (x y : t) : exn + t :=
  lift (nearest (num x * num y) (den x * den y)).
Definition sub (x y : t) : exn + t :=
  lift (nearest (num x * den y - num y * den x) (den x * den y)).
Definition div (x y : t) : exn + t :=
  if mant y =? 0 then inl ZeroDivisionError
  else lift (nearest (num x * den y) (num y * den x)).

(** [n > x] and [n >= x] for an integer [n] and a float [x] *)
Definition int_gt (n : Z) (x : t) : bool := num x <? n * den x.

(** [int(x)]: truncation towards zero *)
Definition to_int (x : t) : Z := Z.quot (num x) (den x).

(** [round(x)]: nearest integer, ties to even *)
Definition round (x : t) : Z :=
  if num x <? 0 then - half_even (- num x) (den x)
  else half_even (num x) (den x).

(** the literal [0.1] *)
Definition one_tenth : t := mk 7205759403792794 (-56).

End Float.

(** sequencing of pure computations that may raise *)
Definition ebind {A B} (x : exn + A) (k : A → exn + B) : exn + B :=
  match x with
  | inl e => inl e
  | inr a => k a
  end.

Definition lift_exn {A} (x : exn + A) : M A := λ w, (w, x).

(** Exceptions of the statistics, of the lookup of a transaction by its
    identifier and of the dice, which [exn] does not list.  A function that
    can raise one of them returns it on the left of its result. *)
Inductive exn_more : Type :=
  | ValueError_user_absent   (* "L'utilisateur n'est pas présent sur le serveur" *)
  | ValueError_not_in_list   (* list.index(x): x not in list *)
  | IndexError.              (* list index out of range, choice from an empty sequence *)

(** [l[i]] for a Python integer index: a negative index counts from the end *)
Definition py_index {A} (l : list A) (i : Z) : exn_more + A :=
  let j := if i <? 0 then Z.of_nat (length l) + i else i in
  if j <? 0 then inl IndexError
  else match l !! Z.to_nat j with
       | Some x => inr x
       | None => inl IndexError
       end.

(** [text[:n]] *)
Definition slice_to {A} (n : Z) (text : list A) : list A :=
  if n <? 0 then take (Z.to_nat (Z.of_nat (length text) + n)) text
  else take (Z.to_nat n) text.

(** [sorted(l, key=..., reverse=...)] on pairs of an element and its key:
    the sort is stable in both directions, so elements of equal key keep
    the order they had *)
Fixpoint insert_sorted {A} (reverse : bool) (x : A * Z) (l : list (A * Z))
  : list (A * Z) :=
  match l with
  | [] => [x]
  | y :: l' =>
      if (if reverse then snd x <? snd y else snd y <? snd x)
      then y :: insert_sorted reverse x l'
      else x :: l
  end.
Definition sorted_by_key {A} (reverse : bool) (l : list (A * Z)) : list (A * Z) :=
  foldr (insert_sorted reverse) [] l.

(** ** Constants of the economy cog *)

Definition seconds (n : Z) : Z := n * 1000000.
Definition TRANSACTION_EXPIRATION_DELAY : Z := seconds (86400 * 14).
Definition TRANSACTION_CLEANUP_INTERVAL : Z := seconds 3600.

Definition DEFAULT_CONFIG : gmap string cfg_value :=
  <["Currency" := CfgText "✦"]>
  (<["DailyAmount" := CfgInt 200]>
  (<["DailyLimit" := CfgInt 5000]>
  (<["DefaultBalance" := CfgInt 100]> ∅))).

(** ** The guild store *)
Module Store.

(** Modelled from the spec: the storage helper [common.dataio] is not part
    of the sources; [execute], [fetchone] and [fetchall] run one SQL
    statement on the guild's database, and the statements below follow
    the tables declared in [_init_guilds_db]: [accounts] has the primary
    key [user_id] and the column constraint [CHECK (balance >= 0)],
    [transactions] has the primary key [id].  [INSERT OR IGNORE] skips a
    row that violates a key or a check constraint; an [UPDATE] that
    violates the check constraint is aborted with an integrity error and
    writes nothing. *)
Definition accounts_insert_or_ignore (user_id balance : Z) : M unit :=
  modify (set_accounts (λ acc,
    match acc !! user_id with
    | Some _ => acc
    | None => if 0 <=? balance then <[user_id := balance]> acc else acc
    end)).

(** Modelled from the spec: [SELECT balance FROM accounts WHERE user_id = ?]
    through the absent [dataio.fetchone]; no row gives [None]. *)
Definition accounts_select_balance (user_id : Z) : M (option Z) :=
  w <- get ;; ret (accounts w !! user_id).

(** Modelled from the spec: [UPDATE accounts SET balance = ? WHERE user_id = ?]
    through the absent [dataio.execute], under [CHECK (balance >= 0)]. *)
Definition accounts_update_balance (user_id value : Z) : M unit :=
  w <- get ;;
  match accounts w !! user_id with
  | None => ret tt
  | Some _ =>
      if 0 <=? value then modify (set_accounts <[user_id := value]>)
      else raise IntegrityError
  end.

Definition has_id (id : Z * Z * Z) (rows : list tx_row) : bool :=
  existsb (λ r, bool_decide (row_id r = id)) rows.

(** Modelled from the spec: [INSERT OR IGNORE INTO transactions VALUES (...)]
    through the absent [dataio.execute]; [id] is the primary key. *)
Definition transactions_insert_or_ignore (r : tx_row) : M unit :=
  modify (set_transactions (λ rows,
    if has_id (row_id r) rows then rows else rows ++ [r])).

(** Modelled from the spec: [DELETE FROM transactions WHERE timestamp < ?]. *)
Definition transactions_delete_before (t : Z) : M unit :=
  modify (set_transactions (filter (λ r, ¬ (row_timestamp r < t)))).

(** [ORDER BY timestamp DESC], rows of equal timestamp in rowid order. *)
Fixpoint insert_desc (r : tx_row) (rows : list tx_row) : list tx_row :=
  match rows with
  | [] => [r]
  | r' :: rows' =>
      if row_timestamp r <? row_timestamp r' then r' :: insert_desc r rows'
      else r :: rows
  end.
Definition order_by_timestamp_desc (rows : list tx_row) : list tx_row :=
  foldr insert_desc [] rows.

(** Modelled from the spec:
    [SELECT * FROM transactions WHERE user_id = ? ORDER BY timestamp DESC]
    with an optional [LIMIT ?] (a negative limit is no limit). *)
Definition transactions_select_user (user_id : Z) (limit : option Z)
  : M (list tx_row) :=
  w <- get ;;
  let rows := order_by_timestamp_desc
                (filter (λ r, row_user_id r = user_id) (transactions w)) in
  ret (match limit with
       | Some n => if n <? 0 then rows else take (Z.to_nat n) rows
       | None => rows
       end).

(** Modelled from the spec: [SELECT * FROM config]. *)
Definition config_select_all : M (gmap string cfg_value) :=
  w <- get ;; ret (config w).

(** Modelled from the spec: [INSERT OR REPLACE INTO config VALUES (?, ?)]
    through the absent [dataio.execute]; [key] is the primary key. *)
Definition config_insert_or_replace (key : string) (value : cfg_value) : M unit :=
  modify (set_config <[key := value]>).

(** Modelled from the spec:
    [INSERT OR IGNORE INTO config (key, value) VALUES (?, ?)]. *)
Definition config_insert_or_ignore (key : string) (value : cfg_value) : M unit :=
  modify (set_config (λ c,
    match c !! key with
    | Some _ => c
    | None => <[key := value]> c
    end)).

(** Modelled from the spec: [SELECT * FROM accounts]. *)
Definition accounts_select_all : M (gmap Z Z) :=
  w <- get ;; ret (accounts w).

(** Modelled from the spec: [SELECT * FROM transactions WHERE id = ?]
    through the absent [dataio.fetchone]: the first row, or [None]. *)
Definition transactions_select_id (id : Z * Z * Z) : M (option tx_row) :=
  w <- get ;; ret (head (filter (λ r, row_id r = id) (transactions w))).

(** Modelled from the spec: [UPDATE transactions SET reason = ? WHERE id = ?]. *)
Definition transactions_update_reason (id : Z * Z * Z) (rsn : reason) : M unit :=
  modify (set_transactions (map (λ r,
    if bool_decide (row_id r = id)
    then mk_tx_row (row_id r) (row_timestamp r) (row_amount r) rsn (row_user_id r)
    else r))).

(** Modelled from the spec: [DELETE FROM transactions WHERE id = ?]. *)
Definition transactions_delete_id (id : Z * Z * Z) : M unit :=
  modify (set_transactions (filter (λ r, row_id r ≠ id))).


(** Modelled from the spec:
    [SELECT * FROM transactions ORDER BY timestamp DESC] with an optional
    [LIMIT ?] (a negative limit is no limit). *)
Definition transactions_select_all (limit : option Z) : M (list tx_row) :=
  w <- get ;;
  let rows := order_by_timestamp_desc (transactions w) in
  ret (match limit with
       | Some n => if n <? 0 then rows else take (Z.to_nat n) rows
       | None => rows
       end).

(** Modelled from the spec:
    [SELECT * FROM transactions WHERE timestamp > ? ORDER BY timestamp DESC]. *)
Definition transactions_select_since (since : Z) : M (list tx_row) :=
  w <- get ;;
  ret (order_by_timestamp_desc
         (filter (λ r, since < row_timestamp r) (transactions w))).

End Store.

(** ** The economy cog: configuration *)
Module Economy.

(** [Economy.get_guild_config] *)
Definition get_guild_config : M (gmap string cfg_value) :=
  r <- Store.config_select_all ;;
  ret (if bool_decide (r = ∅) then DEFAULT_CONFIG else r).

(** [int(self.get_guild_config(guild)[key])] *)
Definition config_int (key : string) : M Z :=
  cfg <- get_guild_config ;;
  match cfg !! key with
  | None => raise KeyError
  | Some (CfgInt n) => ret n
  | Some (CfgText _) => raise ValueError_int
  end.

(** [str(self.get_guild_config(guild)[key])], as in [Economy.get_currency] *)
Definition config_text (key : string) : M cfg_value :=
  cfg <- get_guild_config ;;
  match cfg !! key with
  | None => raise KeyError
  | Some v => ret v
  end.

(** [Economy.cleanup_transactions] *)
Definition cleanup_transactions (now : Z) : M unit :=
  Store.transactions_delete_before (now - TRANSACTION_EXPIRATION_DELAY).

(** [DEFAULT_CONFIG.items()], in the order of the literal *)
Definition DEFAULT_CONFIG_items : list (string * cfg_value) :=
  [("Currency", CfgText "✦"); ("DailyAmount", CfgInt 200);
   ("DailyLimit", CfgInt 5000); ("DefaultBalance", CfgInt 100)].

(** [Economy._init_guilds_db] for one guild: the tables exist in the model,
    so what is left is the [executemany] that installs the defaults. *)
Definition _init_guilds_db : M unit :=
  for_each DEFAULT_CONFIG_items (λ kv, Store.config_insert_or_ignore kv.1 kv.2).

(** [Economy.set_guild_config] *)
Definition set_guild_config (key : string) (value : cfg_value) : M unit :=
  Store.config_insert_or_replace key value.

End Economy.

(** ** Transactions *)
Module Transaction.

Record t : Type := mk {
  user : Z;
  amount : Z;
  reason_of : reason;
  timestamp : Z;
  id : Z * Z * Z }.

(** [int(self.timestamp)] *)
Definition int_timestamp (ts : Z) : Z := Z.quot ts 1000000.

(** [Transaction.__get_id]: the triple that is encoded. *)
Definition get_id (ts user amount : Z) : Z * Z * Z :=
  (int_timestamp ts, user, Z.abs amount).

(** [Transaction.__create_if_not_exists] *)
Definition create_if_not_exists (self : t) (now : Z) : M unit :=
  Store.transactions_insert_or_ignore
    (mk_tx_row (id self) (timestamp self) (amount self) (reason_of self) (user self)) ;;;
  w <- get ;;
  if last_cleanup w + TRANSACTION_CLEANUP_INTERVAL <? now then
    Economy.cleanup_transactions now ;;;
    modify (set_last_cleanup now)
  else ret tt.

(** [Transaction.__init__]; [timestamp = 0] is the default argument. *)
Definition init (user amount : Z) (rsn : reason) (timestamp now : Z) : M t :=
  let ts := if timestamp =? 0 then now else timestamp in
  let self := mk user amount rsn ts (get_id ts user amount) in
  create_if_not_exists self now ;;;
  ret self.

(** [Transaction.__eq__] on two transactions *)
Definition eqb (a b : t) : bool := bool_decide (id a = id b).

(** [Transaction.from_id]: [row['user_id']] on a missing row is a
    [TypeError]; a row whose user has left the guild is a [ValueError]. *)
Definition from_id (id : Z * Z * Z) (now : Z) : M (exn_more + t) :=
  row <- Store.transactions_select_id id ;;
  match row with
  | None => raise TypeError
  | Some row =>
      w <- get ;;
      if negb (bool_decide (row_user_id row ∈ members w))
      then ret (inl ValueError_user_absent)
      else
        trs <- init (row_user_id row) (row_amount row) (row_reason row)
                 (row_timestamp row) now ;;
        ret (inr trs)
  end.

(** [Transaction.update] *)
Definition update (self : t) (rsn : reason) : M unit :=
  Store.transactions_update_reason (id self) rsn.

(** [Transaction.delete] *)
Definition delete (self : t) : M unit :=
  Store.transactions_delete_id (id self).

End Transaction.

(** ** Accounts *)
Module Account.

(** [Account.__create_if_not_exists] *)
Definition create_if_not_exists (owner : Z) : M unit :=
  d <- Economy.config_int "DefaultBalance" ;;
  Store.accounts_insert_or_ignore owner d.

(** [Account.__init__]: the account object is its owner's identifier. *)
Definition init (owner : Z) : M Z :=
  create_if_not_exists owner ;;; ret owner.

(** [Account._get_balance] *)
Definition _get_balance (owner : Z) : M Z :=
  r <- Store.accounts_select_balance owner ;;
  match r with
  | Some b => ret b
  | None => raise TypeError
  end.

(** [Account._set_balance] *)
Definition _set_balance (owner value : Z) (rsn : reason) (now : Z)
  : M Transaction.t :=
  current <- _get_balance owner ;;
  let delta := value - current in
  Store.accounts_update_balance owner value ;;;
  Transaction.init owner delta rsn 0 now.

(** [Account.set] *)
Definition set (owner value : Z) (rsn : reason) (now : Z) : M Transaction.t :=
  if value <? 0 then raise ValueError_negative_balance
  else _set_balance owner value rsn now.

(** [Account.deposit] *)
Definition deposit (owner amount : Z) (rsn : reason) (now : Z) : M Transaction.t :=
  if amount <? 0 then raise ValueError_negative_amount
  else
    b <- _get_balance owner ;;
    _set_balance owner (b + amount) rsn now.

(** [Account.withdraw] *)
Definition withdraw (owner amount : Z) (rsn : reason) (now : Z) : M Transaction.t :=
  let amount := if amount <? 0 then Z.abs amount else amount in
  b <- _get_balance owner ;;
  _set_balance owner (b - amount) rsn now.

(** [Account.reset] *)
Definition reset (owner : Z) (now : Z) : M Transaction.t :=
  default_balance <- Economy.config_int "DefaultBalance" ;;
  _set_balance owner default_balance R_reset now.

(** [Account.get_transactions] *)
Definition get_transactions (owner : Z) (limit : option Z) (now : Z)
  : M (list Transaction.t) :=
  rows <- (match limit with
           | Some n => if n =? 0 then Store.transactions_select_user owner None
                       else Store.transactions_select_user owner (Some n)
           | None => Store.transactions_select_user owner None
           end) ;;
  map_M (λ row, Transaction.init owner (row_amount row) (row_reason row)
                  (row_timestamp row) now) rows.

(** [Account.cancel] *)
Definition cancel (owner : Z) (transaction : Transaction.t) (now : Z)
  : M Transaction.t :=
  txs <- get_transactions owner None now ;;
  if negb (existsb (Transaction.eqb transaction) txs) then
    raise ValueError_not_linked
  else
    b <- _get_balance owner ;;
    _set_balance owner (b - Transaction.amount transaction)
      (R_cancel (Transaction.id transaction)) now.

(** [Account.get_transaction] *)
Definition get_transaction (owner : Z) (id : Z * Z * Z) (now : Z)
  : M (exn_more + Transaction.t) :=
  Transaction.from_id id now.


End Account.

(** [Economy.get_account] *)
Definition get_account (user : Z) : M Z := Account.init user.

(** ** Conditions *)
Module Condition.

Record t : Type := mk { name : string; obj : Z; value : string }.

(** [Condition.id], the key [f'{name}@{obj.id}'] *)
Definition id (self : t) : string * Z := (name self, obj self).

(** [Condition.__init__] without [value], followed by [Condition.__load]:
    a stored value replaces the default, otherwise the default is stored. *)
Definition init (name : string) (obj : Z) (default_value : string) : M t :=
  w <- get ;;
  match conditions w !! (name, obj) with
  | Some v => ret (mk name obj v)
  | None =>
      modify (set_conditions (λ c,
        match c !! (name, obj) with
        | Some _ => c
        | None => <[(name, obj) := default_value]> c
        end)) ;;;
      ret (mk name obj default_value)
  end.

(** [Condition.save]: [UPDATE conditions SET value = ? WHERE id = ?] *)
Definition save (self : t) : M unit :=
  modify (set_conditions (λ c,
    match c !! id self with
    | Some _ => <[id self := value self]> c
    | None => c
    end)).

(** the setter of [Condition.value] *)
Definition set_value (self : t) (v : string) : M t :=
  let self' := mk (name self) (obj self) v in
  save self' ;;; ret self'.

(** [Condition.check] *)
Definition check (self : t) (func : string → bool) : bool := func (value self).

(** [Condition.delete]: [DELETE FROM conditions WHERE id = ?] *)
Definition delete (self : t) : M unit :=
  modify (set_conditions (base.delete (id self))).

End Condition.

(** ** The daily stipend *)
Module Daily.

Inductive reply : Type :=
  | Unavailable                      (* "L'aide économique quotidienne n'est pas disponible" *)
  | Already_claimed                  (* "Vous avez déjà récupéré votre aide quotidienne" *)
  | Limit_reached                    (* "Vous avez déjà atteint la limite maximale" *)
  | Too_small                        (* "Solde trop élevé ... inférieure à un crédit" *)
  | Granted (trs : Transaction.t).   (* "Aide quotidienne récupérée" *)

(** [0.1 * dailylimit] *)
Definition ignore_part (dailylimit : Z) : exn + Float.t :=
  ebind (Float.of_int dailylimit) (Float.mul Float.one_tenth).

(** [redux = (balance - ignore_part) / dailylimit] followed by
    [round(dailyamount * (1 - redux))] *)
Definition reduce (dailyamount dailylimit balance : Z) (ignore : Float.t) : exn + Z :=
  ebind (Float.of_int balance) (λ fb,
  ebind (Float.sub fb ignore) (λ x,
  ebind (Float.of_int dailylimit) (λ fl,
  ebind (Float.div x fl) (λ redux,
  ebind (Float.of_int 1) (λ one,
  ebind (Float.sub one redux) (λ y,
  ebind (Float.of_int dailyamount) (λ fd,
  ebind (Float.mul fd y) (λ z,
  inr (Float.round z))))))))).

(** the value of [dailyamount] when the guards are reached, for a balance
    that does not change in between *)
Definition amount (dailyamount dailylimit balance : Z) : exn + Z :=
  ebind (ignore_part dailylimit) (λ ignore,
    if Float.int_gt balance ignore
    then reduce dailyamount dailylimit balance ignore
    else inr dailyamount).

(** [Economy._bank_daily]; [today] is [datetime.now().strftime('%d.%m.%Y')].
    The command is guild-only, so the invoking user is a member. *)
Definition _bank_daily (user : Z) (today : string) (now : Z) : M reply :=
  account <- get_account user ;;
  config <- Economy.get_guild_config ;;
  let int_of key : M Z :=
    match config !! key with
    | None => raise KeyError
    | Some (CfgInt n) => ret n
    | Some (CfgText _) => raise ValueError_int
    end in
  dailyamount <- int_of "DailyAmount" ;;
  dailylimit <- int_of "DailyLimit" ;;
  if (dailyamount <=? 0) || (dailylimit <=? 0) then ret Unavailable
  else
    ignore <- lift_exn (ignore_part dailylimit) ;;
    b <- Account._get_balance account ;;
    dailyamount <-
      (if Float.int_gt b ignore then
         b' <- Account._get_balance account ;;
         lift_exn (reduce dailyamount dailylimit b' ignore)
       else ret dailyamount) ;;
    cond <- Condition.init "LastDaily" user "" ;;
    if Condition.check cond (λ v, bool_decide (v = today)) then ret Already_claimed
    else
      b <- Account._get_balance account ;;
      if dailylimit <=? b then
        match config !! "Currency" with
        | None => raise KeyError
        | Some _ => ret Limit_reached
        end
      else if dailyamount <=? 0 then ret Too_small
      else
        trs <- Account.deposit account dailyamount (R_daily today) now ;;
        cond' <- Condition.set_value cond today ;;
        currency <- Economy.config_text "Currency" ;;
        ret (Granted trs).

End Daily.

(** ** The history view *)
Module TransactionsHistoryView.

Inductive display : Type := Reason | Ids.

(** An embed of the view is represented by the transactions that its table
    lists; the column shown beside them (reason or identifier) does not
    change which they are. *)
Record t : Type := mk {
  account : Z;
  transactions : list Transaction.t;
  current_page : Z;
  display_type : display;
  pages : list (list Transaction.t);
  previous_disabled : bool;
  next_disabled : bool }.

(** one turn of the loop of [get_pages], on [(embeds, tabl)] *)
Definition page_step (st : list (list Transaction.t) * list Transaction.t)
    (trs : Transaction.t) : list (list Transaction.t) * list Transaction.t :=
  if (length st.2 <? 20)%nat then (st.1, st.2 ++ [trs])
  else (st.1 ++ [st.2], []).

(** [TransactionsHistoryView.get_pages] *)
Definition get_pages (transactions : list Transaction.t) (display_type : display)
  : list (list Transaction.t) :=
  let st := foldl page_step ([], []) transactions in
  match st.2 with
  | [] => st.1
  | _ :: _ => st.1 ++ [st.2]
  end.

(** [TransactionsHistoryView.__init__] *)
Definition init (account : Z) (now : Z) : M t :=
  transactions <- Account.get_transactions account (Some 5) now ;;
  let pages := get_pages transactions Reason in
  ret (mk account transactions 0 Reason pages true (length pages <=? 1)%nat).

(** [TransactionsHistoryView.buttons_logic] *)
Definition buttons_logic (self : t) : t :=
  mk (account self) (transactions self) (current_page self) (display_type self)
    (pages self)
    (current_page self =? 0)
    (Z.of_nat (length (pages self)) <=? current_page self + 1).

(** [self.pages[self.current_page]], the embed that a button shows *)
Definition shown (self : t) : exn_more + list Transaction.t :=
  py_index (pages self) (current_page self).

(** the button [previous] *)
Definition previous (self : t) : t :=
  buttons_logic
    (mk (account self) (transactions self) (Z.max 0 (current_page self - 1))
       (display_type self) (pages self)
       (previous_disabled self) (next_disabled self)).

(** the button [switch_display] *)
Definition switch_display (self : t) : t :=
  let display_type :=
    match display_type self with
    | Ids => Reason
    | Reason => Ids
    end in
  buttons_logic
    (mk (account self) (transactions self) (current_page self) display_type
       (get_pages (transactions self) display_type)
       (previous_disabled self) (next_disabled self)).

(** the button [next] *)
Definition next (self : t) : t :=
  buttons_logic
    (mk (account self) (transactions self)
       (Z.min (Z.of_nat (length (pages self)) - 1) (current_page self + 1))
       (display_type self) (pages self)
       (previous_disabled self) (next_disabled self)).

End TransactionsHistoryView.

(** ** The economy cog: statistics and commands *)
Module Bank.

(** [Economy.get_accounts]; [guild_members] is [guild.members], as
    identifiers. *)
Definition get_accounts (guild_members : list Z) : M (list Z) :=
  r <- Store.accounts_select_all ;;
  map_M Account.init (filter (λ m, is_Some (r !! m)) guild_members).

(** [Economy.get_guild_total_balance] *)
Definition get_guild_total_balance (guild_members : list Z) : M Z :=
  accounts <- get_accounts guild_members ;;
  balances <- map_M Account._get_balance accounts ;;
  ret (foldr Z.add 0 balances).

(** [Economy.get_guild_average_balance] *)
Definition get_guild_average_balance (guild_members : list Z) : M Z :=
  accounts <- get_accounts guild_members ;;
  balances <- map_M Account._get_balance accounts ;;
  if bool_decide (accounts = []) then raise ZeroDivisionError
  else ret (foldr Z.add 0 balances / Z.of_nat (length accounts)).

(** [Economy.get_accounts_by_balance] *)
Definition get_accounts_by_balance (guild_members : list Z) (reverse : bool)
  : M (list Z) :=
  accounts <- get_accounts guild_members ;;
  keys <- map_M Account._get_balance accounts ;;
  ret (map fst (sorted_by_key reverse (zip accounts keys))).

(** [Economy.get_guild_median_balance] *)
Definition get_guild_median_balance (guild_members : list Z) : M (exn_more + Z) :=
  accounts <- get_accounts_by_balance guild_members true ;;
  match py_index accounts (Z.of_nat (length accounts) / 2) with
  | inl e => ret (inl e)
  | inr a => b <- Account._get_balance a ;; ret (inr b)
  end.

(** [l.index(x)] *)
Fixpoint index (x : Z) (l : list Z) : exn_more + Z :=
  match l with
  | [] => inl ValueError_not_in_list
  | y :: l' =>
      if bool_decide (y = x) then inr 0
      else match index x l' with
           | inl e => inl e
           | inr i => inr (i + 1)
           end
  end.

(** [Economy.get_account_rank] *)
Definition get_account_rank (account : Z) (guild_members : list Z)
  : M (exn_more + Z) :=
  accounts <- get_accounts_by_balance guild_members true ;;
  ret (match index account accounts with
       | inl e => inl e
       | inr i => inr (i + 1)
       end).

(** [[Transaction(self, members[row['user_id']], ...) for row in rows
      if row['user_id'] in members]] *)
Definition rebuild (guild_members : list Z) (rows : list tx_row) (now : Z)
  : M (list Transaction.t) :=
  map_M (λ row, Transaction.init (row_user_id row) (row_amount row)
                  (row_reason row) (row_timestamp row) now)
    (filter (λ row, row_user_id row ∈ guild_members) rows).

(** [Economy.get_last_transactions] *)
Definition get_last_transactions (guild_members : list Z) (limit : option Z)
    (now : Z) : M (list Transaction.t) :=
  rows <- (match limit with
           | Some n => if n =? 0 then Store.transactions_select_all None
                       else Store.transactions_select_all (Some n)
           | None => Store.transactions_select_all None
           end) ;;
  rebuild guild_members rows now.

(** [Economy.get_transactions_by_amount] *)
Definition get_transactions_by_amount (guild_members : list Z) (reverse : bool)
    (now : Z) : M (list Transaction.t) :=
  transactions <- get_last_transactions guild_members None now ;;
  ret (map fst (sorted_by_key reverse
                  (map (λ t, (t, Transaction.amount t)) transactions))).

(** [Economy.get_transactions_since] *)
Definition get_transactions_since (guild_members : list Z) (since now : Z)
  : M (list Transaction.t) :=
  rows <- Store.transactions_select_since since ;;
  rebuild guild_members rows now.

Inductive give_reply : Type :=
  | Give_negative           (* "Le montant ne peut pas être négatif" *)
  | Give_receiver_absent    (* "Vous devez mentionner un membre actuellement présent" *)
  | Give_giver_absent       (* "Vous devez être présent sur le serveur" *)
  | Give_self               (* "Vous ne pouvez pas vous donner de l'argent à vous-même" *)
  | Give_insufficient       (* "Vous n'avez pas assez d'argent" *)
  | Give_done (trs : Transaction.t).   (* "Transfert effectué" *)

(** [Economy._bank_give]; a user is a [discord.Member] when the guild has
    them as a member; [now1] and [now2] are the clock readings of the
    withdrawal and of the deposit. *)
Definition _bank_give (giver receiver : Z) (giver_name receiver_name : string)
    (amount : Z) (rsn : string) (now1 now2 : Z) : M give_reply :=
  if amount <? 0 then ret Give_negative
  else
    w <- get ;;
    if negb (bool_decide (receiver ∈ members w)) then ret Give_receiver_absent
    else if negb (bool_decide (giver ∈ members w)) then ret Give_giver_absent
    else
      giver_account <- get_account giver ;;
      receiver_account <- get_account receiver ;;
      if bool_decide (giver_account = receiver_account) then ret Give_self
      else
        b <- Account._get_balance giver_account ;;
        if b <? amount then ret Give_insufficient
        else
          Account.withdraw giver_account amount
            (R_text (if bool_decide (rsn = "") then "Don à " +:+ receiver_name
                     else "Don à " +:+ receiver_name +:+ " > " +:+ rsn)) now1 ;;;
          trs <- Account.deposit receiver_account amount
            (R_text (if bool_decide (rsn = "") then "Don de " +:+ giver_name
                     else "Don de " +:+ giver_name +:+ " > " +:+ rsn)) now2 ;;
          currency <- Economy.config_text "Currency" ;;
          ret (Give_done trs).

Inductive admin_reply : Type :=
  | Member_absent           (* "Vous devez mentionner un membre actuellement présent" *)
  | Balance_set (value : Z).  (* "Solde réinitialisé", "Solde modifié" *)

(** [Economy._configbank_reset] *)
Definition _configbank_reset (user : Z) (now : Z) : M admin_reply :=
  w <- get ;;
  if negb (bool_decide (user ∈ members w)) then ret Member_absent
  else
    account <- get_account user ;;
    Account.reset account now ;;;
    default_balance <- Economy.config_int "DefaultBalance" ;;
    currency <- Economy.config_text "Currency" ;;
    ret (Balance_set default_balance).

(** [Economy._configbank_setbalance]; [admin_name] is the display name of
    the user who runs the command. *)
Definition _configbank_setbalance (user amount : Z) (admin_name : string) (now : Z)
  : M admin_reply :=
  w <- get ;;
  if negb (bool_decide (user ∈ members w)) then ret Member_absent
  else
    account <- get_account user ;;
    Account.set account amount
      (R_text ("Modification du solde par " +:+ admin_name)) now ;;;
    currency <- Economy.config_text "Currency" ;;
    ret (Balance_set amount).

Inductive cancel_reply : Type :=
  | Not_cancelled           (* "La transaction n'a pas été annulée" *)
  | Cancelled (reversal : Transaction.t).   (* "Transaction annulée" *)

(** [Economy._configbank_cancel]; [answer] is the value of the confirmation
    view ([None] on timeout), [now1] and [now2] the clock readings of the
    lookup and of the cancellation.  A transaction object is never falsy,
    so the reply "Cette transaction n'existe pas" is never sent. *)
Definition _configbank_cancel (transaction_id : Z * Z * Z) (answer : option bool)
    (now1 now2 : Z) : M (exn_more + cancel_reply) :=
  trs <- Transaction.from_id transaction_id now1 ;;
  match trs with
  | inl e => ret (inl e)
  | inr trs =>
      currency <- Economy.config_text "Currency" ;;
      match answer with
      | Some true =>
          account <- get_account (Transaction.user trs) ;;
          reversal <- Account.cancel account trs now2 ;;
          b <- Account._get_balance account ;;
          currency <- Economy.config_text "Currency" ;;
          ret (inr (Cancelled reversal))
      | _ => ret (inr Not_cancelled)
      end
  end.

Inductive config_reply : Type :=
  | Daily_disabled          (* "L'aide économique quotidienne a été désactivée" *)
  | Setting_changed.        (* "Paramètres modifiés", "Paramètre modifié" *)

(** [Economy._configbank_daily] *)
Definition _configbank_daily (amount limit : Z) : M config_reply :=
  Economy.set_guild_config "DailyAmount" (CfgInt amount) ;;;
  Economy.set_guild_config "DailyLimit" (CfgInt limit) ;;;
  if (amount =? 0) || (limit =? 0) then ret Daily_disabled
  else
    currency <- Economy.config_text "Currency" ;;
    currency <- Economy.config_text "Currency" ;;
    ret Setting_changed.

(** [Economy._configbank_defaultbalance] *)
Definition _configbank_defaultbalance (amount : Z) : M config_reply :=
  Economy.set_guild_config "DefaultBalance" (CfgInt amount) ;;;
  currency <- Economy.config_text "Currency" ;;
  ret Setting_changed.

End Bank.

(** ** Text helpers *)
Module Str.

(** A text is the list of its 8-bit characters: the characters of an ASCII
    text, the UTF-8 bytes of any other.  The functions of this module are
    those of Python on ASCII text.  On other text Python works on code
    points, and its digit class, [int], [str.strip] and [str.lower] know the
    digits, the spaces and the letters of Unicode, which the functions below
    do not follow: a statement about a text that a user supplies is made for
    an ASCII text. *)
Definition chars (s : string) : list ascii := String.list_ascii_of_string s.

(** the digit class [\d] of [re], and the digits of [int], among the ASCII
    characters *)
Definition is_digit (c : ascii) : bool :=
  let n := Ascii.nat_of_ascii c in (48 <=? n)%nat && (n <=? 57)%nat.

(** the characters that [str.strip()] removes, among the ASCII characters *)
Definition is_space (c : ascii) : bool :=
  let n := Ascii.nat_of_ascii c in
  ((9 <=? n)%nat && (n <=? 13)%nat) || ((28 <=? n)%nat && (n <=? 32)%nat).

(** [str.lower()] on ASCII text: the letters A to Z *)
Definition lower_char (c : ascii) : ascii :=
  let n := Ascii.nat_of_ascii c in
  if (65 <=? n)%nat && (n <=? 90)%nat then Ascii.ascii_of_nat (n + 32) else c.
Definition lower (s : list ascii) : list ascii := map lower_char s.

(** [s.split(sep)] for a one-character separator *)
Fixpoint split (sep : ascii) (s : list ascii) : list (list ascii) :=
  match s with
  | [] => [[]]
  | c :: s' =>
      if Ascii.eqb c sep then [] :: split sep s'
      else match split sep s' with
           | [] => [[c]]
           | x :: xs => (c :: x) :: xs
           end
  end.

(** [s.strip()] on ASCII text *)
Fixpoint lstrip (s : list ascii) : list ascii :=
  match s with
  | c :: s' => if is_space c then lstrip s' else s
  | [] => []
  end.
Definition strip (s : list ascii) : list ascii := rev (lstrip (rev (lstrip s))).

(** [s[1:-1]] *)
Definition slice_1_m1 (s : list ascii) : list ascii := removelast (tail s).

Definition digit_value (c : ascii) : Z := Z.of_nat (Ascii.nat_of_ascii c) - 48.

(** [int(s)] for a text made of ASCII decimal digits; the callers pass
    nothing else on ASCII text (a text that matched [\d+], or a number that
    the code wrote itself).  CPython converts up to 4300 digits (its default
    limit) and raises [ValueError] beyond; the numerals here are taken
    within it. *)
Definition int (s : list ascii) : exn + Z :=
  if forallb is_digit s && negb (bool_decide (s = []))
  then inr (foldl (λ acc c, 10 * acc + digit_value c) 0 s)
  else inl ValueError_int.

(** [sep.join(l)] *)
Fixpoint join (sep : list ascii) (l : list (list ascii)) : list ascii :=
  match l with
  | [] => []
  | x :: l' =>
      match l' with
      | [] => x
      | _ :: _ => x ++ sep ++ join sep l'
      end
  end.

(** [re.split(r'[...]', s)] for a class of single characters *)
Fixpoint split_any (cls : ascii → bool) (s : list ascii) : list (list ascii) :=
  match s with
  | [] => [[]]
  | c :: s' =>
      if cls c then [] :: split_any cls s'
      else match split_any cls s' with
           | [] => [[c]]
           | x :: xs => (c :: x) :: xs
           end
  end.

Definition digit_char (d : Z) : ascii := Ascii.ascii_of_nat (Z.to_nat (48 + d)).

(** the decimal digits of [n >= 0] in front of [acc]; [fuel] bounds their
    number *)
Fixpoint digits (fuel : nat) (n : Z) (acc : list ascii) : list ascii :=
  match fuel with
  | O => acc
  | S fuel' =>
      let acc' := digit_char (n mod 10) :: acc in
      if n <? 10 then acc' else digits fuel' (n / 10) acc'
  end.

(** [str(n)] for an integer *)
Definition of_int (n : Z) : list ascii :=
  if n <? 0 then "-"%char :: digits (S (Z.to_nat (Z.log2 (- n)))) (- n) []
  else digits (S (Z.to_nat (Z.log2 n))) n [].

(** [int(s)] for a text made of decimal digits, with or without a minus
    sign in front *)
Definition int_signed (s : list ascii) : exn + Z :=
  match s with
  | "-"%char :: s' => ebind (int s') (λ n, inr (- n))
  | _ => int s
  end.

End Str.

(** ** Rendering helpers *)
Module Pretty.

(** [pretty.bar_chart(value, total, *, lenght=10, use_half_bar=True,
    display_percent=False)] called as [bar_chart(amount, total, 10)]: the
    parameters after [*] are keyword-only, so a third positional argument
    is a [TypeError] at the call. *)
Definition bar_chart_3_positional (value total lenght : Z) : exn + string :=
  inl TypeError.

(** the code point of the character that ends a truncated text *)
Definition ellipsis : N := 8230.

(** [pretty.troncate_text], on a text given as the list of its code points;
    the conditional expression of the last line takes the whole sum as its
    first branch. *)
Definition troncate_text (text : list N) (length : Z) (add_ellipsis : bool)
  : list N :=
  if Z.of_nat (List.length text) <=? length then text
  else
    let length := if add_ellipsis then length - 1 else length in
    if add_ellipsis then slice_to length text ++ [ellipsis] else [].

(** the keys of the dictionaries of [pretty.parse_time] *)
Inductive unit_key : Type := U_j | U_h | U_m | U_s.

(** the dictionary [units] of [pretty.parse_time], for a [timedelta] of
    [days] days and [seconds] seconds *)
Definition units (days seconds : Z) : list (unit_key * Z) :=
  let seconds := seconds + days * 24 * 3600 in
  [(U_j, days); (U_h, seconds / 3600 mod 24); (U_m, seconds / 60 mod 60);
   (U_s, seconds mod 60)].

Definition trsl (unit : unit_key) : string * string :=
  match unit with
  | U_j => ("jour", "jours")
  | U_h => ("heure", "heures")
  | U_m => ("minute", "minutes")
  | U_s => ("seconde", "secondes")
  end.

(** [pretty.parse_time] *)
Definition parse_time (days seconds : Z) : list ascii :=
  Str.strip
    (foldl (λ txt uv,
       if 0 <? uv.2
       then txt ++ Str.of_int uv.2 ++ Str.chars " "
                ++ Str.chars (if uv.2 =? 1 then (trsl uv.1).1 else (trsl uv.1).2)
                ++ Str.chars " "
       else txt) [] (units days seconds)).

End Pretty.

(** ** The gambling cog *)
Module Gambling.

(** [Gambling.get_betting] *)
Definition get_betting (channel : Z) : M (option betting_row) :=
  w <- get ;; ret (bettings w !! channel).

(** [Gambling.delete_betting] *)
Definition delete_betting (channel : Z) : M unit :=
  modify (set_bettings (delete channel)).

(** [Gambling.get_bets] *)
Definition get_bets (channel : Z) : M (list bet_row) :=
  w <- get ;; ret (filter (λ b, bet_channel_id b = channel) (bets w)).

(** [Gambling.get_bet]: the first matching row *)
Definition get_bet (channel user : Z) : M (option bet_row) :=
  w <- get ;;
  ret (head (filter (λ b, bet_channel_id b = channel ∧ bet_user_id b = user) (bets w))).

(** [Gambling.set_bet]; [choice.lower()] is [Str.lower] for a choice written
    in ASCII *)
Definition set_bet (channel user : Z) (choice : string) (amount : Z) : M unit :=
  data <- get_betting channel ;;
  match data with
  | None => raise ValueError_no_betting
  | Some _ =>
      let choice := String.string_of_list_ascii (Str.lower (Str.chars choice)) in
      current_bet <- get_bet channel user ;;
      match current_bet with
      | Some _ =>
          modify (set_bets (map (λ b,
            if bool_decide (bet_channel_id b = channel ∧ bet_user_id b = user)
            then mk_bet_row (bet_id b) (bet_user_id b) (bet_channel_id b) choice amount
            else b)))
      | None =>
          w <- get ;;
          modify (set_bets (λ l,
            l ++ [mk_bet_row (bets_seq w + 1) user channel choice amount])) ;;;
          modify (set_bets_seq (bets_seq w + 1))
      end
  end.

(** [Gambling.delete_all_bets] *)
Definition delete_all_bets (channel : Z) : M unit :=
  modify (set_bets (filter (λ b, bet_channel_id b ≠ channel))).

(** [sum([b['amount'] for b in bets])] *)
Definition total_stakes (l : list bet_row) : Z :=
  foldr (λ b acc, bet_amount b + acc) 0 l.

(** [Gambling.get_betting_embed]: the embed itself is not modelled, the
    exceptions raised while it is built are. *)
Definition get_betting_embed (channel : Z) : M unit :=
  data <- get_betting channel ;;
  match data with
  | None => raise ValueError_no_betting
  | Some data =>
      currency <- Economy.config_text "Currency" ;;
      bets <- get_bets channel ;;
      let choices := Str.split "," (Str.chars (bg_choices data)) in
      match bets with
      | [] => ret tt
      | _ :: _ =>
          let total := total_stakes bets in
          for_each choices (λ choice,
            let amount := total_stakes
              (filter (λ b, Str.chars (bet_choice b) = choice) bets) in
            prc <- (if total =? 0 then ret tt
                    else _ <- lift_exn (Float.true_divide amount total) ;; ret tt) ;;
            bar <- lift_exn (Pretty.bar_chart_3_positional amount total 10) ;;
            ret tt)
      end
  end.

(** [sorted(winners, key=lambda w: w['amount'], reverse=True)]: decreasing
    stakes, rows of equal stake in their original order *)
Fixpoint insert_by_amount (b : bet_row) (l : list bet_row) : list bet_row :=
  match l with
  | [] => [b]
  | b' :: l' =>
      if bet_amount b <? bet_amount b' then b' :: insert_by_amount b l'
      else b :: l
  end.
Definition sorted_by_amount_desc (l : list bet_row) : list bet_row :=
  foldr insert_by_amount [] l.

(** [int(winner['amount'] * total / winner['amount'])] *)
Definition gain (stake total : Z) : exn + Z :=
  ebind (Float.true_divide (stake * total) stake) (λ x, inr (Float.to_int x)).

Inductive winners_reply : Type :=
  | No_bets                 (* silent return *)
  | Invalid_channel         (* "Salon invalide" *)
  | Invalid_choice          (* "Choix invalide" *)
  | No_stakes               (* "Aucun pari" *)
  | No_winner               (* "Personne n'a parié sur ..." *)
  | Winners_paid.           (* "Pari terminé" *)

(** [Gambling.handle_winners] *)
Definition handle_winners (channel : Z) (result : string) (now : Z) : M winners_reply :=
  data <- get_betting channel ;;
  match data with
  | None => raise ValueError_no_betting
  | Some data =>
      bets <- get_bets channel ;;
      match bets with
      | [] => ret No_bets
      | _ :: _ =>
          w <- get ;;
          if negb (bool_decide (channel ∈ text_channels w)) then ret Invalid_channel
          else
            let winner := Str.lower (Str.chars result) in
            if negb (bool_decide (winner ∈ Str.split "," (Str.chars (bg_choices data))))
            then ret Invalid_choice
            else
              let total := total_stakes bets in
              if total =? 0 then ret No_stakes
              else
                let winners :=
                  filter (λ b, Str.chars (bet_choice b) = winner) bets in
                match winners with
                | [] => get_betting_embed channel ;;; ret No_winner
                | _ :: _ =>
                    get_betting_embed channel ;;;
                    currency <- Economy.config_text "Currency" ;;
                    for_each (sorted_by_amount_desc winners) (λ winner,
                      w <- get ;;
                      if bool_decide (bet_user_id winner ∈ members w) then
                        amount <- lift_exn (gain (bet_amount winner) total) ;;
                        account <- get_account (bet_user_id winner) ;;
                        Account.deposit account amount (R_win (bg_title data)) now ;;;
                        ret tt
                      else ret tt) ;;;
                    ret Winners_paid
                end
      end
  end.

Inductive cancel_reply : Type :=
  | Cancel_no_session       (* "Aucun pari en cours" *)
  | Cancel_unauthorized     (* "Autorisation insuffisante" *)
  | Cancel_timeout          (* "Annulation annulée · Vous n'avez pas répondu à temps" *)
  | Cancel_declined         (* "Annulation annulée · Le pari n'a pas été annulé" *)
  | Cancel_no_bets          (* "Aucun pari · Personne n'a parié" *)
  | Cancel_done.            (* "Pari annulé" *)

(** the loop "On rembourse les participants" of [_cancel_gamble] *)
Definition refund_all (bets : list bet_row) (title : string) (now : Z) : M unit :=
  for_each bets (λ bet,
    w <- get ;;
    if bool_decide (bet_user_id bet ∈ members w) then
      account <- get_account (bet_user_id bet) ;;
      Account.deposit account (bet_amount bet) (R_refund title) now ;;;
      ret tt
    else ret tt).

(** [Gambling._cancel_gamble], run in a text channel or a thread by [user];
    [manage_messages] is the permission of [user] on the channel and
    [answer] the value of the confirmation view ([None] on timeout).  The
    messages sent, edited or deleted on the chat side are not modelled. *)
Definition _cancel_gamble (channel user : Z) (manage_messages : bool)
    (answer : option bool) (now : Z) : M cancel_reply :=
  betting <- get_betting channel ;;
  match betting with
  | None => ret Cancel_no_session
  | Some betting =>
      w <- get ;;
      if negb manage_messages
         && (negb (bool_decide (bg_author_id betting ∈ members w))
             || negb (bool_decide (user = bg_author_id betting)))
      then ret Cancel_unauthorized
      else
        match answer with
        | None => ret Cancel_timeout
        | Some false => ret Cancel_declined
        | Some true =>
            bets <- get_bets channel ;;
            match bets with
            | [] => ret Cancel_no_bets
            | _ :: _ =>
                refund_all bets (bg_title betting) now ;;;
                delete_betting channel ;;;
                delete_all_bets channel ;;;
                ret Cancel_done
            end
        end
  end.

(** [Gambling.set_betting] *)
Definition set_betting (channel : Z) (title : string) (choices : list (list ascii))
    (message minimal_bet author : Z) : M unit :=
  modify (set_bettings
    <[channel := mk_betting_row title
                   (String.string_of_list_ascii
                      (Str.join (Str.chars ",") (map Str.lower choices)))
                   message minimal_bet author]>).

(** [Gambling.delete_bet] *)
Definition delete_bet (channel user : Z) : M unit :=
  modify (set_bets
    (filter (λ b, ¬ (bet_channel_id b = channel ∧ bet_user_id b = user)))).

(** [Gambling.update_display]; fetching and editing the message of the
    session is on the chat side. *)
Definition update_display (channel : Z) : M unit :=
  data <- get_betting channel ;;
  match data with
  | None => raise ValueError_no_betting
  | Some _ => get_betting_embed channel
  end.

(** [[c.strip().lower() for c in re.split(r'[,|;]', choices) if c]] on
    ASCII text *)
Definition choices_of (choices : string) : list (list ascii) :=
  map (λ c, Str.lower (Str.strip c))
    (filter (λ c, c ≠ [])
       (Str.split_any
          (λ c, Ascii.eqb c "," || Ascii.eqb c "|" || Ascii.eqb c ";")
          (Str.chars choices))).

Inductive start_reply : Type :=
  | Start_already           (* "Pari déjà en cours" *)
  | Start_title             (* "Titre invalide" *)
  | Start_choices           (* "Choix invalides" *)
  | Start_done.             (* "Pari créé" *)

(** [Gambling._start_gamble], run in a text channel or a thread by
    [author]; [message] is the message that the command sends for the
    display of the session.  [len(title)] is [String.length title] for a
    title written in ASCII. *)
Definition _start_gamble (channel : Z) (title choices : string)
    (minimal_bet message author : Z) : M start_reply :=
  current <- get_betting channel ;;
  match current with
  | Some _ => ret Start_already
  | None =>
      if (100 <? String.length title)%nat then ret Start_title
      else
        let chx := choices_of choices in
        if (length chx <? 2)%nat || (4 <? length chx)%nat then ret Start_choices
        else
          set_betting channel title chx message minimal_bet author ;;;
          update_display channel ;;;
          ret Start_done
  end.

Inductive stop_reply : Type :=
  | Stop_no_session         (* "Aucun pari en cours" *)
  | Stop_unauthorized       (* "Autorisation insuffisante" *)
  | Stop_timeout            (* "Arrêt annulé · Vous n'avez pas répondu à temps" *)
  | Stop_declined           (* "Arrêt annulé · Le pari n'a pas été arrêté" *)
  | Stop_invalid_result     (* "Résultat invalide" *)
  | Stop_done.              (* "Pari arrêté" *)

(** [Gambling._stop_gamble], with the parameters of [_cancel_gamble] and
    the result announced *)
Definition _stop_gamble (channel user : Z) (manage_messages : bool)
    (answer : option bool) (result : string) (now : Z) : M stop_reply :=
  betting <- get_betting channel ;;
  match betting with
  | None => ret Stop_no_session
  | Some betting =>
      w <- get ;;
      if negb manage_messages
         && (negb (bool_decide (bg_author_id betting ∈ members w))
             || negb (bool_decide (user = bg_author_id betting)))
      then ret Stop_unauthorized
      else
        match answer with
        | None => ret Stop_timeout
        | Some false => ret Stop_declined
        | Some true =>
            if negb (bool_decide (Str.lower (Str.chars result)
                                  ∈ Str.split "," (Str.chars (bg_choices betting))))
            then ret Stop_invalid_result
            else
              handle_winners channel result now ;;;
              delete_betting channel ;;;
              delete_all_bets channel ;;;
              ret Stop_done
        end
  end.

Inductive bet_reply : Type :=
  | Bet_invalid_user        (* "Utilisateur invalide" *)
  | Bet_no_session          (* "Aucun pari en cours" *)
  | Bet_invalid_choice      (* "Choix invalide" *)
  | Bet_too_low             (* "Mise trop faible" *)
  | Bet_insufficient        (* "Solde insuffisant" *)
  | Bet_recorded            (* "Pari enregistré" *)
  | Bet_timeout             (* "Ajout annulé · Vous n'avez pas répondu à temps" *)
  | Bet_declined            (* "Ajout annulé · Vous n'avez pas ajouté ..." *)
  | Bet_updated             (* "Pari mis à jour" *)
  | Bet_other_choice.       (* "Pari déjà enregistré" on another choice *)

(** [Gambling._bet_choice], run in a text channel or a thread; [answer] is
    the value of the confirmation view shown when the user adds to a bet.
    On the two paths that store a bet, the reply is sent before the last
    statement, [update_display], runs: an exception raised there is the
    outcome of the command, after the reply. *)
Definition _bet_choice (channel user : Z) (choice : string) (amount : Z)
    (answer : option bool) (now : Z) : M bet_reply :=
  w <- get ;;
  if negb (bool_decide (user ∈ members w)) then ret Bet_invalid_user
  else
    currency <- Economy.config_text "Currency" ;;
    data <- get_betting channel ;;
    match data with
    | None => ret Bet_no_session
    | Some data =>
        if negb (bool_decide (Str.chars choice
                              ∈ Str.split "," (Str.chars (bg_choices data))))
        then ret Bet_invalid_choice
        else if amount <? bg_minimal_bet data then ret Bet_too_low
        else
          account <- get_account user ;;
          b <- Account._get_balance account ;;
          if b <? amount then ret Bet_insufficient
          else
            current_bet <- get_bet channel user ;;
            match current_bet with
            | None =>
                set_bet channel user choice amount ;;;
                Account.withdraw account amount (R_bet (bg_title data)) now ;;;
                update_display channel ;;;
                ret Bet_recorded
            | Some current_bet =>
                if bool_decide (bet_choice current_bet = choice) then
                  match answer with
                  | None => ret Bet_timeout
                  | Some false => ret Bet_declined
                  | Some true =>
                      let new_bet := bet_amount current_bet + amount in
                      Account.withdraw account amount (R_bet (bg_title data)) now ;;;
                      set_bet channel user choice new_bet ;;;
                      update_display channel ;;;
                      ret Bet_updated
                  end
                else ret Bet_other_choice
            end
    end.

End Gambling.

(** ** The dice-throw parser *)
Module GameTools.

Inductive dice : Type :=
  | Dice (faces : list Z)
  | ClassicDice (faces : list Z).   (* a [Dice] built from [range(1, faces + 1)] *)

(** [ClassicDice(faces)] *)
Definition classic (faces : Z) : dice := ClassicDice (seqZ 1 faces).

(** the longest prefix of digits, and the rest *)
Fixpoint span_digits (s : list ascii) : list ascii * list ascii :=
  match s with
  | c :: s' =>
      if Str.is_digit c then
        let (ds, rest) := span_digits s' in (c :: ds, rest)
      else ([], s)
  | [] => ([], [])
  end.

(** [re.match(r'^\d+d\d+$', dice)] on a stripped ASCII text *)
Definition match_classic (s : list ascii) : bool :=
  match span_digits s with
  | (n, c :: f) =>
      negb (bool_decide (n = [])) && Ascii.eqb c "d"
      && negb (bool_decide (f = [])) && forallb Str.is_digit f
  | (_, []) => false
  end.

(** [\d+(,\d+)*\)$]: [in_number] says that a digit has just been read *)
Fixpoint match_faces (s : list ascii) (in_number : bool) : bool :=
  match s with
  | [] => false
  | c :: s' =>
      if Str.is_digit c then match_faces s' true
      else if Ascii.eqb c "," then in_number && match_faces s' false
      else if Ascii.eqb c ")" then in_number && bool_decide (s' = [])
      else false
  end.

(** [re.match(r'^\d+d\(\d+(,\d+)*\)$', dice)] on a stripped ASCII text *)
Definition match_custom (s : list ascii) : bool :=
  match span_digits s with
  | (n, c :: c' :: f) =>
      negb (bool_decide (n = [])) && Ascii.eqb c "d" && Ascii.eqb c' "("
      && match_faces f false
  | _ => false
  end.

(** [[int(f.strip()) for f in l]] *)
Fixpoint ints (l : list (list ascii)) : exn + list Z :=
  match l with
  | [] => inr []
  | f :: l' =>
      ebind (Str.int (Str.strip f)) (λ x,
      ebind (ints l') (λ xs, inr (x :: xs)))
  end.

(** [int(n) or 1] *)
Definition count (n : Z) : nat := Z.to_nat (if n =? 0 then 1 else n).

(** one turn of the loop of [ThrowTransformer.transform]: the dice that a
    term appends *)
Definition term_dices (term : list ascii) : exn + list dice :=
  if match_classic term then
    match Str.split "d" term with
    | [n; f] =>
        ebind (Str.int n) (λ n,
        ebind (Str.int f) (λ f,
        inr (replicate (count n) (classic f))))
    | _ => inl ValueError_unpack
    end
  else if match_custom term then
    match Str.split "d" term with
    | [n; f] =>
        ebind (ints (Str.split "," (Str.slice_1_m1 f))) (λ faces,
        ebind (Str.int n) (λ n,
        inr (replicate (count n) (Dice faces))))
    | _ => inl ValueError_unpack
    end
  else inl BadArgument_format.

Fixpoint collect (terms : list (list ascii)) (dices : list dice) : exn + list dice :=
  match terms with
  | [] => inr dices
  | term :: terms' =>
      ebind (term_dices term) (λ ds, collect terms' (dices ++ ds))
  end.

(** [[v.strip() for v in value.split('+')]] *)
Definition terms (value : string) : list (list ascii) :=
  map Str.strip (Str.split "+" (Str.chars value)).

(** [ThrowTransformer.transform]: the dice of the [DiceThrow] returned *)
Definition transform (value : string) : exn + list dice :=
  ebind (collect (terms value) []) (λ dices,
    if (20 <? length dices)%nat then inl BadArgument_too_many
    else inr dices).

Definition faces_of (d : dice) : list Z :=
  match d with
  | Dice faces => faces
  | ClassicDice faces => faces
  end.

(** [Dice.__eq__] *)
Definition Dice_eqb (a b : dice) : bool := bool_decide (faces_of a = faces_of b).

(** [Dice.__str__] and [ClassicDice.__str__] *)
Definition Dice_str (d : dice) : list ascii :=
  match d with
  | Dice faces =>
      Str.chars "d(" ++ Str.join (Str.chars ",") (map Str.of_int faces) ++ Str.chars ")"
  | ClassicDice faces => Str.chars "d" ++ Str.of_int (Z.of_nat (length faces))
  end.

(** [Dice._to_string] *)
Definition Dice_to_string (d : dice) : list ascii :=
  Str.join (Str.chars "/") (map Str.of_int (faces_of d)).

(** [[int(f) for f in l]] *)
Fixpoint ints_signed (l : list (list ascii)) : exn + list Z :=
  match l with
  | [] => inr []
  | f :: l' =>
      ebind (Str.int_signed f) (λ x,
      ebind (ints_signed l') (λ xs, inr (x :: xs)))
  end.

(** [Dice._from_string] *)
Definition Dice_from_string (s : list ascii) : exn + dice :=
  ebind (ints_signed (Str.split "/" s)) (λ faces, inr (Dice faces)).

(** [DiceThrow._to_string] *)
Definition DiceThrow_to_string (dices : list dice) : list ascii :=
  Str.join (Str.chars ",") (map Dice_to_string dices).

(** [[Dice._from_string(d) for d in l]] *)
Fixpoint dices_from_strings (l : list (list ascii)) : exn + list dice :=
  match l with
  | [] => inr []
  | s :: l' =>
      ebind (Dice_from_string s) (λ d,
      ebind (dices_from_strings l') (λ ds, inr (d :: ds)))
  end.

(** [DiceThrow._from_string] *)
Definition DiceThrow_from_string (s : list ascii) : exn + list dice :=
  dices_from_strings (Str.split "," s).

(** one turn of the counting loop of [DiceThrow.__str__]: the dictionary
    is the list of its items in insertion order, and a key is found by
    [Dice.__eq__] *)
Fixpoint count_dice (d : dice) (dices : list (dice * Z)) : list (dice * Z) :=
  match dices with
  | [] => [(d, 1)]
  | kn :: rest =>
      if Dice_eqb d kn.1 then (kn.1, kn.2 + 1) :: rest
      else kn :: count_dice d rest
  end.

(** [DiceThrow.__str__] *)
Definition DiceThrow_str (dices : list dice) : list ascii :=
  Str.join (Str.chars " + ")
    (map (λ kn, Str.of_int kn.2 ++ Dice_str kn.1)
       (foldl (λ acc d, count_dice d acc) [] dices)).

(** [random.choice(seq)]; [draw] stands for the random number drawn, of
    which the index below [len(seq)] is taken *)
Definition choice {A} (seq : list A) (draw : nat) : exn_more + A :=
  match seq with
  | [] => inl IndexError
  | x :: _ => inr (nth (draw mod length seq)%nat seq x)
  end.

(** [Dice.roll] *)
Definition roll (d : dice) (draw : nat) : exn_more + Z :=
  choice (faces_of d) draw.

(** [DiceThrow.roll_all]: the die of rank [i] uses the draw [draws i] *)
Fixpoint roll_all (dices : list dice) (draws : nat → nat) : exn_more + list Z :=
  match dices with
  | [] => inr []
  | d :: dices' =>
      match roll d (draws O) with
      | inl e => inl e
      | inr x =>
          match roll_all dices' (λ i, draws (S i)) with
          | inl e => inl e
          | inr xs => inr (x :: xs)
          end
      end
  end.

(** [DiceThrow.roll_sum] *)
Definition roll_sum (dices : list dice) (draws : nat → nat) : exn_more + Z :=
  match roll_all dices draws with
  | inl e => inl e
  | inr xs => inr (foldr Z.add 0 xs)
  end.

(** [GameTools.save_throw]: [INSERT OR REPLACE INTO throws VALUES (?, ?)];
    the table [throws] of the cog maps the name of a saved throw to its
    serialized form. *)
Definition save_throw (name : string) (throw : list dice)
    (db : gmap string (list ascii)) : gmap string (list ascii) :=
  <[name := DiceThrow_to_string throw]> db.

(** [GameTools.load_throw] *)
Definition load_throw (name : string) (db : gmap string (list ascii))
  : exn + option (string * list dice) :=
  match db !! name with
  | Some data => ebind (DiceThrow_from_string data) (λ t, inr (Some (name, t)))
  | None => inr None
  end.

(** [GameTools.delete_throw] *)
Definition delete_throw (name : string) (db : gmap string (list ascii))
  : gmap string (list ascii) :=
  delete name db.

End GameTools.

(** ** Vocabulary of the statements *)

(** the object that [Transaction(cog, user, amount, reason=..., timestamp=...)]
    builds at the clock reading [now] *)
Definition tx_object (user amount : Z) (rsn : reason) (timestamp now : Z)
  : Transaction.t :=
  let ts := if timestamp =? 0 then now else timestamp in
  Transaction.mk user amount rsn ts (Transaction.get_id ts user amount).

(** the row that a transaction object inserts *)
Definition tx_row_of (t : Transaction.t) : tx_row :=
  mk_tx_row (Transaction.id t) (Transaction.timestamp t) (Transaction.amount t)
    (Transaction.reason_of t) (Transaction.user t).

(** the retention sweep is due at [now] *)
Definition sweep_due (now : Z) (w : world) : bool :=
  last_cleanup w + TRANSACTION_CLEANUP_INTERVAL <? now.

(** what the sweep keeps *)
Definition sweep (now : Z) (rows : list tx_row) : list tx_row :=
  filter (λ r, ¬ (row_timestamp r < now - TRANSACTION_EXPIRATION_DELAY)) rows.

(** no row is older than the retention window at [now] *)
Definition retained (now : Z) (rows : list tx_row) : bool :=
  forallb (λ r, now - TRANSACTION_EXPIRATION_DELAY <=? row_timestamp r) rows.

(** every row carries the identifier derived from its own columns and a
    timestamp other than the default argument [0] *)
Definition derived_ids (rows : list tx_row) : bool :=
  forallb (λ r,
    bool_decide (row_id r
                 = Transaction.get_id (row_timestamp r) (row_user_id r) (row_amount r))
    && negb (row_timestamp r =? 0)) rows.

(** [INSERT OR IGNORE] on the rows *)
Definition insert_or_ignore (r : tx_row) (rows : list tx_row) : list tx_row :=
  if Store.has_id (row_id r) rows then rows else rows ++ [r].

(** the world after [Transaction.__create_if_not_exists] *)
Definition recorded (t : Transaction.t) (now : Z) (w : world) : world :=
  let w1 := set_transactions (insert_or_ignore (tx_row_of t)) w in
  if sweep_due now w
  then set_last_cleanup now (set_transactions (sweep now) w1)
  else w1.

(** a stored transaction of [user] has the identifier of [t] *)
Definition linked (user : Z) (t : Transaction.t) (w : world) : bool :=
  existsb (λ r, bool_decide (row_user_id r = user)
                && bool_decide (row_id r = Transaction.id t)) (transactions w).

(** the stakes of [user] among the rows [l] *)
Definition stakes_of (user : Z) (l : list bet_row) : Z :=
  Gambling.total_stakes (filter (λ b, bet_user_id b = user) l).

(** what was credited to [user] by a loop that credits [amt b] for each row
    [b] of [l] *)
Definition credit_of (amt : bet_row → Z) (user : Z) (l : list bet_row) : Z :=
  foldr (λ b acc, amt b + acc) 0 (filter (λ b, bet_user_id b = user) l).

(** the dictionary that [get_guild_config] returns *)
Definition effective_config (w : world) : gmap string cfg_value :=
  if bool_decide (config w = ∅) then DEFAULT_CONFIG else config w.

(** the rows of a channel, as [get_bets] returns them *)
Definition bets_of (channel : Z) (w : world) : list bet_row :=
  filter (λ b, bet_channel_id b = channel) (bets w).

(** a text of ASCII characters: every code is below 128.  On such a text the
    functions of [Str] are those of Python; a text with other characters,
    given by its UTF-8 bytes, is outside what the statements cover. *)
Definition ascii_text (s : list ascii) : bool :=
  forallb (λ c, (Ascii.nat_of_ascii c <? 128)%nat) s.











(** one turn of a loop that credits [amt x] to the member of the row [x] *)
Definition credit_body (amt : bet_row → Z) (rsn : reason) (now : Z) (x : bet_row)
  : M unit :=
  w <- get ;;
  if bool_decide (bet_user_id x ∈ members w) then
    account <- get_account (bet_user_id x) ;;
    Account.deposit account (amt x) rsn now ;;;
    ret tt
  else ret tt.

(** every stored balance satisfies the column constraint *)
Definition balances_checked (w : world) : Prop :=
  ∀ u b, accounts w !! u = Some b → 0 ≤ b.


(** the members that [get_accounts] lists: those with a row in [accounts] *)
Definition account_holders (guild_members : list Z) (w : world) : list Z :=
  filter (λ m, is_Some (accounts w !! m)) guild_members.

(** the stored balance of a user, 0 when there is no row *)
Definition balance_of (w : world) (m : Z) : Z := default 0 (accounts w !! m).

(** the sum of the stored balances of the users of a list *)
Definition total_of (w : world) (l : list Z) : Z :=
  foldr Z.add 0 (map (balance_of w) l).

(** the transactions that the pages of the history view list: in a list
    cut into runs of 21, the first 20 of each run *)
Definition listed_rows (l : list Transaction.t) : list Transaction.t :=
  map snd (filter (λ p, (fst p mod 21 ≠ 20)%nat) (zip (seq 0 (length l)) l)).

(** what the loop of [get_pages] lists of [l] when the table already holds
    [k] rows *)
Fixpoint listed_from (k : nat) (l : list Transaction.t) : list Transaction.t :=
  match l with
  | [] => []
  | x :: l' =>
      if (k <? 20)%nat then x :: listed_from (S k) l' else listed_from 0 l'
  end.

(** the buttons of the history view that turn pages or change the column *)
Inductive button : Type := Previous | Switch_display | Next.

Definition press (v : TransactionsHistoryView.t) (b : button)
  : TransactionsHistoryView.t :=
  match b with
  | Previous => TransactionsHistoryView.previous v
  | Switch_display => TransactionsHistoryView.switch_display v
  | Next => TransactionsHistoryView.next v
  end.

(** the text has none of the characters of a class *)
Definition free_of (cls : ascii → bool) (s : list ascii) : bool :=
  forallb (λ c, negb (cls c)) s.

(** at most one bet row for a channel and a user *)
Definition one_bet_each (l : list bet_row) : Prop :=
  NoDup (map (λ b, (bet_channel_id b, bet_user_id b)) l).

(** [choice.lower()] on a text written in ASCII *)
Definition lower_text (s : string) : string :=
  String.string_of_list_ascii (Str.lower (Str.chars s)).

(** the number that a text of decimal digits denotes *)
Definition digits_value (s : list ascii) : Z :=
  foldl (λ acc c, 10 * acc + Str.digit_value c) 0 s.

(** a die read back from its serialized form: the faces without the class *)
Definition plain (d : GameTools.dice) : GameTools.dice :=
  GameTools.Dice (GameTools.faces_of d).

(** ** Concrete worlds *)
Module Examples.

(** a clock reading, in microseconds *)
Definition now0 : Z := 1700000000000000.

(** two members, one text channel, one account with 50 credits *)
Definition w_alice : world :=
  mk_world {[1; 2]} {[10]} (<[1 := 50]> ∅) [] ∅ ∅ 0 ∅ [] 0.


(** the deposit of 5 credits recorded one microsecond after [now0] *)
Definition deposit_5 : Transaction.t := tx_object 1 5 (R_text "in") 0 (now0 + 1).
Definition deposit_5_row : tx_row := tx_row_of deposit_5.
Definition withdraw_5 : Transaction.t := tx_object 1 (-5) (R_text "out") 0 (now0 + 900).

Definition w_ledger : world :=
  mk_world {[1; 2]} {[10]} (<[1 := 50]> ∅) [deposit_5_row] ∅ ∅ now0 ∅ [] 0.

(** the same ledger after the credits were spent *)
Definition w_spent : world :=
  mk_world {[1; 2]} {[10]} (<[1 := 0]> ∅) [deposit_5_row] ∅ ∅ now0 ∅ [] 0.

(** the session of the specification: 30 on heads, 70 on tails *)
Definition session : betting_row := mk_betting_row "match" "heads,tails" 7 1 1.
Definition bet_heads : bet_row := mk_bet_row 1 1 10 "heads" 30.
Definition bet_tails : bet_row := mk_bet_row 2 2 10 "tails" 70.
Definition w_bets : world :=
  mk_world {[1; 2]} {[10]} (<[1 := 0]> (<[2 := 0]> ∅)) [] ∅ ∅ 0
    (<[10 := session]> ∅) [bet_heads; bet_tails] 2.
(** the same session after user 1 left the guild *)
Definition w_bets_left : world :=
  mk_world {[2]} {[10]} (<[1 := 0]> (<[2 := 0]> ∅)) [] ∅ ∅ 0
    (<[10 := session]> ∅) [bet_heads; bet_tails] 2.
(** a session on which nobody has bet *)
Definition w_no_bets : world :=
  mk_world {[1; 2]} {[10]} (<[1 := 0]> ∅) [] ∅ ∅ 0 (<[10 := session]> ∅) [] 0.
(** a guild whose daily stipend is one credit *)
Definition w_daily : world :=
  mk_world {[1]} {[10]} (<[1 := 3000]> ∅) []
    (<["DailyAmount" := CfgInt 1]> DEFAULT_CONFIG) ∅ 0 ∅ [] 0.
(** a balance above the cap of the default configuration *)
Definition w_rich : world :=
  mk_world {[1]} {[10]} (<[1 := 10000]> ∅) [] ∅ ∅ 0 ∅ [] 0.
(** a guild whose settings are stored *)
Definition w_configured : world :=
  mk_world {[1; 2]} {[10]} (<[1 := 50]> ∅) [] DEFAULT_CONFIG ∅ 0 ∅ [] 0.
(** two members with an account each *)
Definition w_pair : world :=
  mk_world {[1; 2]} {[10]} (<[1 := 50]> (<[2 := 10]> ∅)) [] ∅ ∅ 0 ∅ [] 0.
(** the session with two bets and a third member who has 40 credits *)
Definition w_session : world :=
  mk_world {[1; 2; 3]} {[10]} (<[3 := 40]> ∅) [] ∅ ∅ 0
    (<[10 := session]> ∅) [bet_heads; bet_tails] 2.
(** the history view of one deposit *)
Definition view : TransactionsHistoryView.t :=
  TransactionsHistoryView.mk 1 [deposit_5] 0 TransactionsHistoryView.Reason
    [[deposit_5]] true true.

End Examples.

(** * Verification *)

(** ** Basic facts about the monad and the store *)

Ltac munfold :=
  unfold bind, ret, raise, get, modify in *.

Lemma set_accounts_id (w : world) : set_accounts (λ acc, acc) w = w.
Proof. by destruct w. Qed.

Lemma set_transactions_id (w : world) : set_transactions (λ rows, rows) w = w.
Proof. by destruct w. Qed.

Lemma config_int_world (key : string) (w : world) :
  fst (Economy.config_int key w) = w.
Proof.
  unfold Economy.config_int, Economy.get_guild_config, Store.config_select_all.
  munfold. simpl.
  destruct (_ !! key) as [[n|s]|]; reflexivity.
Qed.

Lemma config_int_inv (key : string) (w w' : world) (d : Z) :
  Economy.config_int key w = (w', inr d) → w' = w.
Proof. intros H. pose proof (config_int_world key w) as E. rewrite H in E. done. Qed.

Lemma get_balance_some (owner b : Z) (w : world) :
  accounts w !! owner = Some b → Account._get_balance owner w = (w, inr b).
Proof.
  intros H. unfold Account._get_balance, Store.accounts_select_balance.
  munfold. by rewrite H.
Qed.

Lemma get_balance_none (owner : Z) (w : world) :
  accounts w !! owner = None → Account._get_balance owner w = (w, inl TypeError).
Proof.
  intros H. unfold Account._get_balance, Store.accounts_select_balance.
  munfold. by rewrite H.
Qed.

Lemma update_balance_check (owner b value : Z) (w : world) :
  accounts w !! owner = Some b → value < 0 →
  Store.accounts_update_balance owner value w = (w, inl IntegrityError).
Proof.
  intros H Hv. unfold Store.accounts_update_balance. munfold. rewrite H.
  destruct (Z.leb_spec 0 value); [lia | done].
Qed.

Lemma update_balance_ok (owner b value : Z) (w : world) :
  accounts w !! owner = Some b → 0 ≤ value →
  Store.accounts_update_balance owner value w
  = (set_accounts <[owner := value]> w, inr tt).
Proof.
  intros H Hv. unfold Store.accounts_update_balance. munfold. rewrite H.
  destruct (Z.leb_spec 0 value); [done | lia].
Qed.

(** ** Rejection of negative magnitudes *)

(** C7: [Account.set] with a negative target and [Account.deposit] with a
    negative amount raise a validation error; the world they return is the
    world they received, so the stored balance is the same and no transaction
    was appended. *)
Theorem set_deposit_reject_negative (owner v : Z) (rsn : reason) (now : Z) (w : world) :
  v < 0 →
  Account.set owner v rsn now w = (w, inl ValueError_negative_balance) ∧
  Account.deposit owner v rsn now w = (w, inl ValueError_negative_amount).
Proof.
  intros Hv. unfold Account.set, Account.deposit.
  destruct (Z.ltb_spec v 0); [| lia]. done.
Qed.

(** ** Under-funded withdrawals *)

(** C8: with a stored balance [b] and an amount of magnitude above [b],
    [Account.withdraw] has no check of its own: it asks the store to write
    [b - |a|], the store refuses the write under [CHECK (balance >= 0)], and
    the integrity error leaves the world as it was (balance [b], no new
    transaction). *)
Theorem withdraw_underfunded (owner a b : Z) (rsn : reason) (now : Z) (w : world) :
  accounts w !! owner = Some b →
  b < Z.abs a →
  Store.accounts_update_balance owner (b - Z.abs a) w = (w, inl IntegrityError) ∧
  Account.withdraw owner a rsn now w = (w, inl IntegrityError).
Proof.
  intros Hb Ha.
  assert (Hu : Store.accounts_update_balance owner (b - Z.abs a) w
               = (w, inl IntegrityError))
    by (eapply update_balance_check; [eassumption | lia]).
  split; [exact Hu |].
  unfold Account.withdraw, Account._set_balance.
  assert (Hamt : (if a <? 0 then Z.abs a else a) = Z.abs a)
    by (destruct (Z.ltb_spec a 0); lia).
  rewrite Hamt. unfold bind at 1. rewrite (get_balance_some _ _ _ Hb).
  unfold bind at 1. rewrite (get_balance_some _ _ _ Hb).
  unfold bind at 1. by rewrite Hu.
Qed.

(** ** Opening an account *)





(** ** Recording a transaction *)

Lemma init_spec (u a : Z) (rsn : reason) (ts now : Z) (w : world) :
  Transaction.init u a rsn ts now w
  = (recorded (tx_object u a rsn ts now) now w, inr (tx_object u a rsn ts now)).
Proof.
  unfold Transaction.init, Transaction.create_if_not_exists, recorded, sweep_due.
  unfold Store.transactions_insert_or_ignore, Economy.cleanup_transactions,
    Store.transactions_delete_before.
  munfold. simpl.
  fold (tx_object u a rsn ts now).
  destruct (_ <? now); reflexivity.
Qed.

Lemma recorded_accounts t now w : accounts (recorded t now w) = accounts w.
Proof. unfold recorded. by destruct (sweep_due now w). Qed.

Lemma recorded_transactions t now w :
  transactions (recorded t now w)
  = (if sweep_due now w then sweep now (insert_or_ignore (tx_row_of t) (transactions w))
     else insert_or_ignore (tx_row_of t) (transactions w)).
Proof. unfold recorded. by destruct (sweep_due now w). Qed.

Lemma sweep_retained now rows : retained now rows = true → sweep now rows = rows.
Proof.
  unfold retained, sweep. induction rows as [|r rows IH]; simpl; [done|].
  intros H. apply andb_true_iff in H as [Hr Hrows].
  apply Z.leb_le in Hr.
  rewrite filter_cons_True by lia. by rewrite IH.
Qed.

Lemma has_id_true id rows :
  Store.has_id id rows = true ↔ ∃ r, r ∈ rows ∧ row_id r = id.
Proof.
  unfold Store.has_id. rewrite existsb_exists. split.
  - intros (r & Hin & Hr). exists r. split; [by apply list_elem_of_In|].
    by apply bool_decide_eq_true in Hr.
  - intros (r & Hin & Hr). exists r. split; [by apply list_elem_of_In|].
    by apply bool_decide_eq_true.
Qed.

Lemma same_second_close (t1 t2 : Z) :
  Transaction.int_timestamp t1 = Transaction.int_timestamp t2 →
  t2 - TRANSACTION_EXPIRATION_DELAY ≤ t1.
Proof.
  unfold Transaction.int_timestamp, TRANSACTION_EXPIRATION_DELAY, seconds. intros H.
  pose proof (Z.quot_rem' t1 1000000) as E1.
  pose proof (Z.quot_rem' t2 1000000) as E2.
  pose proof (Z.rem_bound_abs t1 1000000 ltac:(lia)) as B1.
  pose proof (Z.rem_bound_abs t2 1000000 ltac:(lia)) as B2.
  rewrite H in E1. lia.
Qed.

Lemma sweep_length now rows : (length (sweep now rows) ≤ length rows)%nat.
Proof. unfold sweep. apply length_filter. Qed.

(** C3: a transaction created for a user at the clock reading [now], in the
    integer second of a stored transaction [r1] of the same user whose amount
    has the same magnitude (the same sign or the opposite one: a deposit and
    a withdrawal of [a]), gets the identifier of [r1], and recording it is
    ignored: [r1] is still stored afterwards, with its signed amount and its
    reason, no row is added to the ledger, which does not grow, and no
    balance changes.  The ledger afterwards is the ledger before, less the
    rows past the retention window when the sweep is due. *)
Theorem id_collision_ignored (w : world) (u a2 now : Z) (rsn2 : reason)
    (r1 : tx_row) :
  r1 ∈ transactions w →
  row_user_id r1 = u →
  row_id r1 = Transaction.get_id (row_timestamp r1) u (row_amount r1) →
  Transaction.int_timestamp (row_timestamp r1) = Transaction.int_timestamp now →
  Z.abs (row_amount r1) = Z.abs a2 →
  let t2 := tx_object u a2 rsn2 0 now in
  let w' := fst (Transaction.init u a2 rsn2 0 now w) in
  Transaction.id t2 = row_id r1 ∧
  snd (Transaction.init u a2 rsn2 0 now w) = inr t2 ∧
  transactions w'
  = (if sweep_due now w then sweep now (transactions w) else transactions w) ∧
  r1 ∈ transactions w' ∧
  (∀ r, r ∈ transactions w' → r ∈ transactions w) ∧
  (length (transactions w') ≤ length (transactions w))%nat ∧
  accounts w' = accounts w.
Proof.
  intros Hin Hu Hid Hsec Habs t2 w'.
  assert (Hid2 : Transaction.id t2 = row_id r1).
  { subst t2. rewrite Hid. unfold tx_object. simpl. unfold Transaction.get_id.
    by rewrite Hsec, Habs. }
  assert (Hhas : Store.has_id (row_id (tx_row_of t2)) (transactions w) = true).
  { apply has_id_true. exists r1. split; [done|]. symmetry. exact Hid2. }
  assert (Htx : transactions w'
                = (if sweep_due now w then sweep now (transactions w) else transactions w)).
  { subst w'. rewrite init_spec. simpl. rewrite recorded_transactions.
    fold t2. unfold insert_or_ignore. by rewrite Hhas. }
  split; [done|]. split; [by rewrite init_spec|]. split; [done|].
  split; [|split; [|split]].
  - rewrite Htx. destruct (sweep_due now w); [|done].
    unfold sweep. apply list_elem_of_filter. split; [|done].
    pose proof (same_second_close _ _ Hsec). lia.
  - intros r. rewrite Htx. destruct (sweep_due now w); [|done].
    unfold sweep. intros Hr. by apply list_elem_of_filter in Hr as [_ Hr].
  - rewrite Htx. destruct (sweep_due now w); [apply sweep_length | done].
  - subst w'. rewrite init_spec. simpl. apply recorded_accounts.
Qed.

(** ** Deposits and withdrawals *)

Lemma set_balance_spec (u b v : Z) (rsn : reason) (now : Z) (w : world) :
  accounts w !! u = Some b → 0 ≤ v →
  Account._set_balance u v rsn now w
  = (recorded (tx_object u (v - b) rsn 0 now) now (set_accounts <[u := v]> w),
     inr (tx_object u (v - b) rsn 0 now)).
Proof.
  intros Hb Hv. unfold Account._set_balance.
  unfold bind at 1. rewrite (get_balance_some _ _ _ Hb).
  unfold bind at 1. rewrite (update_balance_ok _ _ _ _ Hb Hv).
  apply init_spec.
Qed.

Lemma set_balance_check (u b v : Z) (rsn : reason) (now : Z) (w : world) :
  accounts w !! u = Some b → v < 0 →
  Account._set_balance u v rsn now w = (w, inl IntegrityError).
Proof.
  intros Hb Hv. unfold Account._set_balance.
  unfold bind at 1. rewrite (get_balance_some _ _ _ Hb).
  unfold bind at 1. by rewrite (update_balance_check _ _ _ _ Hb Hv).
Qed.

Lemma deposit_spec (u a b : Z) (rsn : reason) (now : Z) (w : world) :
  accounts w !! u = Some b → 0 ≤ a → 0 ≤ b + a →
  Account.deposit u a rsn now w
  = (recorded (tx_object u a rsn 0 now) now (set_accounts <[u := b + a]> w),
     inr (tx_object u a rsn 0 now)).
Proof.
  intros Hb Ha Hba. unfold Account.deposit.
  destruct (Z.ltb_spec a 0); [lia|].
  unfold bind at 1. rewrite (get_balance_some _ _ _ Hb).
  rewrite (set_balance_spec _ _ _ _ _ _ Hb Hba).
  by replace (b + a - b) with a by lia.
Qed.

Lemma withdraw_spec (u a b : Z) (rsn : reason) (now : Z) (w : world) :
  accounts w !! u = Some b → Z.abs a ≤ b →
  Account.withdraw u a rsn now w
  = (recorded (tx_object u (- Z.abs a) rsn 0 now) now
       (set_accounts <[u := b - Z.abs a]> w),
     inr (tx_object u (- Z.abs a) rsn 0 now)).
Proof.
  intros Hb Ha. unfold Account.withdraw.
  assert (Hamt : (if a <? 0 then Z.abs a else a) = Z.abs a)
    by (destruct (Z.ltb_spec a 0); lia).
  rewrite Hamt.
  unfold bind at 1. rewrite (get_balance_some _ _ _ Hb).
  rewrite (set_balance_spec u b (b - Z.abs a) rsn now w Hb) by lia.
  by replace (b - Z.abs a - b) with (- Z.abs a) by lia.
Qed.

Lemma expiration_pos : 0 < TRANSACTION_EXPIRATION_DELAY.
Proof. reflexivity. Qed.

Lemma fresh_stamp_retained (u a : Z) (rsn : reason) (now : Z) :
  now - TRANSACTION_EXPIRATION_DELAY ≤ Transaction.timestamp (tx_object u a rsn 0 now).
Proof. simpl. pose proof expiration_pos. lia. Qed.

Lemma has_id_app id l1 l2 :
  Store.has_id id (l1 ++ l2) = Store.has_id id l1 || Store.has_id id l2.
Proof. unfold Store.has_id. apply existsb_app. Qed.

Lemma retained_app now l1 l2 :
  retained now (l1 ++ l2) = retained now l1 && retained now l2.
Proof. unfold retained. apply forallb_app. Qed.

Lemma recorded_fresh (t : Transaction.t) (now : Z) (w : world) :
  retained now (transactions w) = true →
  now - TRANSACTION_EXPIRATION_DELAY ≤ Transaction.timestamp t →
  transactions (recorded t now w) = insert_or_ignore (tx_row_of t) (transactions w).
Proof.
  intros Hr Ht. rewrite recorded_transactions.
  destruct (sweep_due now w); [|done].
  apply sweep_retained. unfold insert_or_ignore.
  destruct (Store.has_id _ _); [done|].
  rewrite retained_app, Hr. simpl. rewrite andb_true_r.
  by apply Z.leb_le.
Qed.

(** C4 (amended): from a stored balance [b >= 0], [deposit(a)] followed by
    [withdraw(a)] with [a >= 0] succeeds and gives back the accounts table it
    started from; the deposit carries the delta [+a] and the withdrawal the
    delta [-a].  On a ledger without expired rows and without a row under the
    deposit's identifier, the pair appends exactly the two rows when the two
    operations fall in different integer seconds and the withdrawal's
    identifier is not stored either, and only the deposit's row when they fall
    in the same second. *)
Theorem deposit_then_withdraw (w : world) (u a b now1 now2 : Z) (rsn1 rsn2 : reason) :
  accounts w !! u = Some b → 0 ≤ b → 0 ≤ a →
  let t1 := tx_object u a rsn1 0 now1 in
  let t2 := tx_object u (- a) rsn2 0 now2 in
  ∃ w1 w2,
    Account.deposit u a rsn1 now1 w = (w1, inr t1) ∧
    Account.withdraw u a rsn2 now2 w1 = (w2, inr t2) ∧
    accounts w2 = accounts w ∧
    (retained now1 (transactions w) = true →
     retained now2 (transactions w) = true →
     Store.has_id (Transaction.id t1) (transactions w) = false →
     (Transaction.int_timestamp now1 ≠ Transaction.int_timestamp now2 →
      now2 - TRANSACTION_EXPIRATION_DELAY ≤ now1 →
      Store.has_id (Transaction.id t2) (transactions w) = false →
      transactions w2 = transactions w ++ [tx_row_of t1; tx_row_of t2]) ∧
     (Transaction.int_timestamp now1 = Transaction.int_timestamp now2 →
      transactions w2 = transactions w ++ [tx_row_of t1])).
Proof.
  intros Hb Hb0 Ha t1 t2.
  set (w1 := recorded t1 now1 (set_accounts <[u:=b + a]> w)).
  set (w2 := recorded t2 now2 (set_accounts <[u:=b]> w1)).
  exists w1, w2.
  assert (Habs : Z.abs a = a) by lia.
  split; [apply (deposit_spec u a b); [done|lia|lia]|].
  assert (Hb1 : accounts w1 !! u = Some (b + a)).
  { subst w1. rewrite recorded_accounts. simpl. apply lookup_insert_eq. }
  split.
  { rewrite (withdraw_spec u a (b + a) rsn2 now2 _ Hb1) by lia.
    rewrite Habs. replace (b + a - a) with b by lia. reflexivity. }
  split.
  { subst w2 w1. rewrite recorded_accounts. simpl. rewrite recorded_accounts. simpl.
    rewrite insert_insert_eq. by apply insert_id. }
  intros Hr1 Hr2 Hf1.
  assert (Htx1 : transactions w1 = transactions w ++ [tx_row_of t1]).
  { subst w1. rewrite recorded_fresh; [|done|apply fresh_stamp_retained].
    unfold insert_or_ignore. simpl. simpl in Hf1. by rewrite Hf1. }
  assert (Hret : ∀ x, now2 - TRANSACTION_EXPIRATION_DELAY ≤ now1 →
            retained now2 (transactions (set_accounts x w1)) = true).
  { intros x Hc. simpl. rewrite Htx1, retained_app, Hr2. simpl.
    rewrite andb_true_r. by apply Z.leb_le. }
  split.
  - intros Hsec Hclose Hf2. subst w2.
    rewrite recorded_fresh; [|by apply Hret|apply fresh_stamp_retained].
    simpl. rewrite Htx1. unfold insert_or_ignore. rewrite has_id_app.
    simpl. simpl in Hf2. rewrite Hf2. simpl.
    rewrite bool_decide_eq_false_2.
    + simpl. by rewrite <- app_assoc.
    + intros [=]. lia.
  - intros Hsec. subst w2.
    rewrite recorded_fresh;
      [|apply Hret; by apply same_second_close|apply fresh_stamp_retained].
    simpl. rewrite Htx1. unfold insert_or_ignore. rewrite has_id_app. simpl.
    rewrite bool_decide_eq_true_2.
    + by rewrite orb_true_r.
    + unfold Transaction.get_id. rewrite Hsec. f_equal. lia.
Qed.

(** ** Cancelling a transaction *)

Lemma set_transactions_same (f : list tx_row → list tx_row) (w : world) :
  f (transactions w) = transactions w → set_transactions f w = w.
Proof. intros H. destruct w. unfold set_transactions. simpl in *. by rewrite H. Qed.

Lemma set_last_cleanup_same (w : world) : set_last_cleanup (last_cleanup w) w = w.
Proof. by destruct w. Qed.

Lemma insert_or_ignore_present (r : tx_row) (rows : list tx_row) :
  r ∈ rows → insert_or_ignore r rows = rows.
Proof.
  intros Hin. unfold insert_or_ignore.
  replace (Store.has_id (row_id r) rows) with true; [done|].
  symmetry. apply has_id_true. by exists r.
Qed.

Lemma derived_ids_row (rows : list tx_row) (r : tx_row) :
  derived_ids rows = true → r ∈ rows →
  row_id r = Transaction.get_id (row_timestamp r) (row_user_id r) (row_amount r)
  ∧ row_timestamp r ≠ 0.
Proof.
  unfold derived_ids. rewrite forallb_forall. intros H Hin.
  apply list_elem_of_In in Hin. specialize (H r Hin).
  apply andb_true_iff in H as [H1 H2].
  apply bool_decide_eq_true in H1. apply negb_true_iff, Z.eqb_neq in H2. done.
Qed.

(** rebuilding the object of a stored row gives back the row *)
Lemma tx_row_of_stored (rows : list tx_row) (r : tx_row) (now : Z) :
  derived_ids rows = true → r ∈ rows →
  tx_row_of (tx_object (row_user_id r) (row_amount r) (row_reason r)
               (row_timestamp r) now) = r.
Proof.
  intros Hd Hin. destruct (derived_ids_row _ _ Hd Hin) as [Hid Hts].
  unfold tx_row_of, tx_object. simpl.
  destruct (Z.eqb_spec (row_timestamp r) 0); [done|].
  simpl. rewrite <- Hid. by destruct r.
Qed.

Lemma recorded_stored (r : tx_row) (now : Z) (w : world) :
  derived_ids (transactions w) = true →
  retained now (transactions w) = true →
  r ∈ transactions w →
  recorded (tx_object (row_user_id r) (row_amount r) (row_reason r)
              (row_timestamp r) now) now w
  = set_last_cleanup (if sweep_due now w then now else last_cleanup w) w.
Proof.
  intros Hd Hr Hin. unfold recorded.
  rewrite (tx_row_of_stored _ _ now Hd Hin).
  rewrite (set_transactions_same (insert_or_ignore r))
    by (by apply insert_or_ignore_present).
  destruct (sweep_due now w).
  - rewrite set_transactions_same; [done|]. by apply sweep_retained.
  - by rewrite set_last_cleanup_same.
Qed.

Lemma rebuild_rows_spec (owner now : Z) (rows : list tx_row) (w : world) :
  derived_ids (transactions w) = true →
  retained now (transactions w) = true →
  (∀ r, r ∈ rows → r ∈ transactions w ∧ row_user_id r = owner) →
  ∃ lc,
    map_M (λ row, Transaction.init owner (row_amount row) (row_reason row)
                    (row_timestamp row) now) rows w
    = (set_last_cleanup lc w,
       inr (map (λ row, tx_object owner (row_amount row) (row_reason row)
                          (row_timestamp row) now) rows)).
Proof.
  revert w. induction rows as [|r rows IH]; intros w Hd Hr Hrows.
  - exists (last_cleanup w). simpl. unfold ret. by rewrite set_last_cleanup_same.
  - destruct (Hrows r) as [Hin Hu]; [apply list_elem_of_here|].
    simpl. unfold bind at 1. rewrite init_spec.
    pose proof (recorded_stored r now w Hd Hr Hin) as Hrec.
    rewrite Hu in Hrec. rewrite Hrec.
    set (w1 := set_last_cleanup _ w).
    destruct (IH w1) as [lc Hlc]; [done|done| |].
    { intros r' Hr'. apply Hrows. by apply list_elem_of_further. }
    exists lc. unfold bind at 1. rewrite Hlc. unfold ret. simpl.
    done.
Qed.

Lemma elem_of_insert_desc (x r : tx_row) (l : list tx_row) :
  x ∈ Store.insert_desc r l ↔ x = r ∨ x ∈ l.
Proof.
  induction l as [|y l IH]; simpl.
  - rewrite list_elem_of_singleton. split; [by left|].
    intros [H|H]; [done | by apply elem_of_nil in H].
  - destruct (_ <? _).
    + rewrite !elem_of_cons, IH. tauto.
    + rewrite !elem_of_cons. tauto.
Qed.

Lemma elem_of_order_by (x : tx_row) (l : list tx_row) :
  x ∈ Store.order_by_timestamp_desc l ↔ x ∈ l.
Proof.
  unfold Store.order_by_timestamp_desc. induction l as [|y l IH]; simpl; [done|].
  rewrite elem_of_insert_desc, IH, elem_of_cons. tauto.
Qed.

Lemma get_transactions_spec (owner now : Z) (w : world) :
  derived_ids (transactions w) = true →
  retained now (transactions w) = true →
  ∃ lc,
    Account.get_transactions owner None now w
    = (set_last_cleanup lc w,
       inr (map (λ row, tx_object owner (row_amount row) (row_reason row)
                          (row_timestamp row) now)
              (Store.order_by_timestamp_desc
                 (filter (λ r, row_user_id r = owner) (transactions w))))).
Proof.
  intros Hd Hr. unfold Account.get_transactions, Store.transactions_select_user.
  unfold bind at 1. unfold bind at 1. unfold get at 1. unfold ret at 1.
  apply rebuild_rows_spec; [done|done|].
  intros r Hin. apply elem_of_order_by, list_elem_of_filter in Hin.
  destruct Hin as [Hu Hin]. by split.
Qed.

Lemma linked_spec (owner now : Z) (t : Transaction.t) (w : world) :
  derived_ids (transactions w) = true →
  existsb (Transaction.eqb t)
    (map (λ row, tx_object owner (row_amount row) (row_reason row)
                   (row_timestamp row) now)
       (Store.order_by_timestamp_desc
          (filter (λ r, row_user_id r = owner) (transactions w))))
  = linked owner t w.
Proof.
  intros Hd. apply eq_true_iff_eq. unfold linked.
  rewrite !existsb_exists. split.
  - intros (x & Hin & Hx). apply in_map_iff in Hin as (r & <- & Hin).
    apply list_elem_of_In, elem_of_order_by, list_elem_of_filter in Hin as [Hu Hin].
    exists r. split; [by apply list_elem_of_In|].
    apply bool_decide_eq_true in Hx.
    destruct (derived_ids_row _ _ Hd Hin) as [Hid Hts].
    rewrite bool_decide_eq_true_2 by done. simpl.
    apply bool_decide_eq_true. rewrite Hx, Hid, Hu. unfold tx_object. simpl.
    by destruct (Z.eqb_spec (row_timestamp r) 0).
  - intros (r & Hin & Hx). apply list_elem_of_In in Hin.
    apply andb_true_iff in Hx as [Hu Hx].
    apply bool_decide_eq_true in Hu. apply bool_decide_eq_true in Hx.
    destruct (derived_ids_row _ _ Hd Hin) as [Hid Hts].
    exists (tx_object owner (row_amount r) (row_reason r) (row_timestamp r) now).
    split.
    + apply in_map_iff. exists r. split; [done|].
      apply list_elem_of_In, elem_of_order_by, list_elem_of_filter. done.
    + apply bool_decide_eq_true. rewrite <- Hx, Hid, Hu. unfold tx_object. simpl.
      by destruct (Z.eqb_spec (row_timestamp r) 0).
Qed.

Lemma cancel_eq (w : world) (u b now : Z) (t : Transaction.t) :
  accounts w !! u = Some b →
  derived_ids (transactions w) = true →
  retained now (transactions w) = true →
  ∃ lc,
    let w1 := set_last_cleanup lc w in
    let reversal :=
      tx_object u (- Transaction.amount t) (R_cancel (Transaction.id t)) 0 now in
    Account.cancel u t now w
    = if linked u t w then
        if b <? Transaction.amount t then (w1, inl IntegrityError)
        else (recorded reversal now
                (set_accounts <[u := b - Transaction.amount t]> w1), inr reversal)
      else (w1, inl ValueError_not_linked).
Proof.
  intros Hb Hd Hr.
  destruct (get_transactions_spec u now w Hd Hr) as [lc Hget].
  exists lc. intros w1 reversal.
  assert (Hb1 : accounts w1 !! u = Some b) by done.
  unfold Account.cancel. unfold bind at 1. rewrite Hget.
  rewrite (linked_spec u now t w Hd).
  destruct (linked u t w); simpl; [|done].
  unfold bind at 1. fold w1. rewrite (get_balance_some _ _ _ Hb1).
  destruct (Z.ltb_spec b (Transaction.amount t)).
  - by rewrite (set_balance_check u b (b - Transaction.amount t) _ now w1 Hb1) by lia.
  - rewrite (set_balance_spec u b (b - Transaction.amount t) _ now w1 Hb1) by lia.
    by replace (b - Transaction.amount t - b) with (- Transaction.amount t) by lia.
Qed.

(** C5 (amended): on a ledger whose rows carry their derived identifiers and
    are inside the retention window, [cancel(t)] raises the validation error
    when no stored transaction of the account has the identifier of [t], and
    leaves balances and ledger as they were.  Otherwise, when the balance is at
    least the delta of [t], the balance becomes the balance minus that delta
    and one reversal of the opposite delta is recorded: the ledger grows by
    exactly one row when the reversal's identifier is not stored yet, and
    never shrinks.  When the balance is below the delta, the store refuses the
    write and nothing changes. *)
Theorem cancel_spec (w : world) (u b now : Z) (t : Transaction.t) :
  accounts w !! u = Some b →
  derived_ids (transactions w) = true →
  retained now (transactions w) = true →
  let reversal :=
    tx_object u (- Transaction.amount t) (R_cancel (Transaction.id t)) 0 now in
  let w' := fst (Account.cancel u t now w) in
  (linked u t w = false →
     snd (Account.cancel u t now w) = inl ValueError_not_linked ∧
     accounts w' = accounts w ∧ transactions w' = transactions w) ∧
  (linked u t w = true → Transaction.amount t ≤ b →
     snd (Account.cancel u t now w) = inr reversal ∧
     accounts w' = <[u := b - Transaction.amount t]> (accounts w) ∧
     transactions w' = insert_or_ignore (tx_row_of reversal) (transactions w) ∧
     (Store.has_id (Transaction.id reversal) (transactions w) = false →
      transactions w' = transactions w ++ [tx_row_of reversal] ∧
      length (transactions w') = S (length (transactions w)))) ∧
  (linked u t w = true → b < Transaction.amount t →
     snd (Account.cancel u t now w) = inl IntegrityError ∧
     accounts w' = accounts w ∧ transactions w' = transactions w).
Proof.
  intros Hb Hd Hr reversal w'.
  destruct (cancel_eq w u b now t Hb Hd Hr) as [lc Heq]. cbv zeta in Heq.
  fold reversal in Heq. subst w'. rewrite Heq. clear Heq.
  split; [|split].
  - intros ->. done.
  - intros -> Hamt. destruct (Z.ltb_spec b (Transaction.amount t)); [lia|].
    cbn [fst snd].
    split; [done|]. split; [by rewrite recorded_accounts|].
    assert (Htx : transactions (recorded reversal now
                    (set_accounts <[u:=b - Transaction.amount t]>
                       (set_last_cleanup lc w)))
                  = insert_or_ignore (tx_row_of reversal) (transactions w)).
    { rewrite recorded_fresh; [done|done|apply fresh_stamp_retained]. }
    split; [done|].
    intros Hf. rewrite Htx. unfold insert_or_ignore.
    change (row_id (tx_row_of reversal)) with (Transaction.id reversal).
    rewrite Hf. split; [done|]. rewrite length_app. simpl. lia.
  - intros -> Hamt. destruct (Z.ltb_spec b (Transaction.amount t)); [|lia].
    done.
Qed.

(** ** Invariants of the tables *)

(** the column constraint is an invariant of the two statements that write
    the accounts table *)
Lemma insert_or_ignore_checked (user d : Z) (w : world) :
  balances_checked w →
  balances_checked (fst (Store.accounts_insert_or_ignore user d w)).
Proof.
  intros Hbal u b. unfold Store.accounts_insert_or_ignore, modify. simpl.
  destruct (accounts w !! user) eqn:Hu; [by apply Hbal|].
  destruct (Z.leb_spec 0 d); [|by apply Hbal].
  destruct (decide (user = u)) as [<-|Hne].
  - rewrite lookup_insert_eq. intros [= <-]. done.
  - rewrite lookup_insert_ne by done. by apply Hbal.
Qed.

Lemma update_balance_checked (user v : Z) (w : world) :
  balances_checked w →
  balances_checked (fst (Store.accounts_update_balance user v w)).
Proof.
  intros Hbal u b. unfold Store.accounts_update_balance. munfold.
  destruct (accounts w !! user) eqn:Hu; [|by apply Hbal].
  destruct (Z.leb_spec 0 v); [|by apply Hbal]. simpl.
  destruct (decide (user = u)) as [<-|Hne].
  - rewrite lookup_insert_eq. intros [= <-]. done.
  - rewrite lookup_insert_ne by done. by apply Hbal.
Qed.

Lemma derived_ids_app (l1 l2 : list tx_row) :
  derived_ids (l1 ++ l2) = derived_ids l1 && derived_ids l2.
Proof. unfold derived_ids. apply forallb_app. Qed.

Lemma derived_ids_sweep (now : Z) (rows : list tx_row) :
  derived_ids rows = true → derived_ids (sweep now rows) = true.
Proof.
  unfold derived_ids, sweep. rewrite !forallb_forall. intros H r Hr.
  apply H. apply list_elem_of_In. apply list_elem_of_In in Hr.
  by apply list_elem_of_filter in Hr as [_ Hr].
Qed.

(** every row that a transaction writes carries its derived identifier: an
    invariant of recording, at any clock reading other than the epoch *)
Lemma init_derived_ids (u a : Z) (rsn : reason) (ts now : Z) (w : world) :
  now ≠ 0 →
  derived_ids (transactions w) = true →
  derived_ids (transactions (fst (Transaction.init u a rsn ts now w))) = true.
Proof.
  intros Hnow Hd. rewrite init_spec. cbn [fst]. rewrite recorded_transactions.
  assert (Hins : derived_ids
                   (insert_or_ignore (tx_row_of (tx_object u a rsn ts now))
                      (transactions w)) = true).
  { unfold insert_or_ignore. destruct (Store.has_id _ _); [done|].
    rewrite derived_ids_app, Hd. unfold derived_ids, tx_object. simpl.
    rewrite bool_decide_eq_true_2 by done. simpl.
    destruct (Z.eqb_spec ts 0) as [->|Hts].
    - by destruct (Z.eqb_spec now 0).
    - by destruct (Z.eqb_spec ts 0). }
  destruct (sweep_due now w); [by apply derived_ids_sweep | done].
Qed.

(** ** The ledger statements on concrete worlds *)

Lemma set_deposit_reject_negative_witness :
  Account.set 1 (-5) (R_text "fix") Examples.now0 Examples.w_alice
  = (Examples.w_alice, inl ValueError_negative_balance) ∧
  Account.deposit 1 (-5) (R_text "fix") Examples.now0 Examples.w_alice
  = (Examples.w_alice, inl ValueError_negative_amount).
Proof. apply set_deposit_reject_negative. lia. Defined.

Lemma withdraw_underfunded_witness :
  Store.accounts_update_balance 1 (50 - Z.abs (-80)) Examples.w_alice
  = (Examples.w_alice, inl IntegrityError) ∧
  Account.withdraw 1 (-80) (R_text "rent") Examples.now0 Examples.w_alice
  = (Examples.w_alice, inl IntegrityError).
Proof. apply (withdraw_underfunded 1 (-80) 50); [reflexivity | lia]. Defined.



(** the deposit of 5 is stored; the withdrawal of 5 created 899 microseconds
    later gets its identifier and is not recorded *)
Lemma id_collision_ignored_witness :
  Transaction.id Examples.withdraw_5 = row_id Examples.deposit_5_row ∧
  Examples.deposit_5_row
  ∈ transactions (fst (Transaction.init 1 (-5) (R_text "out") 0
                         (Examples.now0 + 900) Examples.w_ledger)) ∧
  (length (transactions (fst (Transaction.init 1 (-5) (R_text "out") 0
                                (Examples.now0 + 900) Examples.w_ledger)))
   ≤ length (transactions Examples.w_ledger))%nat.
Proof.
  pose proof (id_collision_ignored Examples.w_ledger 1 (-5) (Examples.now0 + 900)
                (R_text "out") Examples.deposit_5_row) as H.
  destruct H as (H1 & _ & _ & H3 & _ & H5 & _).
  - apply list_elem_of_here.
  - reflexivity.
  - reflexivity.
  - reflexivity.
  - reflexivity.
  - split; [exact H1|]. split; [exact H3 | exact H5].
Defined.

Lemma deposit_then_withdraw_witness :
  ∃ w1 w2,
    Account.deposit 1 5 (R_text "in") Examples.now0 Examples.w_alice
    = (w1, inr (tx_object 1 5 (R_text "in") 0 Examples.now0)) ∧
    Account.withdraw 1 5 (R_text "out") (Examples.now0 + seconds 2) w1
    = (w2, inr (tx_object 1 (-5) (R_text "out") 0 (Examples.now0 + seconds 2))) ∧
    accounts w2 = accounts Examples.w_alice ∧
    transactions w2
    = [tx_row_of (tx_object 1 5 (R_text "in") 0 Examples.now0);
       tx_row_of (tx_object 1 (-5) (R_text "out") 0 (Examples.now0 + seconds 2))].
Proof.
  destruct (deposit_then_withdraw Examples.w_alice 1 5 50 Examples.now0
              (Examples.now0 + seconds 2) (R_text "in") (R_text "out"))
    as (w1 & w2 & H1 & H2 & H3 & H4); [reflexivity | lia | lia |].
  exists w1, w2. split; [exact H1|]. split; [exact H2|]. split; [exact H3|].
  destruct H4 as [H4 _]; [reflexivity | reflexivity | reflexivity |].
  apply H4; [by vm_compute | by vm_compute | reflexivity].
Defined.

(** C4 as stated fails: a deposit and a withdrawal of the same amount in the
    same integer second share one identifier, and the ledger gets one row. *)
Lemma deposit_withdraw_same_second :
  let t1 := tx_object 1 5 (R_text "in") 0 Examples.now0 in
  let t2 := tx_object 1 (-5) (R_text "out") 0 (Examples.now0 + 1) in
  let r1 := Account.deposit 1 5 (R_text "in") Examples.now0 Examples.w_alice in
  let r2 := Account.withdraw 1 5 (R_text "out") (Examples.now0 + 1) (fst r1) in
  snd r1 = inr t1 ∧ snd r2 = inr t2 ∧
  accounts (fst r2) !! 1 = Some 50 ∧
  transactions Examples.w_alice = [] ∧
  transactions (fst r2) = [tx_row_of t1].
Proof. vm_compute. repeat split. Qed.

Lemma cancel_spec_witness :
  snd (Account.cancel 1 Examples.deposit_5 (Examples.now0 + seconds 60) Examples.w_ledger)
  = inr (tx_object 1 (-5) (R_cancel (Transaction.id Examples.deposit_5)) 0
           (Examples.now0 + seconds 60)) ∧
  accounts (fst (Account.cancel 1 Examples.deposit_5 (Examples.now0 + seconds 60)
                   Examples.w_ledger))
  = <[1 := 50 - 5]> (accounts Examples.w_ledger) ∧
  length (transactions (fst (Account.cancel 1 Examples.deposit_5
                               (Examples.now0 + seconds 60) Examples.w_ledger)))
  = 2%nat.
Proof.
  destruct (cancel_spec Examples.w_ledger 1 50 (Examples.now0 + seconds 60)
              Examples.deposit_5) as (_ & H & _);
    [reflexivity | reflexivity | reflexivity |].
  destruct H as (H1 & H2 & _ & H4); [reflexivity | by vm_compute |].
  split; [exact H1|]. split; [exact H2|].
  destruct H4 as [_ H4]; [reflexivity | exact H4].
Defined.

(** C5 as stated fails: the transaction belongs to the account, but the
    balance has dropped below its delta since; the store refuses the reversal
    and no transaction is added. *)
Lemma cancel_underfunded :
  linked 1 Examples.deposit_5 Examples.w_spent = true ∧
  snd (Account.cancel 1 Examples.deposit_5 (Examples.now0 + seconds 60) Examples.w_spent)
  = inl IntegrityError ∧
  length (transactions (fst (Account.cancel 1 Examples.deposit_5
                               (Examples.now0 + seconds 60) Examples.w_spent)))
  = length (transactions Examples.w_spent).
Proof. vm_compute. repeat split. Qed.

(** ** The daily stipend *)

Lemma get_guild_config_eq (w : world) :
  Economy.get_guild_config w = (w, inr (effective_config w)).
Proof. reflexivity. Qed.

Lemma config_int_lookup (key : string) (n : Z) (w : world) :
  effective_config w !! key = Some (CfgInt n) →
  Economy.config_int key w = (w, inr n).
Proof.
  intros H. unfold Economy.config_int. unfold bind at 1.
  rewrite get_guild_config_eq. by rewrite H.
Qed.

Lemma config_text_lookup (key : string) (v : cfg_value) (w : world) :
  effective_config w !! key = Some v →
  Economy.config_text key w = (w, inr v).
Proof.
  intros H. unfold Economy.config_text. unfold bind at 1.
  rewrite get_guild_config_eq. by rewrite H.
Qed.

Lemma get_account_present (user b d : Z) (w : world) :
  accounts w !! user = Some b →
  effective_config w !! "DefaultBalance" = Some (CfgInt d) →
  get_account user w = (w, inr user).
Proof.
  intros Hb Hd. unfold get_account, Account.init, Account.create_if_not_exists.
  unfold bind at 1. unfold bind at 1. rewrite (config_int_lookup _ _ _ Hd).
  unfold Store.accounts_insert_or_ignore, modify, ret, set_accounts. simpl.
  rewrite Hb. by destruct w.
Qed.

(** C6 (amended): when the stipend, reduced for the user's balance, rounds to
    zero or less, the claim is refused, the balances and the ledger are what
    they were, and the last-claim condition keeps its value (or is created
    with the default, the empty text): it is not set to today.  The refusal is
    the "amount too small" one exactly when the user has not claimed today and
    the balance is below the cap; a user who has claimed today gets the
    "already claimed" refusal, and a balance at or above the cap gets the
    refusal of the cap. *)
Theorem daily_refused_when_rounded_to_zero
    (w : world) (user b d D L amt : Z) (today : string) (now : Z) :
  accounts w !! user = Some b →
  effective_config w !! "DefaultBalance" = Some (CfgInt d) →
  effective_config w !! "DailyAmount" = Some (CfgInt D) →
  effective_config w !! "DailyLimit" = Some (CfgInt L) →
  is_Some (effective_config w !! "Currency") →
  0 < D → 0 < L →
  Daily.amount D L b = inr amt →
  amt ≤ 0 →
  let key := ("LastDaily", user) in
  let w' := fst (Daily._bank_daily user today now w) in
  snd (Daily._bank_daily user today now w)
  = inr (if bool_decide (default "" (conditions w !! key) = today)
         then Daily.Already_claimed
         else if L <=? b then Daily.Limit_reached else Daily.Too_small) ∧
  accounts w' = accounts w ∧
  transactions w' = transactions w ∧
  conditions w' = match conditions w !! key with
                  | Some _ => conditions w
                  | None => <[key := ""]> (conditions w)
                  end.
Proof.
  intros Hb Hd HD HL [cur Hcur] HDpos HLpos Hamt Hle key w'.
  subst w'. remember (Daily._bank_daily user today now w) as res eqn:Hres.
  unfold Daily._bank_daily in Hres.
  unfold bind at 1 in Hres. rewrite (get_account_present _ _ _ _ Hb Hd) in Hres.
  unfold bind at 1 in Hres. rewrite get_guild_config_eq in Hres.
  rewrite HD, HL, Hcur in Hres.
  unfold bind at 1 in Hres. unfold ret at 1 in Hres.
  unfold bind at 1 in Hres. unfold ret at 1 in Hres.
  destruct (Z.leb_spec D 0); [lia|]. destruct (Z.leb_spec L 0); [lia|].
  cbn [orb] in Hres.
  unfold Daily.amount in Hamt.
  destruct (Daily.ignore_part L) as [e|ig] eqn:Hig; [done|]. cbn [ebind] in Hamt.
  unfold bind at 1 in Hres. unfold lift_exn at 1 in Hres.
  unfold bind at 1 in Hres. rewrite (get_balance_some _ _ _ Hb) in Hres.
  destruct (Float.int_gt b ig); [|injection Hamt as <-; lia].
  unfold bind at 1 in Hres. unfold bind at 1 in Hres.
  rewrite (get_balance_some _ _ _ Hb) in Hres.
  unfold lift_exn at 1 in Hres. rewrite Hamt in Hres.
  unfold bind at 1 in Hres. unfold Condition.init in Hres.
  unfold bind at 1 in Hres. unfold get at 1 in Hres.
  fold key in Hres.
  destruct (conditions w !! key) as [v|] eqn:Hc.
  - unfold ret at 1 in Hres. unfold Condition.check in Hres.
    cbn [Condition.value] in Hres. change (default "" (Some v)) with v.
    destruct (bool_decide (v = today)); [by subst res|].
    unfold bind at 1 in Hres. rewrite (get_balance_some _ _ _ Hb) in Hres.
    destruct (L <=? b); [by subst res|].
    destruct (Z.leb_spec amt 0); [by subst res | lia].
  - unfold bind at 1 in Hres. unfold modify at 1 in Hres. unfold ret at 1 in Hres.
    unfold Condition.check in Hres. cbn [Condition.value] in Hres.
    change (default "" None) with "".
    set (w1 := set_conditions _ w) in Hres.
    assert (Hb1 : accounts w1 !! user = Some b) by done.
    assert (Hc1 : conditions w1 = <[key := ""]> (conditions w)).
    { subst w1. unfold set_conditions. simpl. fold key. by rewrite Hc. }
    destruct (bool_decide ("" = today)); [by subst res|].
    unfold bind at 1 in Hres. rewrite (get_balance_some _ _ _ Hb1) in Hres.
    destruct (L <=? b); [by subst res|].
    destruct (Z.leb_spec amt 0); [by subst res | lia].
Qed.

(** ** The payout formula on floats *)

(** the literal [0.1] is the binary64 number nearest to 1/10 *)
Lemma one_tenth_nearest : Float.nearest 1 10 = Some Float.one_tenth.
Proof. by vm_compute. Qed.

Lemma scale_nonpos (x e : Z) : e ≤ 0 → Float.scale x e = x.
Proof. intros H. unfold Float.scale. rewrite Z.max_r by lia. simpl. lia. Qed.

Lemma scale_pos (x e : Z) : 0 ≤ e → Float.scale x e = x * 2 ^ e.
Proof. intros H. unfold Float.scale. by rewrite Z.max_l by lia. Qed.

Lemma half_even_exact (q d : Z) : 0 < d → Float.half_even (q * d) d = q.
Proof.
  intros Hd. unfold Float.half_even.
  rewrite Z.div_mul, Z.mod_mul by lia.
  destruct (Z.ltb_spec (2 * 0) d); [done | lia].
Qed.

(** the exponent chosen for a quotient below [2^53] is not positive *)
Lemma exponent_nonpos (a T : Z) :
  0 < a → 0 < T < 2 ^ 53 →
  (if Float.scale (2 ^ 52 * a) (Z.log2 (a * T) - Z.log2 a - 52)
      <=? Float.scale (a * T) (- (Z.log2 (a * T) - Z.log2 a - 52))
   then Z.log2 (a * T) - Z.log2 a - 52
   else Z.log2 (a * T) - Z.log2 a - 52 - 1) ≤ 0.
Proof.
  intros Ha HT.
  set (e0 := Z.log2 (a * T) - Z.log2 a - 52).
  destruct (Z.leb_spec (Float.scale (2 ^ 52 * a) e0) (Float.scale (a * T) (- e0)))
    as [Hle|Hgt].
  - destruct (Z.le_gt_cases e0 0) as [|Hpos]; [done|]. exfalso.
    rewrite scale_pos in Hle by lia. rewrite scale_nonpos in Hle by lia.
    assert (H2 : 2 ^ 1 ≤ 2 ^ e0) by (apply Z.pow_le_mono_r; lia).
    assert (H53 : 2 ^ 53 = 2 ^ 52 * 2 ^ 1) by reflexivity.
    assert (Hlt : a * T < a * 2 ^ 53) by nia.
    nia.
  - assert (Hlog : Z.log2 (a * T) ≤ Z.log2 a + Z.log2 T + 1)
      by (apply Z.log2_mul_above; lia).
    assert (HlT : Z.log2 T < 53) by (apply Z.log2_lt_pow2; lia).
    subst e0. lia.
Qed.

Lemma nearest_pos_exact (a T : Z) :
  0 < a → 0 < T < 2 ^ 53 →
  ∃ e, e ≤ 0 ∧ Float.nearest_pos (a * T) a = Some (Float.mk (T * 2 ^ (- e)) e).
Proof.
  intros Ha HT. unfold Float.nearest_pos.
  pose proof (exponent_nonpos a T Ha HT) as He1.
  set (e1 := if _ <=? _ then _ else _) in *.
  set (e := Z.max e1 (-1074)).
  assert (He : e ≤ 0) by lia.
  exists e. split; [done|].
  rewrite (scale_pos (a * T) (- e)) by lia.
  rewrite (scale_nonpos a e) by lia.
  replace (a * T * 2 ^ (- e)) with (T * 2 ^ (- e) * a) by lia.
  rewrite half_even_exact by lia.
  destruct (Z.ltb_spec 971 e); [lia|].
  destruct (Z.eqb_spec e 971); [lia|]. done.
Qed.

Lemma to_int_exact (T e : Z) :
  e ≤ 0 → Float.to_int (Float.mk (T * 2 ^ (- e)) e) = T.
Proof.
  intros He. unfold Float.to_int, Float.num, Float.den. simpl.
  rewrite scale_nonpos by lia. rewrite scale_pos by lia.
  rewrite Z.mul_1_l. apply Z.quot_mul.
  apply Z.pow_nonzero; lia.
Qed.

Lemma gain_total_pot (stake total : Z) :
  stake ≠ 0 → 0 < total < 2 ^ 53 → Gambling.gain stake total = inr total.
Proof.
  intros Hs HT. unfold Gambling.gain, Float.true_divide.
  destruct (Z.eqb_spec stake 0); [done|].
  unfold Float.nearest.
  assert (Hn : (if stake <? 0 then - (stake * total) else stake * total)
               = Z.abs stake * total).
  { destruct (Z.ltb_spec stake 0); lia. }
  rewrite Hn.
  destruct (Z.eqb_spec (Z.abs stake * total) 0); [nia|].
  destruct (Z.ltb_spec (Z.abs stake * total) 0); [nia|].
  destruct (nearest_pos_exact (Z.abs stake) total) as (e & He & Hnear); [lia|done|].
  rewrite Hnear. simpl. by rewrite to_int_exact.
Qed.

Lemma gain_rounds_large_pot :
  Gambling.gain (2 ^ 53) (2 ^ 53 + 1) = inr (2 ^ 53).
Proof. by vm_compute. Qed.

(** ** Loops that credit the members of a list of bets *)

Lemma refund_all_credit (bets : list bet_row) (title : string) (now : Z) :
  Gambling.refund_all bets title now
  = for_each bets (credit_body bet_amount (R_refund title) now).
Proof. reflexivity. Qed.

Lemma for_each_ext {A} (l : list A) (f g : A → M unit) (w : world) :
  (∀ x w, x ∈ l → f x w = g x w) → for_each l f w = for_each l g w.
Proof.
  revert w. induction l as [|x l IH]; intros w H; [done|].
  simpl. unfold bind. rewrite (H x w) by apply list_elem_of_here.
  destruct (g x w) as [w1 [e|[]]]; [done|].
  apply IH. intros y w2 Hy. apply H. by apply list_elem_of_further.
Qed.

Lemma recorded_members t now w : members (recorded t now w) = members w.
Proof. unfold recorded. by destruct (sweep_due now w). Qed.
Lemma recorded_config t now w : config (recorded t now w) = config w.
Proof. unfold recorded. by destruct (sweep_due now w). Qed.
Lemma recorded_bettings t now w : bettings (recorded t now w) = bettings w.
Proof. unfold recorded. by destruct (sweep_due now w). Qed.
Lemma recorded_bets t now w : bets (recorded t now w) = bets w.
Proof. unfold recorded. by destruct (sweep_due now w). Qed.

Lemma effective_config_same (w w' : world) :
  config w' = config w → effective_config w' = effective_config w.
Proof. intros H. unfold effective_config. by rewrite H. Qed.

(** what recording a transaction leaves alone *)
Create Rewrite HintDb frame.
#[global] Hint Rewrite recorded_accounts recorded_members recorded_config
  recorded_bettings recorded_bets : frame.

Section credit_loop.

(** the amount credited for a row, the reason and the clock reading of the
    deposits, and the configured default balance *)
Variables (amt : bet_row → Z) (rsn : reason) (now d : Z).

Lemma credit_body_member (x : bet_row) (b : Z) (w : world) :
  bet_user_id x ∈ members w →
  accounts w !! bet_user_id x = Some b →
  0 ≤ b → 0 ≤ amt x →
  effective_config w !! "DefaultBalance" = Some (CfgInt d) →
  credit_body amt rsn now x w
  = (recorded (tx_object (bet_user_id x) (amt x) rsn 0 now) now
       (set_accounts <[bet_user_id x := b + amt x]> w), inr tt).
Proof.
  intros Hm Hb Hb0 Ha Hd. unfold credit_body.
  unfold bind at 1. unfold get at 1.
  rewrite bool_decide_eq_true_2 by done.
  unfold bind at 1. rewrite (get_account_present _ _ _ _ Hb Hd).
  unfold bind at 1. rewrite (deposit_spec _ _ _ _ _ _ Hb) by lia.
  done.
Qed.

Lemma credit_body_absent (x : bet_row) (w : world) :
  bet_user_id x ∉ members w → credit_body amt rsn now x w = (w, inr tt).
Proof.
  intros Hm. unfold credit_body. unfold bind at 1. unfold get at 1.
  by rewrite bool_decide_eq_false_2.
Qed.

Lemma credit_of_cons (u : Z) (x : bet_row) (l : list bet_row) :
  credit_of amt u (x :: l)
  = (if bool_decide (bet_user_id x = u) then amt x else 0) + credit_of amt u l.
Proof.
  unfold credit_of. destruct (decide (bet_user_id x = u)) as [E|E].
  - rewrite filter_cons_True by done. by rewrite bool_decide_eq_true_2.
  - rewrite filter_cons_False by done. by rewrite bool_decide_eq_false_2.
Qed.

Lemma credit_loop_spec (l : list bet_row) (w : world) :
  balances_checked w →
  effective_config w !! "DefaultBalance" = Some (CfgInt d) →
  (∀ x, x ∈ l → bet_user_id x ∈ members w →
        is_Some (accounts w !! bet_user_id x) ∧ 0 ≤ amt x) →
  ∃ w',
    for_each l (credit_body amt rsn now) w = (w', inr tt) ∧
    members w' = members w ∧ config w' = config w ∧
    bettings w' = bettings w ∧ bets w' = bets w ∧
    ∀ u, accounts w' !! u
         = (λ b, b + (if bool_decide (u ∈ members w) then credit_of amt u l else 0))
             <$> accounts w !! u.
Proof.
  revert w. induction l as [|x l IH]; intros w Hbal Hd Hl.
  - exists w. repeat split; try done. intros u.
    unfold credit_of. simpl.
    destruct (accounts w !! u) as [b|]; simpl; [|done].
    f_equal. destruct (bool_decide _); lia.
  - simpl. unfold bind at 1.
    destruct (decide (bet_user_id x ∈ members w)) as [Hm|Hm].
    + destruct (Hl x) as [[b Hb] Ha]; [apply list_elem_of_here | done |].
      rewrite (credit_body_member x b w Hm Hb (Hbal _ _ Hb) Ha Hd).
      set (w1 := recorded _ now _).
      assert (Hacc1 : accounts w1 = <[bet_user_id x := b + amt x]> (accounts w)).
      { subst w1. by autorewrite with frame. }
      destruct (IH w1) as (w' & Hrun & Hmem & Hcfg & Hbg & Hbs & Hacc).
      { intros u bu. rewrite Hacc1. intros Hu.
        destruct (decide (bet_user_id x = u)) as [<-|Hne].
        - rewrite lookup_insert_eq in Hu. injection Hu as <-.
          pose proof (Hbal _ _ Hb). lia.
        - rewrite lookup_insert_ne in Hu by done. by eapply Hbal. }
      { rewrite (effective_config_same w w1); [done|].
        subst w1. by autorewrite with frame. }
      { intros y Hy Hmy. rewrite Hacc1.
        assert (Hmy' : bet_user_id y ∈ members w).
        { subst w1. by autorewrite with frame in Hmy. }
        destruct (Hl y) as [Hsome Hay]; [by apply list_elem_of_further | done |].
        split; [|done].
        destruct (decide (bet_user_id x = bet_user_id y)) as [E|E].
        - rewrite E, lookup_insert_eq. by eexists.
        - by rewrite lookup_insert_ne. }
      exists w'. split; [done|].
      assert (Hm1 : members w1 = members w)
        by (subst w1; by autorewrite with frame).
      split; [by rewrite Hmem|].
      split; [rewrite Hcfg; subst w1; by autorewrite with frame|].
      split; [rewrite Hbg; subst w1; by autorewrite with frame|].
      split; [rewrite Hbs; subst w1; by autorewrite with frame|].
      intros u. rewrite Hacc, Hacc1, Hm1, credit_of_cons.
      destruct (decide (bet_user_id x = u)) as [<-|Hne].
      * rewrite lookup_insert_eq, Hb. simpl.
        rewrite !bool_decide_eq_true_2 by done. f_equal. lia.
      * rewrite lookup_insert_ne by done.
        rewrite (bool_decide_eq_false_2 (bet_user_id x = u)) by done.
        destruct (accounts w !! u); simpl; [|done]. f_equal.
    + rewrite (credit_body_absent x w Hm).
      destruct (IH w) as (w' & Hrun & Hmem & Hcfg & Hbg & Hbs & Hacc);
        [done | done | |].
      { intros y Hy Hmy. apply Hl; [by apply list_elem_of_further | done]. }
      exists w'. split; [done|]. repeat (split; [done|]).
      intros u. rewrite Hacc, credit_of_cons.
      destruct (decide (bet_user_id x = u)) as [<-|Hne].
      * rewrite (bool_decide_eq_false_2 (bet_user_id x ∈ members w)) by done.
        done.
      * by rewrite (bool_decide_eq_false_2 (bet_user_id x = u)) by done.
Qed.

End credit_loop.

(** ** The gambling cog *)

Lemma get_betting_eq (channel : Z) (w : world) :
  Gambling.get_betting channel w = (w, inr (bettings w !! channel)).
Proof. reflexivity. Qed.

Lemma get_bets_eq (channel : Z) (w : world) :
  Gambling.get_bets channel w = (w, inr (bets_of channel w)).
Proof. reflexivity. Qed.

Lemma filter_filter_not {A} (P : A → Prop) `{∀ x, Decision (P x)} (l : list A) :
  filter P (filter (λ x, ¬ P x) l) = [].
Proof.
  induction l as [|x l IH]; [done|].
  destruct (decide (P x)).
  - by rewrite (filter_cons_False (λ x, ¬ P x)) by tauto.
  - rewrite (filter_cons_True (λ x, ¬ P x)) by done.
    by rewrite filter_cons_False by done.
Qed.

(** C2 (amended): a confirmed cancellation of a session that has at least one
    bet, asked by a moderator or by the author of the session, with stakes
    that are not negative, deposits to every bettor who is still a member of
    the guild the stakes of their own rows and nothing to anybody else; it
    then deletes the session row and every bet row of the channel, so that
    [get_betting] on the channel returns [None]. *)
Theorem cancel_gamble_refunds (w : world) (channel user : Z) (manage_messages : bool)
    (now d : Z) (betting : betting_row) :
  bettings w !! channel = Some betting →
  manage_messages = true
  ∨ (bg_author_id betting ∈ members w ∧ user = bg_author_id betting) →
  bets_of channel w ≠ [] →
  balances_checked w →
  effective_config w !! "DefaultBalance" = Some (CfgInt d) →
  (∀ x, x ∈ bets_of channel w → bet_user_id x ∈ members w →
        is_Some (accounts w !! bet_user_id x) ∧ 0 ≤ bet_amount x) →
  ∃ w',
    Gambling._cancel_gamble channel user manage_messages (Some true) now w
    = (w', inr Gambling.Cancel_done) ∧
    (∀ u, accounts w' !! u
          = (λ b, b + (if bool_decide (u ∈ members w)
                       then stakes_of u (bets_of channel w) else 0))
              <$> accounts w !! u) ∧
    bettings w' !! channel = None ∧
    bets_of channel w' = [] ∧
    Gambling.get_betting channel w' = (w', inr None).
Proof.
  intros Hbg Hauth Hne Hbal Hd Hbets.
  destruct (credit_loop_spec bet_amount (R_refund (bg_title betting)) now d
              (bets_of channel w) w Hbal Hd Hbets)
    as (w1 & Hrun & Hmem & Hcfg & Hbg1 & Hbs1 & Hacc).
  set (w' := set_bets (filter (λ b, bet_channel_id b ≠ channel))
               (set_bettings (delete channel) w1)).
  exists w'.
  assert (Hbg' : bettings w' !! channel = None).
  { subst w'. simpl. apply lookup_delete_eq. }
  split.
  { unfold Gambling._cancel_gamble. unfold bind at 1. rewrite get_betting_eq, Hbg.
    unfold bind at 1. unfold get at 1.
    assert (Hchk : negb manage_messages
                   && (negb (bool_decide (bg_author_id betting ∈ members w))
                       || negb (bool_decide (user = bg_author_id betting))) = false).
    { destruct Hauth as [-> | [Ha Hu]]; [done|].
      rewrite !bool_decide_eq_true_2 by done. simpl. apply andb_false_r. }
    rewrite Hchk.
    unfold bind at 1. rewrite get_bets_eq.
    destruct (bets_of channel w) as [|x l] eqn:Hl; [done|].
    unfold bind at 1. rewrite refund_all_credit, Hrun.
    reflexivity. }
  split; [exact Hacc|].
  split; [exact Hbg'|].
  split.
  { subst w'. unfold bets_of. simpl. apply filter_filter_not. }
  by rewrite get_betting_eq, Hbg'.
Qed.

Lemma elem_of_insert_by_amount (x b : bet_row) (l : list bet_row) :
  x ∈ Gambling.insert_by_amount b l ↔ x = b ∨ x ∈ l.
Proof.
  induction l as [|y l IH]; simpl.
  - rewrite list_elem_of_singleton. split; [by left|].
    intros [H|H]; [done | by apply elem_of_nil in H].
  - destruct (_ <? _).
    + rewrite !elem_of_cons, IH. tauto.
    + rewrite !elem_of_cons. tauto.
Qed.

Lemma elem_of_sorted_by_amount (x : bet_row) (l : list bet_row) :
  x ∈ Gambling.sorted_by_amount_desc l ↔ x ∈ l.
Proof.
  unfold Gambling.sorted_by_amount_desc. induction l as [|y l IH]; simpl; [done|].
  rewrite elem_of_insert_by_amount, IH, elem_of_cons. tauto.
Qed.

Lemma credit_of_insert (amt : bet_row → Z) (u : Z) (b : bet_row) (l : list bet_row) :
  credit_of amt u (Gambling.insert_by_amount b l) = credit_of amt u (b :: l).
Proof.
  induction l as [|y l IH]; simpl; [done|].
  destruct (_ <? _); [|done].
  rewrite credit_of_cons, IH, !credit_of_cons. lia.
Qed.

Lemma credit_of_sorted (amt : bet_row → Z) (u : Z) (l : list bet_row) :
  credit_of amt u (Gambling.sorted_by_amount_desc l) = credit_of amt u l.
Proof.
  unfold Gambling.sorted_by_amount_desc. induction l as [|y l IH]; simpl; [done|].
  by rewrite credit_of_insert, !credit_of_cons, IH.
Qed.

Lemma credit_of_const (T u : Z) (l : list bet_row) :
  credit_of (λ _, T) u l
  = T * Z.of_nat (length (filter (λ b, bet_user_id b = u) l)).
Proof.
  unfold credit_of. induction (filter _ l) as [|y l' IH]; simpl; [lia|].
  rewrite IH. lia.
Qed.

Lemma split_cons (sep : ascii) (s : list ascii) :
  ∃ x xs, Str.split sep s = x :: xs.
Proof.
  induction s as [|c s IH]; simpl; [by eexists _, _|].
  destruct (Ascii.eqb c sep); [by eexists _, _|].
  destruct IH as (x & xs & ->). by eexists _, _.
Qed.

(** building the embed of a session that has bets raises *)
Lemma get_betting_embed_raises (w : world) (channel : Z) (data : betting_row) :
  bettings w !! channel = Some data →
  bets_of channel w ≠ [] →
  ∃ e, Gambling.get_betting_embed channel w = (w, inl e).
Proof.
  intros Hdata Hbets. unfold Gambling.get_betting_embed.
  unfold bind at 1. rewrite get_betting_eq, Hdata.
  unfold bind at 1. unfold Economy.config_text. unfold bind at 1.
  rewrite get_guild_config_eq.
  destruct (effective_config w !! "Currency") as [cur|]; [|by eexists].
  unfold ret at 1. unfold bind at 1. rewrite get_bets_eq.
  destruct (bets_of channel w) as [|b l]; [done|].
  destruct (split_cons "," (Str.chars (bg_choices data))) as (c0 & cs & ->).
  simpl. unfold bind at 1. unfold bind at 1.
  destruct (_ =? 0).
  - unfold ret at 1. unfold bind at 1. unfold lift_exn. simpl. by eexists.
  - unfold bind at 1. unfold lift_exn at 1.
    destruct (Float.true_divide _ _); [by eexists|].
    unfold ret at 1. unfold bind at 1. unfold lift_exn. simpl. by eexists.
Qed.

(** [handle_winners] never reaches the payout loop: once a valid result is
    given for a session with stakes, the embed is built first, and that
    raises *)
Lemma handle_winners_raises (w : world) (channel : Z) (result : string) (now : Z)
    (data : betting_row) :
  bettings w !! channel = Some data →
  bets_of channel w ≠ [] →
  channel ∈ text_channels w →
  Str.lower (Str.chars result) ∈ Str.split "," (Str.chars (bg_choices data)) →
  Gambling.total_stakes (bets_of channel w) ≠ 0 →
  ∃ e, Gambling.handle_winners channel result now w = (w, inl e).
Proof.
  intros Hdata Hbets Hch Hres Htot.
  destruct (get_betting_embed_raises w channel data Hdata Hbets) as [e He].
  exists e. unfold Gambling.handle_winners.
  unfold bind at 1. rewrite get_betting_eq, Hdata.
  unfold bind at 1. rewrite get_bets_eq.
  destruct (bets_of channel w) as [|b l] eqn:Hl; [done|].
  unfold bind at 1. unfold get at 1.
  rewrite !bool_decide_eq_true_2 by done. cbn [negb].
  destruct (Z.eqb_spec (Gambling.total_stakes (b :: l)) 0); [done|].
  destruct (filter _ (b :: l)); unfold bind at 1; by rewrite He.
Qed.

(** C1 does not hold of the code: [handle_winners] never pays anybody.
    Whatever the channel, the result and the state of the guild, it leaves
    the world as it was and never completes its payout; and when the session
    has stakes and the result is one of its choices, the case of the claim,
    it raises while the embed of the results is built (the call
    [bar_chart(amount, total, 10)] gives a third positional argument to a
    function whose parameters after the second are keyword-only), before
    the loop that deposits the gains. *)
Theorem handle_winners_never_pays (w : world) (channel : Z) (result : string)
    (now : Z) :
  fst (Gambling.handle_winners channel result now w) = w ∧
  snd (Gambling.handle_winners channel result now w) ≠ inr Gambling.Winners_paid ∧
  (∀ data,
     bettings w !! channel = Some data →
     channel ∈ text_channels w →
     Str.lower (Str.chars result) ∈ Str.split "," (Str.chars (bg_choices data)) →
     Gambling.total_stakes (bets_of channel w) ≠ 0 →
     ∃ e, Gambling.handle_winners channel result now w = (w, inl e)).
Proof.
  assert (Hrun : ∃ r, Gambling.handle_winners channel result now w = (w, r)
                      ∧ r ≠ inr Gambling.Winners_paid).
  { unfold Gambling.handle_winners.
    unfold bind at 1. rewrite get_betting_eq.
    destruct (bettings w !! channel) as [data|] eqn:Hdata; [|by eexists].
    unfold bind at 1. rewrite get_bets_eq.
    destruct (bets_of channel w) as [|b l] eqn:Hl; [by eexists|].
    unfold bind at 1. unfold get at 1.
    destruct (negb (bool_decide (channel ∈ text_channels w))); [by eexists|].
    destruct (negb (bool_decide (_ ∈ _))); [by eexists|].
    destruct (_ =? 0); [by eexists|].
    destruct (get_betting_embed_raises w channel data Hdata) as [e He].
    { by rewrite Hl. }
    destruct (filter _ (b :: l)); unfold bind at 1; rewrite He; by eexists. }
  destruct Hrun as (r & Hr & Hne). rewrite Hr. simpl.
  split; [done|]. split; [done|].
  intros data Hdata Hch Hres Htot.
  destruct (bets_of channel w) as [|b l] eqn:Hl; [done|].
  rewrite <- Hr. apply (handle_winners_raises w channel result now data); try done.
  - by rewrite Hl.
  - by rewrite Hl.
Qed.

Lemma balances_checked_dec (w : world) :
  bool_decide (map_Forall (λ _ b, 0 ≤ b) (accounts w)) = true → balances_checked w.
Proof. intros H. apply bool_decide_eq_true in H. exact H. Qed.

Lemma cancel_gamble_no_bets (w : world) (channel user : Z) (now : Z)
    (betting : betting_row) :
  bettings w !! channel = Some betting →
  bets_of channel w = [] →
  Gambling._cancel_gamble channel user true (Some true) now w
  = (w, inr Gambling.Cancel_no_bets).
Proof.
  intros Hb Hl. unfold Gambling._cancel_gamble.
  unfold bind at 1. rewrite get_betting_eq, Hb.
  unfold bind at 1. unfold get at 1. cbn [negb andb].
  unfold bind at 1. by rewrite get_bets_eq, Hl.
Qed.

(** ** The dice-throw parser *)






Lemma split_no_sep (sep : ascii) (l : list ascii) :
  forallb (λ c, negb (Ascii.eqb c sep)) l = true → Str.split sep l = [l].
Proof.
  induction l as [|c l IH]; simpl; [done|].
  intros H. apply andb_true_iff in H as [Hc Hl].
  apply negb_true_iff in Hc. by rewrite Hc, IH.
Qed.

Lemma split_app_sep (sep : ascii) (l r : list ascii) :
  forallb (λ c, negb (Ascii.eqb c sep)) l = true →
  Str.split sep (l ++ sep :: r) = l :: Str.split sep r.
Proof.
  induction l as [|c l IH]; simpl.
  - by rewrite Ascii.eqb_refl.
  - intros H. apply andb_true_iff in H as [Hc Hl].
    apply negb_true_iff in Hc. by rewrite Hc, IH.
Qed.

Lemma forallb_impl {A} (P Q : A → bool) (l : list A) :
  (∀ x, P x = true → Q x = true) → forallb P l = true → forallb Q l = true.
Proof.
  intros H. induction l as [|x l IH]; simpl; [done|].
  intros Hl. apply andb_true_iff in Hl as [Hx Hl]. by rewrite (H x Hx), IH.
Qed.





Lemma forallb_rev {A} (P : A → bool) (l : list A) :
  forallb P (rev l) = forallb P l.
Proof.
  induction l as [|x l IH]; simpl; [done|].
  rewrite forallb_app, IH. simpl. rewrite andb_true_r. apply andb_comm.
Qed.












(** 21 dice in one term, and 21 dice over two terms, are refused; 20 pass *)
Lemma too_many_dice_example :
  GameTools.transform "21d6" = inl BadArgument_too_many ∧
  GameTools.transform "20d6+1d(1,5,10)" = inl BadArgument_too_many ∧
  GameTools.transform "20d6" = inr (replicate 20 (GameTools.classic 6)).
Proof. by vm_compute. Qed.

(** ** The other statements on concrete worlds *)

(** C1 fails on the example of the specification: 30 on heads by user 1 and
    70 on tails by user 2, a pot of 100, resolved with ["heads"].  The embed
    of the results raises before the payout is reached, through
    [handle_winners] and through the command [_stop_gamble] alike: user 1
    holds 0 before and after, where the specification pays 100, and the
    session and its bets stay. *)
Lemma spec_example_winner_unpaid :
  Gambling.total_stakes (bets_of 10 Examples.w_bets) = 100 ∧
  filter (λ b, Str.chars (bet_choice b) = Str.lower (Str.chars "heads"))
    (bets_of 10 Examples.w_bets) = [Examples.bet_heads] ∧
  accounts Examples.w_bets !! 1 = Some 0 ∧
  Gambling.handle_winners 10 "heads" Examples.now0 Examples.w_bets
  = (Examples.w_bets, inl TypeError) ∧
  Gambling._stop_gamble 10 1 false (Some true) "heads" Examples.now0 Examples.w_bets
  = (Examples.w_bets, inl TypeError).
Proof. by vm_compute. Qed.

(** the session of the specification, resolved with ["heads"]: the embed of
    the results raises before anything is paid *)
Lemma handle_winners_example :
  Gambling.handle_winners 10 "heads" Examples.now0 Examples.w_bets
  = (Examples.w_bets, inl TypeError).
Proof. by vm_compute. Qed.

Lemma cancel_gamble_refunds_witness :
  ∃ w',
    Gambling._cancel_gamble 10 1 false (Some true) Examples.now0 Examples.w_bets
    = (w', inr Gambling.Cancel_done) ∧
    accounts w' !! 1 = Some 30 ∧ accounts w' !! 2 = Some 70 ∧
    Gambling.get_betting 10 w' = (w', inr None).
Proof.
  destruct (cancel_gamble_refunds Examples.w_bets 10 1 false Examples.now0 100
              Examples.session) as (w' & Hrun & Hacc & _ & _ & Hget).
  - reflexivity.
  - right. split; [by vm_compute | reflexivity].
  - by vm_compute.
  - apply balances_checked_dec. by vm_compute.
  - reflexivity.
  - intros x Hx _. vm_compute in Hx.
    apply elem_of_cons in Hx as [->|Hx];
      [|apply list_elem_of_singleton in Hx as ->]; (split; [by eexists | done]).
  - exists w'. split; [exact Hrun|].
    split; [exact (Hacc 1)|]. split; [exact (Hacc 2) | exact Hget].
Defined.

(** C2 as stated fails: user 1 staked 30 and has left the guild since; the
    cancellation completes, and the balance of user 1 is 0 before and after. *)
Lemma refund_skips_departed :
  stakes_of 1 (bets_of 10 Examples.w_bets_left) = 30 ∧
  accounts Examples.w_bets_left !! 1 = Some 0 ∧
  snd (Gambling._cancel_gamble 10 2 true (Some true) Examples.now0
         Examples.w_bets_left) = inr Gambling.Cancel_done ∧
  accounts (fst (Gambling._cancel_gamble 10 2 true (Some true) Examples.now0
                   Examples.w_bets_left)) !! 1 = Some 0.
Proof. by vm_compute. Qed.

(** a confirmed cancellation of a session without bets keeps the session *)
Lemma cancel_gamble_no_bets_example :
  Gambling._cancel_gamble 10 1 true (Some true) Examples.now0 Examples.w_no_bets
  = (Examples.w_no_bets, inr Gambling.Cancel_no_bets) ∧
  bettings Examples.w_no_bets !! 10 = Some Examples.session.
Proof.
  split; [|reflexivity].
  by apply (cancel_gamble_no_bets _ _ _ _ Examples.session).
Qed.

Lemma daily_refused_when_rounded_to_zero_witness :
  snd (Daily._bank_daily 1 "03.11.2026" Examples.now0 Examples.w_daily)
  = inr Daily.Too_small ∧
  accounts (fst (Daily._bank_daily 1 "03.11.2026" Examples.now0 Examples.w_daily))
  = accounts Examples.w_daily ∧
  conditions (fst (Daily._bank_daily 1 "03.11.2026" Examples.now0 Examples.w_daily))
    !! ("LastDaily", 1) = Some "".
Proof.
  destruct (daily_refused_when_rounded_to_zero Examples.w_daily 1 3000 100 1 5000
              0 "03.11.2026" Examples.now0) as (H1 & H2 & _ & H4).
  - reflexivity.
  - reflexivity.
  - reflexivity.
  - reflexivity.
  - by eexists.
  - lia.
  - lia.
  - by vm_compute.
  - lia.
  - split; [exact H1|]. split; [exact H2|]. rewrite H4. reflexivity.
Defined.

(** C6 as stated fails: with the default configuration and a balance of
    10000, above the cap, the reduced amount is -180, and the refusal is the
    one of the cap, not "amount too small". *)
Lemma daily_limit_before_too_small :
  Daily.amount 200 5000 10000 = inr (-180) ∧
  snd (Daily._bank_daily 1 "03.11.2026" Examples.now0 Examples.w_rich)
  = inr Daily.Limit_reached.
Proof. by vm_compute. Qed.

(** * Further properties of the code *)

(** ** The configuration of a guild *)

Lemma insert_or_ignore_union (key : string) (value : cfg_value)
    (c : gmap string cfg_value) :
  match c !! key with
  | Some _ => c
  | None => <[key := value]> c
  end = c ∪ {[key := value]}.
Proof.
  apply map_eq. intros k. rewrite lookup_union.
  destruct (c !! key) as [v|] eqn:Hk.
  - destruct (decide (k = key)) as [->|Hne].
    + rewrite Hk, lookup_singleton_eq. done.
    + rewrite lookup_singleton_ne by done. by destruct (c !! k).
  - destruct (decide (k = key)) as [->|Hne].
    + by rewrite lookup_insert_eq, Hk, lookup_singleton_eq.
    + rewrite lookup_insert_ne, lookup_singleton_ne by done. by destruct (c !! k).
Qed.

Lemma init_guilds_db_eq (w : world) :
  Economy._init_guilds_db w = (set_config (λ c, c ∪ DEFAULT_CONFIG) w, inr tt).
Proof.
  unfold Economy._init_guilds_db, Economy.DEFAULT_CONFIG_items.
  unfold for_each, Store.config_insert_or_ignore, bind, modify, ret. simpl.
  f_equal. unfold set_config. simpl. f_equal.
  rewrite !insert_or_ignore_union. rewrite <- !(assoc_L (∪)).
  f_equal.
Qed.

Lemma default_config_keys (k : string) :
  is_Some (DEFAULT_CONFIG !! k)
  ↔ k = "Currency" ∨ k = "DailyAmount" ∨ k = "DailyLimit" ∨ k = "DefaultBalance".
Proof.
  split.
  - intros [v Hv]. unfold DEFAULT_CONFIG in Hv.
    repeat (apply lookup_insert_Some in Hv as [[<- _]|[_ Hv]]; [tauto|]).
    by rewrite lookup_empty in Hv.
  - intros [-> | [-> | [-> | ->]]]; by eexists.
Qed.

(** X1: initialising a guild installs every default setting that the
    [config] table lacks and keeps every stored value, touching no other
    table; afterwards the four settings are present, [get_guild_config]
    returns the table itself, and a second initialisation changes nothing. *)
Theorem init_guilds_db_installs_defaults (w : world) :
  let w' := fst (Economy._init_guilds_db w) in
  snd (Economy._init_guilds_db w) = inr tt ∧
  (∀ k v, config w !! k = Some v → config w' !! k = Some v) ∧
  (∀ k, config w !! k = None → config w' !! k = DEFAULT_CONFIG !! k) ∧
  Economy.get_guild_config w' = (w', inr (config w')) ∧
  (∀ k, k = "Currency" ∨ k = "DailyAmount" ∨ k = "DailyLimit" ∨ k = "DefaultBalance" →
        is_Some (config w' !! k)) ∧
  accounts w' = accounts w ∧ transactions w' = transactions w ∧
  Economy._init_guilds_db w' = (w', inr tt).
Proof.
  intros w'. subst w'. rewrite init_guilds_db_eq. cbn [fst snd].
  set (w' := set_config _ w).
  assert (Hcfg : config w' = config w ∪ DEFAULT_CONFIG) by done.
  split; [done|].
  split.
  { intros k v Hk. rewrite Hcfg. by apply lookup_union_Some_l. }
  split.
  { intros k Hk. rewrite Hcfg. by apply lookup_union_r. }
  assert (Hkeys : ∀ k, k = "Currency" ∨ k = "DailyAmount" ∨ k = "DailyLimit"
                       ∨ k = "DefaultBalance" → is_Some (config w' !! k)).
  { intros k Hk. rewrite Hcfg. apply lookup_union_is_Some. right.
    by apply default_config_keys. }
  split.
  { unfold Economy.get_guild_config, Store.config_select_all, bind, get, ret.
    rewrite bool_decide_eq_false_2; [done|].
    intros He. destruct (Hkeys "Currency") as [v Hv]; [by left|].
    rewrite He, lookup_empty in Hv. done. }
  split; [done|]. split; [done|]. split; [done|].
  rewrite init_guilds_db_eq. f_equal.
  destruct w. unfold w', set_config. simpl. f_equal.
  by rewrite <- (assoc_L (∪)), (idemp (∪) DEFAULT_CONFIG).
Qed.

(** ** Writing a setting *)

Lemma set_guild_config_eq (key : string) (value : cfg_value) (w : world) :
  Economy.set_guild_config key value w
  = (set_config <[key := value]> w, inr tt).
Proof. reflexivity. Qed.

Lemma effective_config_nonempty (w : world) :
  config w ≠ ∅ → effective_config w = config w.
Proof. intros H. unfold effective_config. by rewrite bool_decide_eq_false_2. Qed.

Lemma effective_config_insert (key : string) (value : cfg_value) (w : world) :
  effective_config (set_config <[key := value]> w) = <[key := value]> (config w).
Proof.
  apply effective_config_nonempty. simpl. apply insert_non_empty.
Qed.

Lemma config_int_missing (key : string) (w : world) :
  effective_config w !! key = None →
  Economy.config_int key w = (w, inl KeyError).
Proof.
  intros H. unfold Economy.config_int. unfold bind at 1.
  rewrite get_guild_config_eq. by rewrite H.
Qed.

(** X2: after [set_guild_config key value], [get_guild_config] returns the
    stored table with [key] bound to [value].  On a guild whose [config]
    table was empty the defaults that were served until then are no longer
    served: the default balance read as 100 before the write, and reading it
    afterwards raises [KeyError], so that no account can be opened. *)
Theorem set_guild_config_lookup (key : string) (value : cfg_value) (w : world) :
  let w' := fst (Economy.set_guild_config key value w) in
  Economy.get_guild_config w' = (w', inr (<[key := value]> (config w))) ∧
  Economy.config_text key w' = (w', inr value) ∧
  (config w = ∅ → key ≠ "DefaultBalance" →
   Economy.config_int "DefaultBalance" w = (w, inr 100) ∧
   Economy.config_int "DefaultBalance" w' = (w', inl KeyError) ∧
   ∀ user, get_account user w' = (w', inl KeyError)).
Proof.
  intros w'. subst w'. rewrite set_guild_config_eq. cbn [fst].
  set (w' := set_config _ w).
  assert (He : effective_config w' = <[key := value]> (config w))
    by apply effective_config_insert.
  split; [by rewrite get_guild_config_eq, He|].
  split.
  { apply config_text_lookup. rewrite He. apply lookup_insert_eq. }
  intros Hempty Hne.
  assert (Hk : Economy.config_int "DefaultBalance" w' = (w', inl KeyError)).
  { apply config_int_missing. rewrite He, lookup_insert_ne by done.
    by rewrite Hempty. }
  split.
  { apply config_int_lookup. unfold effective_config.
    rewrite bool_decide_eq_true_2 by done. reflexivity. }
  split; [done|].
  intros user. unfold get_account, Account.init, Account.create_if_not_exists.
  unfold bind at 1. unfold bind at 1. by rewrite Hk.
Qed.

(** ** Settings and the commands that read them *)

Lemma get_account_spec (user d : Z) (w : world) :
  effective_config w !! "DefaultBalance" = Some (CfgInt d) →
  get_account user w
  = (set_accounts (λ acc,
       match acc !! user with
       | Some _ => acc
       | None => if 0 <=? d then <[user := d]> acc else acc
       end) w, inr user).
Proof.
  intros Hd. unfold get_account, Account.init, Account.create_if_not_exists.
  unfold bind at 1. unfold bind at 1. rewrite (config_int_lookup _ _ _ Hd).
  reflexivity.
Qed.

(** X3: after [_configbank_defaultbalance amount], with a currency stored
    in the table, the balances are what they were, and the account that
    [get_account] opens for a user who had none holds [amount]. *)
Theorem defaultbalance_opens_accounts (w : world) (amount user : Z) (c : cfg_value) :
  0 ≤ amount →
  config w !! "Currency" = Some c →
  accounts w !! user = None →
  ∃ w1 w2,
    Bank._configbank_defaultbalance amount w = (w1, inr Bank.Setting_changed) ∧
    get_account user w1 = (w2, inr user) ∧
    accounts w1 = accounts w ∧
    accounts w2 = <[user := amount]> (accounts w) ∧
    Account._get_balance user w2 = (w2, inr amount).
Proof.
  intros Ha Hc Hu.
  set (w1 := set_config <["DefaultBalance" := CfgInt amount]> w).
  assert (He : effective_config w1 = <["DefaultBalance" := CfgInt amount]> (config w))
    by apply effective_config_insert.
  assert (Hd : effective_config w1 !! "DefaultBalance" = Some (CfgInt amount))
    by (rewrite He; apply lookup_insert_eq).
  exists w1. eexists. split.
  { unfold Bank._configbank_defaultbalance. unfold bind at 1.
    rewrite set_guild_config_eq. fold w1. unfold bind at 1.
    rewrite (config_text_lookup "Currency" c); [done|].
    rewrite He. by rewrite lookup_insert_ne. }
  split; [by apply (get_account_spec user amount)|].
  split; [done|].
  assert (Hacc : accounts (set_accounts (λ acc,
            match acc !! user with
            | Some _ => acc
            | None => if 0 <=? amount then <[user := amount]> acc else acc
            end) w1) = <[user := amount]> (accounts w)).
  { simpl. rewrite Hu. by destruct (Z.leb_spec 0 amount); [|lia]. }
  split; [done|].
  apply get_balance_some. rewrite Hacc. apply lookup_insert_eq.
Qed.

(** X4: once [_configbank_daily] has stored a zero amount or a zero cap,
    [_bank_daily] answers that the stipend is unavailable, whoever asks and
    whenever: no transaction is recorded, no condition is written and no
    existing balance changes. *)
Theorem daily_disabled_by_zero (w : world) (amount limit user d : Z)
    (today : string) (now : Z) :
  amount = 0 ∨ limit = 0 →
  config w !! "DefaultBalance" = Some (CfgInt d) →
  ∃ w1 w2,
    Bank._configbank_daily amount limit w = (w1, inr Bank.Daily_disabled) ∧
    Daily._bank_daily user today now w1 = (w2, inr Daily.Unavailable) ∧
    transactions w2 = transactions w ∧ conditions w2 = conditions w ∧
    ∀ u b, accounts w !! u = Some b → accounts w2 !! u = Some b.
Proof.
  intros Hz Hd.
  set (w1 := set_config <["DailyLimit" := CfgInt limit]>
               (set_config <["DailyAmount" := CfgInt amount]> w)).
  assert (He : effective_config w1
               = <["DailyLimit" := CfgInt limit]>
                   (<["DailyAmount" := CfgInt amount]> (config w)))
    by apply effective_config_insert.
  assert (Hd1 : effective_config w1 !! "DefaultBalance" = Some (CfgInt d)).
  { rewrite He. by rewrite !lookup_insert_ne. }
  exists w1. eexists. split.
  { unfold Bank._configbank_daily. unfold bind at 1. rewrite set_guild_config_eq.
    unfold bind at 1. rewrite set_guild_config_eq. fold w1.
    destruct Hz as [-> | ->]; [done|]. by rewrite orb_true_r. }
  split.
  { unfold Daily._bank_daily. unfold bind at 1.
    rewrite (get_account_spec user d w1 Hd1).
    unfold bind at 1. rewrite get_guild_config_eq.
    rewrite (effective_config_same w1); [|done].
    rewrite He. rewrite lookup_insert_ne by done.
    rewrite !lookup_insert_eq. unfold bind at 1. unfold ret at 1.
    unfold bind at 1. unfold ret at 1.
    assert (Hor : (amount <=? 0) || (limit <=? 0) = true).
    { destruct Hz as [-> | ->]; [done|]. by rewrite orb_true_r. }
    rewrite Hor. reflexivity. }
  split; [done|]. split; [done|].
  intros u b Hu. simpl.
  destruct (decide (u = user)) as [->|Hne].
  - by rewrite Hu.
  - destruct (accounts w !! user); [done|].
    destruct (0 <=? d); [|done]. by rewrite lookup_insert_ne.
Qed.

Lemma accounts_set_accounts (f : gmap Z Z → gmap Z Z) (w : world) :
  accounts (set_accounts f w) = f (accounts w).
Proof. reflexivity. Qed.
Lemma recorded_effective_config t now w :
  effective_config (recorded t now w) = effective_config w.
Proof. apply effective_config_same. apply recorded_config. Qed.

(** ** The variation of a balance *)




(** ** Looking a transaction up by its identifier *)

Lemma has_id_false_filter (id : Z * Z * Z) (rows : list tx_row) :
  Store.has_id id rows = false → filter (λ r, row_id r = id) rows = [].
Proof.
  intros H. induction rows as [|r rows IH]; [done|].
  unfold Store.has_id in H. simpl in H. apply orb_false_iff in H as [H1 H2].
  apply bool_decide_eq_false in H1.
  rewrite filter_cons_False by done. by apply IH.
Qed.

Lemma select_id_eq (id : Z * Z * Z) (w : world) :
  Store.transactions_select_id id w
  = (w, inr (head (filter (λ r, row_id r = id) (transactions w)))).
Proof. reflexivity. Qed.


Lemma sweep_app (now : Z) (l1 l2 : list tx_row) :
  sweep now (l1 ++ l2) = sweep now l1 ++ sweep now l2.
Proof. unfold sweep. apply filter_app. Qed.

Lemma has_id_sweep (id : Z * Z * Z) (now : Z) (rows : list tx_row) :
  Store.has_id id rows = false → Store.has_id id (sweep now rows) = false.
Proof.
  intros H. destruct (Store.has_id id (sweep now rows)) eqn:E; [|done].
  apply has_id_true in E as (r & Hin & Hid).
  unfold sweep in Hin. apply list_elem_of_filter in Hin as [_ Hin].
  assert (Store.has_id id rows = true) by (apply has_id_true; by exists r).
  congruence.
Qed.

(** X9: a transaction of a member recorded under an identifier that was
    free is found again by [from_id] with its identifier: the object returned
    is the one that was recorded, whenever the lookup is made. *)
Theorem from_id_round_trip (w : world) (u a : Z) (rsn : reason) (now now' : Z) :
  u ∈ members w → now ≠ 0 →
  Store.has_id (Transaction.get_id now u a) (transactions w) = false →
  ∃ w1 w2 t,
    Transaction.init u a rsn 0 now w = (w1, inr t) ∧
    Transaction.id t = Transaction.get_id now u a ∧
    Transaction.from_id (Transaction.id t) now' w1 = (w2, inr (inr t)).
Proof.
  intros Hm Hnow Hfresh.
  set (t := tx_object u a rsn 0 now).
  exists (recorded t now w), (recorded t now' (recorded t now w)), t.
  split; [apply init_spec|]. split; [done|].
  assert (Hsel : filter (λ r, row_id r = Transaction.id t)
                   (transactions (recorded t now w)) = [tx_row_of t]).
  { rewrite recorded_transactions. unfold insert_or_ignore.
    change (row_id (tx_row_of t)) with (Transaction.id t).
    change (Transaction.get_id now u a) with (Transaction.id t) in Hfresh.
    rewrite Hfresh.
    assert (Hrow : filter (λ r, row_id r = Transaction.id t) [tx_row_of t]
                   = [tx_row_of t]) by (by rewrite filter_cons_True).
    destruct (sweep_due now w).
    - rewrite sweep_app, filter_app.
      rewrite (has_id_false_filter _ _ (has_id_sweep _ now _ Hfresh)).
      unfold sweep at 1. rewrite filter_cons_True.
      + done.
      + pose proof (fresh_stamp_retained u a rsn now). fold t in H.
        change (row_timestamp (tx_row_of t)) with (Transaction.timestamp t). lia.
    - rewrite filter_app, (has_id_false_filter _ _ Hfresh). done. }
  unfold Transaction.from_id. unfold bind at 1.
  rewrite select_id_eq, Hsel. cbn [head].
  unfold bind at 1. unfold get at 1.
  rewrite recorded_members.
  change (row_user_id (tx_row_of t)) with u.
  rewrite bool_decide_eq_true_2 by done. cbn [negb].
  unfold bind at 1. rewrite init_spec.
  change (row_amount (tx_row_of t)) with a.
  change (row_reason (tx_row_of t)) with rsn.
  change (row_timestamp (tx_row_of t)) with now.
  assert (Ht : tx_object u a rsn now now' = t).
  { unfold t, tx_object. simpl. by destruct (Z.eqb_spec now 0). }
  by rewrite Ht.
Qed.

(** X10: for an identifier that no stored row carries, [from_id],
    [Account.get_transaction] and the command [_configbank_cancel] raise
    [TypeError] (the missing row is subscripted) and change nothing; the
    command never answers that the transaction does not exist. *)
Theorem from_id_unknown (w : world) (id : Z * Z * Z) (owner now1 now2 : Z)
    (answer : option bool) :
  Store.has_id id (transactions w) = false →
  Transaction.from_id id now1 w = (w, inl TypeError) ∧
  Account.get_transaction owner id now1 w = (w, inl TypeError) ∧
  Bank._configbank_cancel id answer now1 now2 w = (w, inl TypeError).
Proof.
  intros H.
  assert (Hf : Transaction.from_id id now1 w = (w, inl TypeError)).
  { unfold Transaction.from_id. unfold bind at 1.
    by rewrite select_id_eq, (has_id_false_filter _ _ H). }
  split; [done|]. split; [done|].
  unfold Bank._configbank_cancel. unfold bind at 1. by rewrite Hf.
Qed.

(** ** Cancelling from the administration command *)



(** ** Deleting a transaction *)

Lemma derived_ids_filter (P : tx_row → Prop) `{∀ r, Decision (P r)}
    (rows : list tx_row) :
  derived_ids rows = true → derived_ids (filter P rows) = true.
Proof.
  unfold derived_ids. rewrite !forallb_forall. intros Hd r Hr.
  apply Hd. apply list_elem_of_In. apply list_elem_of_In in Hr.
  by apply list_elem_of_filter in Hr as [_ Hr].
Qed.

Lemma retained_filter (P : tx_row → Prop) `{∀ r, Decision (P r)} (now : Z)
    (rows : list tx_row) :
  retained now rows = true → retained now (filter P rows) = true.
Proof.
  unfold retained. rewrite !forallb_forall. intros Hd r Hr.
  apply Hd. apply list_elem_of_In. apply list_elem_of_In in Hr.
  by apply list_elem_of_filter in Hr as [_ Hr].
Qed.

(** X12: [Transaction.delete] removes the rows that carry the identifier
    of the transaction and no other, and leaves the balances alone: the
    money that the transaction moved is not moved back.  Afterwards the
    identifier is unknown to [from_id] and [cancel] refuses the transaction
    as not linked to the account. *)
Theorem delete_forgets_transaction (w : world) (t : Transaction.t) (u b now : Z) :
  derived_ids (transactions w) = true →
  retained now (transactions w) = true →
  accounts w !! u = Some b →
  let w1 := fst (Transaction.delete t w) in
  snd (Transaction.delete t w) = inr tt ∧
  accounts w1 = accounts w ∧
  (∀ r, r ∈ transactions w1 ↔ r ∈ transactions w ∧ row_id r ≠ Transaction.id t) ∧
  Transaction.from_id (Transaction.id t) now w1 = (w1, inl TypeError) ∧
  snd (Account.cancel u t now w1) = inl ValueError_not_linked.
Proof.
  intros Hd Hr Hb w1.
  assert (Htx : transactions w1
                = filter (λ r, row_id r ≠ Transaction.id t) (transactions w)) by done.
  assert (Hno : Store.has_id (Transaction.id t) (transactions w1) = false).
  { destruct (Store.has_id _ _) eqn:E; [|done].
    apply has_id_true in E as (r & Hin & Hid).
    rewrite Htx in Hin. apply list_elem_of_filter in Hin as [Hne _]. done. }
  split; [done|]. split; [done|].
  split.
  { intros r. rewrite Htx, list_elem_of_filter. tauto. }
  split.
  { unfold Transaction.from_id. unfold bind at 1.
    by rewrite select_id_eq, (has_id_false_filter _ _ Hno). }
  assert (Hd1 : derived_ids (transactions w1) = true)
    by (rewrite Htx; by apply derived_ids_filter).
  assert (Hr1 : retained now (transactions w1) = true)
    by (rewrite Htx; by apply retained_filter).
  destruct (cancel_eq w1 u b now t Hb Hd1 Hr1) as [lc Hcancel].
  cbv zeta in Hcancel. rewrite Hcancel.
  assert (Hl : linked u t w1 = false).
  { destruct (linked u t w1) eqn:E; [|done].
    unfold linked in E. apply existsb_exists in E as (r & Hin & Hx).
    apply andb_true_iff in Hx as [_ Hx]. apply bool_decide_eq_true in Hx.
    assert (Store.has_id (Transaction.id t) (transactions w1) = true).
    { apply has_id_true. exists r. split; [by apply list_elem_of_In|done]. }
    congruence. }
  by rewrite Hl.
Qed.

(** ** Conditions *)

(** X17: a value assigned to a condition is the value that a later load of
    the same condition finds, whatever default that load proposes.  Once the
    condition is deleted, an assignment through the old object stores
    nothing, and a later load finds its own default. *)
Theorem condition_value_round_trip (w : world) (name : string) (obj : Z)
    (d d' v : string) :
  ∃ w1 c,
    Condition.init name obj d w = (w1, inr c) ∧
    (∃ w2 c2 w3 c3,
       Condition.set_value c v w1 = (w2, inr c2) ∧
       Condition.init name obj d' w2 = (w3, inr c3) ∧
       w3 = w2 ∧ Condition.value c3 = v) ∧
    (∃ w2 w3 c3 w4 c4,
       Condition.delete c w1 = (w2, inr tt) ∧
       Condition.set_value c v w2 = (w3, inr c3) ∧
       w3 = w2 ∧ conditions w2 !! (name, obj) = None ∧
       Condition.init name obj d' w3 = (w4, inr c4) ∧
       Condition.value c4 = d').
Proof.
  assert (Hinit : ∀ d0 w0, ∃ w1 c,
            Condition.init name obj d0 w0 = (w1, inr c) ∧
            Condition.name c = name ∧ Condition.obj c = obj ∧
            conditions w1 !! (name, obj) = Some (Condition.value c) ∧
            (conditions w0 !! (name, obj) = None → Condition.value c = d0) ∧
            (∀ x, conditions w0 !! (name, obj) = Some x →
                  w1 = w0 ∧ Condition.value c = x)).
  { intros d0 w0. unfold Condition.init. unfold bind at 1. unfold get at 1.
    destruct (conditions w0 !! (name, obj)) as [x|] eqn:Hx.
    - eexists _, _. split; [done|]. split; [done|]. split; [done|].
      split; [done|]. split; [done|]. by intros y [= <-].
    - eexists _, _. split; [done|]. split; [done|]. split; [done|].
      split; [|done]. simpl. rewrite Hx. apply lookup_insert_eq. }
  destruct (Hinit d w) as (w1 & c & Hc & Hn & Ho & Hst & _).
  exists w1, c. split; [done|].
  assert (Hid : Condition.id c = (name, obj)).
  { unfold Condition.id. by rewrite Hn, Ho. }
  split.
  - set (w2 := set_conditions <[(name, obj) := v]> w1).
    assert (Hset : Condition.set_value c v w1
                   = (w2, inr (Condition.mk name obj v))).
    { unfold Condition.set_value, Condition.save, bind, modify, ret.
      unfold Condition.id. cbn [Condition.name Condition.obj Condition.value].
      rewrite Hn, Ho. unfold w2, set_conditions. cbn beta.
      by rewrite Hst. }
    destruct (Hinit d' w2) as (w3 & c3 & Hc3 & _ & _ & _ & _ & Hkeep).
    destruct (Hkeep v) as [-> Hv]; [apply lookup_insert_eq|].
    by eexists _, _, _, _.
  - set (w2 := set_conditions (delete (name, obj)) w1).
    assert (Hdel : Condition.delete c w1 = (w2, inr tt)).
    { unfold Condition.delete, modify. by rewrite Hid. }
    assert (Hgone : conditions w2 !! (name, obj) = None) by apply lookup_delete_eq.
    assert (Hset : Condition.set_value c v w2
                   = (w2, inr (Condition.mk (Condition.name c) (Condition.obj c) v))).
    { unfold Condition.set_value, Condition.save, bind, modify, ret.
      unfold Condition.id. cbn [Condition.name Condition.obj Condition.value].
      rewrite Hn, Ho. unfold set_conditions at 1. cbn beta.
      rewrite Hgone. by destruct w2. }
    destruct (Hinit d' w2) as (w4 & c4 & Hc4 & _ & _ & _ & Hdef & _).
    eexists _, _, _, _, _. split; [done|]. split; [done|].
    split; [done|]. split; [done|]. split; [done|]. by apply Hdef.
Qed.

(** ** The transactions of a guild since a date *)

Lemma rebuild_spec (gm : list Z) (now : Z) (rows : list tx_row) (w : world) :
  derived_ids (transactions w) = true →
  retained now (transactions w) = true →
  (∀ r, r ∈ rows → r ∈ transactions w) →
  ∃ lc,
    Bank.rebuild gm rows now w
    = (set_last_cleanup lc w,
       inr (map (λ row, tx_object (row_user_id row) (row_amount row) (row_reason row)
                          (row_timestamp row) now)
              (filter (λ row, row_user_id row ∈ gm) rows))).
Proof.
  intros Hd Hr Hrows. unfold Bank.rebuild.
  assert (Hsub : ∀ r, r ∈ filter (λ row, row_user_id row ∈ gm) rows →
                      r ∈ transactions w).
  { intros r Hin. apply list_elem_of_filter in Hin as [_ Hin]. by apply Hrows. }
  clear Hrows. revert w Hd Hr Hsub.
  induction (filter (λ row, row_user_id row ∈ gm) rows) as [|r l IH];
    intros w Hd Hr Hsub.
  - exists (last_cleanup w). simpl. unfold ret. by rewrite set_last_cleanup_same.
  - simpl. unfold bind at 1. rewrite init_spec.
    rewrite (recorded_stored r now w Hd Hr) by (apply Hsub, list_elem_of_here).
    set (w1 := set_last_cleanup _ w).
    destruct (IH w1) as [lc Hlc]; [done|done| |].
    { intros r' Hr'. apply Hsub. by apply list_elem_of_further. }
    exists lc. unfold bind at 1. by rewrite Hlc.
Qed.

Lemma insert_desc_sorted (r : tx_row) (l : list tx_row) :
  StronglySorted (λ a b, row_timestamp b ≤ row_timestamp a) l →
  StronglySorted (λ a b, row_timestamp b ≤ row_timestamp a) (Store.insert_desc r l).
Proof.
  induction 1 as [|y l Hs IH Hy]; simpl.
  - constructor; [constructor | constructor].
  - destruct (Z.ltb_spec (row_timestamp r) (row_timestamp y)).
    + constructor; [done|].
      apply Forall_forall. intros x Hx. apply elem_of_insert_desc in Hx as [->|Hx].
      * lia.
      * rewrite Forall_forall in Hy. by apply Hy.
    + constructor; [by constructor|].
      constructor; [lia|].
      eapply Forall_impl; [exact Hy|]. simpl. intros; lia.
Qed.

Lemma order_by_sorted (l : list tx_row) :
  StronglySorted (λ a b, row_timestamp b ≤ row_timestamp a)
    (Store.order_by_timestamp_desc l).
Proof.
  unfold Store.order_by_timestamp_desc. induction l as [|x l IH]; simpl; [constructor|].
  by apply insert_desc_sorted.
Qed.

Lemma sorted_filter {A} (R : A → A → Prop) (P : A → Prop) `{∀ x, Decision (P x)}
    (l : list A) :
  StronglySorted R l → StronglySorted R (filter P l).
Proof.
  induction 1 as [|y l Hs IH Hy]; [constructor|].
  destruct (decide (P y)).
  - rewrite filter_cons_True by done. constructor; [done|].
    apply Forall_forall. intros x Hx. apply list_elem_of_filter in Hx as [_ Hx].
    rewrite Forall_forall in Hy. by apply Hy.
  - by rewrite filter_cons_False.
Qed.

Lemma sorted_map {A B} (R : A → A → Prop) (S : B → B → Prop) (f : A → B)
    (l : list A) :
  (∀ a b, R a b → S (f a) (f b)) →
  StronglySorted R l → StronglySorted S (map f l).
Proof.
  intros HRS. induction 1 as [|y l Hs IH Hy]; simpl; [constructor|].
  constructor; [done|]. apply Forall_fmap.
  eapply Forall_impl; [exact Hy|]. simpl. intros. by apply HRS.
Qed.

(** X13: on a ledger whose rows carry their derived identifiers and are
    inside the retention window, [get_transactions_since] returns exactly
    the stored transactions of the listed members that are more recent than
    the date, the most recent first, and leaves ledger and balances as they
    were. *)
Theorem transactions_since_spec (w : world) (gm : list Z) (since now : Z) :
  derived_ids (transactions w) = true →
  retained now (transactions w) = true →
  ∃ w' l,
    Bank.get_transactions_since gm since now w = (w', inr l) ∧
    transactions w' = transactions w ∧ accounts w' = accounts w ∧
    (∀ t, t ∈ l → Transaction.user t ∈ gm ∧ since < Transaction.timestamp t
                  ∧ tx_row_of t ∈ transactions w) ∧
    (∀ r, r ∈ transactions w → row_user_id r ∈ gm → since < row_timestamp r →
          ∃ t, t ∈ l ∧ tx_row_of t = r) ∧
    StronglySorted (λ a b, Transaction.timestamp b ≤ Transaction.timestamp a) l.
Proof.
  intros Hd Hr.
  set (rows := Store.order_by_timestamp_desc
                 (filter (λ r, since < row_timestamp r) (transactions w))).
  assert (Hrows : ∀ r, r ∈ rows ↔ since < row_timestamp r ∧ r ∈ transactions w).
  { intros r. unfold rows. by rewrite elem_of_order_by, list_elem_of_filter. }
  destruct (rebuild_spec gm now rows w Hd Hr) as [lc Hlc].
  { intros r Hin. by apply Hrows in Hin as [_ Hin]. }
  eexists _, _. split.
  { unfold Bank.get_transactions_since, Store.transactions_select_since.
    unfold bind at 1. unfold bind at 1. unfold get at 1. unfold ret at 1.
    exact Hlc. }
  split; [done|]. split; [done|].
  assert (Hstamp : ∀ r, r ∈ transactions w →
            tx_object (row_user_id r) (row_amount r) (row_reason r)
              (row_timestamp r) now
            = Transaction.mk (row_user_id r) (row_amount r) (row_reason r)
                (row_timestamp r) (row_id r)).
  { intros r Hin. destruct (derived_ids_row _ _ Hd Hin) as [Hid Hts].
    unfold tx_object. destruct (Z.eqb_spec (row_timestamp r) 0); [done|].
    by rewrite Hid. }
  split.
  { intros t Hin. apply list_elem_of_fmap in Hin as (r & -> & Hin).
    apply list_elem_of_filter in Hin as [Hm Hin]. apply Hrows in Hin as [Hs Hin].
    rewrite (Hstamp r Hin). simpl. repeat split; try done.
    unfold tx_row_of. simpl. by destruct r. }
  split.
  { intros r Hin Hm Hs. eexists. split.
    - apply list_elem_of_fmap. exists r. split; [done|].
      apply list_elem_of_filter. split; [done|]. by apply Hrows.
    - by apply (tx_row_of_stored (transactions w)). }
  erewrite map_ext_in.
  - apply (sorted_map (λ a b, row_timestamp b ≤ row_timestamp a)
             (λ a b, Transaction.timestamp b ≤ Transaction.timestamp a)
             (λ r, Transaction.mk (row_user_id r) (row_amount r) (row_reason r)
                     (row_timestamp r) (row_id r))).
    + intros a b Hab. done.
    + apply sorted_filter. apply order_by_sorted.
  - intros r Hin. apply list_elem_of_In, list_elem_of_filter in Hin as [_ Hin].
    apply Hrows in Hin as [_ Hin]. by apply Hstamp.
Qed.


(** ** Listing the accounts of a guild *)

Lemma map_M_init_holders (l : list Z) (d : Z) (w : world) :
  effective_config w !! "DefaultBalance" = Some (CfgInt d) →
  Forall (λ m, is_Some (accounts w !! m)) l →
  map_M Account.init l w = (w, inr l).
Proof.
  intros Hd Hl. induction Hl as [|m l [b Hb] Hl IH]; [done|].
  simpl. unfold bind at 1.
  change (Account.init m) with (get_account m).
  rewrite (get_account_present m b d w Hb Hd).
  unfold bind at 1. by rewrite IH.
Qed.

Lemma get_accounts_eq (gm : list Z) (d : Z) (w : world) :
  effective_config w !! "DefaultBalance" = Some (CfgInt d) →
  Bank.get_accounts gm w = (w, inr (account_holders gm w)).
Proof.
  intros Hd. unfold Bank.get_accounts, Store.accounts_select_all.
  unfold bind at 1. unfold bind at 1. unfold get at 1. unfold ret at 1.
  apply (map_M_init_holders _ d); [done|].
  apply Forall_forall. intros m Hm. by apply list_elem_of_filter in Hm as [Hm _].
Qed.

Lemma map_M_balances (l : list Z) (w : world) :
  Forall (λ m, is_Some (accounts w !! m)) l →
  map_M Account._get_balance l w = (w, inr (map (balance_of w) l)).
Proof.
  intros Hl. induction Hl as [|m l [b Hb] Hl IH]; [done|].
  simpl. unfold bind at 1. rewrite (get_balance_some m b w Hb).
  unfold bind at 1. rewrite IH. unfold ret, balance_of. by rewrite Hb.
Qed.

Lemma holders_have_accounts (gm : list Z) (w : world) :
  Forall (λ m, is_Some (accounts w !! m)) (account_holders gm w).
Proof.
  apply Forall_forall. intros m Hm. by apply list_elem_of_filter in Hm as [Hm _].
Qed.

Lemma total_balance_eq (gm : list Z) (d : Z) (w : world) :
  effective_config w !! "DefaultBalance" = Some (CfgInt d) →
  Bank.get_guild_total_balance gm w = (w, inr (total_of w (account_holders gm w))).
Proof.
  intros Hd. unfold Bank.get_guild_total_balance.
  unfold bind at 1. rewrite (get_accounts_eq gm d w Hd).
  unfold bind at 1. by rewrite (map_M_balances _ w (holders_have_accounts gm w)).
Qed.

(** ** The total of the balances *)

Lemma total_of_ext (w w' : world) (l : list Z) :
  (∀ m, m ∈ l → accounts w' !! m = accounts w !! m) →
  total_of w' l = total_of w l.
Proof.
  intros H. unfold total_of. f_equal. apply map_ext_in. intros m Hm.
  unfold balance_of. rewrite H; [done|]. by apply list_elem_of_In.
Qed.

Lemma total_of_update (w w' : world) (l : list Z) (u b v : Z) :
  NoDup l → u ∈ l →
  accounts w !! u = Some b → accounts w' !! u = Some v →
  (∀ m, m ≠ u → accounts w' !! m = accounts w !! m) →
  total_of w' l = total_of w l - b + v.
Proof.
  intros Hnd Hin Hb Hv Hother. induction l as [|m l IH]; [by apply elem_of_nil in Hin|].
  apply NoDup_cons in Hnd as [Hm Hnd].
  unfold total_of in *. cbn [map foldr].
  apply elem_of_cons in Hin as [<-|Hin].
  - fold (total_of w' l). fold (total_of w l).
    rewrite (total_of_ext w w' l).
    + unfold balance_of. rewrite Hb, Hv. simpl. lia.
    + intros m Hml. apply Hother. intros ->. done.
  - rewrite IH by done.
    assert (m ≠ u) by (intros ->; done).
    unfold balance_of at 1 3. rewrite Hother by done. lia.
Qed.

Lemma holders_same_domain (gm : list Z) (w w' : world) :
  (∀ m, is_Some (accounts w' !! m) ↔ is_Some (accounts w !! m)) →
  account_holders gm w' = account_holders gm w.
Proof.
  intros H. unfold account_holders. induction gm as [|m gm IH]; [done|].
  destruct (decide (is_Some (accounts w !! m))) as [Hs|Hs].
  - rewrite (filter_cons_True (λ m, is_Some (accounts w' !! m))) by (by apply H).
    rewrite (filter_cons_True (λ m, is_Some (accounts w !! m))) by done.
    by rewrite IH.
  - rewrite (filter_cons_False (λ m, is_Some (accounts w' !! m))) by (by rewrite H).
    rewrite (filter_cons_False (λ m, is_Some (accounts w !! m))) by done.
    done.
Qed.

(** X5: a gift between two distinct members who hold accounts, of an
    amount that the giver's balance covers, takes exactly the amount from
    the giver and adds exactly the amount to the receiver; the transaction
    returned is the receiver's deposit, and the total of the balances of the
    guild is the same before and after. *)
Theorem bank_give_moves_amount (w : world) (gm : list Z) (giver receiver : Z)
    (giver_name receiver_name rsn : string) (amount now1 now2 bg br d : Z)
    (c : cfg_value) :
  giver ≠ receiver →
  giver ∈ members w → receiver ∈ members w →
  accounts w !! giver = Some bg → accounts w !! receiver = Some br →
  0 ≤ br → 0 ≤ amount ≤ bg →
  effective_config w !! "DefaultBalance" = Some (CfgInt d) →
  effective_config w !! "Currency" = Some c →
  NoDup gm → giver ∈ gm → receiver ∈ gm →
  ∃ w' trs total,
    Bank._bank_give giver receiver giver_name receiver_name amount rsn now1 now2 w
    = (w', inr (Bank.Give_done trs)) ∧
    Transaction.user trs = receiver ∧ Transaction.amount trs = amount ∧
    accounts w' = <[receiver := br + amount]> (<[giver := bg - amount]> (accounts w)) ∧
    Bank.get_guild_total_balance gm w = (w, inr total) ∧
    Bank.get_guild_total_balance gm w' = (w', inr total).
Proof.
  intros Hne Hg Hr Hbg Hbr Hbr0 Ha Hd Hc Hnd Hggm Hrgm.
  unfold Bank._bank_give.
  destruct (Z.ltb_spec amount 0); [lia|].
  unfold bind at 1. unfold get at 1.
  rewrite !bool_decide_eq_true_2 by done. cbn [negb].
  unfold bind at 1. rewrite (get_account_present _ _ _ _ Hbg Hd).
  unfold bind at 1. rewrite (get_account_present _ _ _ _ Hbr Hd).
  rewrite bool_decide_eq_false_2 by done.
  unfold bind at 1. rewrite (get_balance_some _ _ _ Hbg).
  destruct (Z.ltb_spec bg amount); [lia|].
  unfold bind at 1.
  rewrite (withdraw_spec giver amount bg _ now1 w Hbg) by lia.
  replace (Z.abs amount) with amount by lia.
  set (t1 := tx_object giver (- amount) _ 0 now1).
  set (w1 := recorded t1 now1 _).
  assert (Hacc1 : accounts w1 = <[giver := bg - amount]> (accounts w)).
  { subst w1. by rewrite recorded_accounts. }
  assert (Hbr1 : accounts w1 !! receiver = Some br).
  { rewrite Hacc1. by rewrite lookup_insert_ne. }
  unfold bind at 1.
  rewrite (deposit_spec receiver amount br _ now2 w1 Hbr1) by lia.
  set (t2 := tx_object receiver amount _ 0 now2).
  set (w2 := recorded t2 now2 _).
  assert (He1 : effective_config w1 = effective_config w).
  { subst w1. rewrite recorded_effective_config. done. }
  assert (He2 : effective_config w2 = effective_config w).
  { subst w2. rewrite recorded_effective_config.
    rewrite (effective_config_same w1) by done. done. }
  assert (Hacc2 : accounts w2
                  = <[receiver := br + amount]> (<[giver := bg - amount]> (accounts w))).
  { subst w2. rewrite recorded_accounts, accounts_set_accounts. by rewrite Hacc1. }
  unfold bind at 1. rewrite (config_text_lookup "Currency" c) by (by rewrite He2).
  exists w2, t2, (total_of w (account_holders gm w)).
  split; [done|]. split; [done|]. split; [done|]. split; [done|].
  split; [by apply (total_balance_eq gm d)|].
  rewrite (total_balance_eq gm d w2) by (by rewrite He2). do 2 f_equal.
  assert (Hdom : account_holders gm w2 = account_holders gm w).
  { apply holders_same_domain. intros m. rewrite Hacc2.
    rewrite !lookup_insert_is_Some.
    split.
    - intros [<-|[_ [<-|[_ Hx]]]]; [by eexists | by eexists | done].
    - intros Hs. destruct (decide (receiver = m)); [by left|]. right.
      split; [done|]. destruct (decide (giver = m)); [by left|]. by right. }
  rewrite Hdom.
  set (wm := set_accounts <[giver := bg - amount]> w).
  assert (Hhold : ∀ u, u ∈ gm → is_Some (accounts w !! u) → u ∈ account_holders gm w).
  { intros u Hu Hs. apply list_elem_of_filter. done. }
  assert (Hndh : NoDup (account_holders gm w)) by (by apply NoDup_filter).
  rewrite (total_of_update wm w2 _ receiver br (br + amount)); first last.
  { intros m Hm. rewrite Hacc2. by rewrite lookup_insert_ne. }
  { rewrite Hacc2. apply lookup_insert_eq. }
  { unfold wm. rewrite accounts_set_accounts. by rewrite lookup_insert_ne. }
  { apply Hhold; [done | by eexists]. }
  { done. }
  rewrite (total_of_update w wm _ giver bg (bg - amount)); first last.
  { intros m Hm. unfold wm. rewrite accounts_set_accounts. by rewrite lookup_insert_ne. }
  { unfold wm. rewrite accounts_set_accounts. apply lookup_insert_eq. }
  { done. }
  { apply Hhold; [done | by eexists]. }
  { done. }
  lia.
Qed.

(** X14: the average balance is the total of the listed accounts divided
    by their number, rounded down; in a guild where no listed member holds an
    account the division raises [ZeroDivisionError]. *)
Theorem average_balance_spec (w : world) (gm : list Z) (d : Z) :
  effective_config w !! "DefaultBalance" = Some (CfgInt d) →
  let holders := account_holders gm w in
  (holders = [] →
   Bank.get_guild_average_balance gm w = (w, inl ZeroDivisionError)) ∧
  (holders ≠ [] →
   ∃ avg, Bank.get_guild_average_balance gm w = (w, inr avg) ∧
          avg * Z.of_nat (length holders) ≤ total_of w holders
          < (avg + 1) * Z.of_nat (length holders)).
Proof.
  intros Hd holders.
  assert (Heq : Bank.get_guild_average_balance gm w
                = if bool_decide (holders = []) then (w, inl ZeroDivisionError)
                  else (w, inr (total_of w holders / Z.of_nat (length holders)))).
  { unfold Bank.get_guild_average_balance.
    unfold bind at 1. rewrite (get_accounts_eq gm d w Hd).
    unfold bind at 1. rewrite (map_M_balances _ w (holders_have_accounts gm w)).
    fold holders. by destruct (bool_decide (holders = [])). }
  rewrite Heq. split.
  - intros ->. done.
  - intros Hne. rewrite bool_decide_eq_false_2 by done.
    eexists. split; [done|].
    assert (0 < Z.of_nat (length holders)) by (destruct holders; [done | simpl; lia]).
    pose proof (Z.mul_div_le (total_of w holders) (Z.of_nat (length holders))).
    pose proof (Z.mul_succ_div_gt (total_of w holders) (Z.of_nat (length holders))).
    lia.
Qed.

(** ** Accounts sorted by balance *)

Lemma insert_sorted_perm {A} (reverse : bool) (x : A * Z) (l : list (A * Z)) :
  insert_sorted reverse x l ≡ₚ x :: l.
Proof.
  induction l as [|y l IH]; simpl; [done|].
  destruct (if reverse then _ else _); [|done].
  rewrite IH. apply Permutation_swap.
Qed.

Lemma sorted_by_key_perm {A} (reverse : bool) (l : list (A * Z)) :
  sorted_by_key reverse l ≡ₚ l.
Proof.
  unfold sorted_by_key. induction l as [|x l IH]; simpl; [done|].
  by rewrite insert_sorted_perm, IH.
Qed.

Lemma insert_sorted_desc {A} (x : A * Z) (l : list (A * Z)) :
  StronglySorted (λ a b, snd b ≤ snd a) l →
  StronglySorted (λ a b, snd b ≤ snd a) (insert_sorted true x l).
Proof.
  induction 1 as [|y l Hs IH Hy]; simpl.
  - constructor; [constructor | constructor].
  - destruct (Z.ltb_spec (snd x) (snd y)).
    + constructor; [done|].
      rewrite insert_sorted_perm. constructor; [lia | done].
    + constructor; [by constructor|].
      constructor; [lia|].
      eapply Forall_impl; [exact Hy|]. simpl. intros; lia.
Qed.

Lemma sorted_by_key_desc {A} (l : list (A * Z)) :
  StronglySorted (λ a b, snd b ≤ snd a) (sorted_by_key true l).
Proof.
  unfold sorted_by_key. induction l as [|x l IH]; simpl; [constructor|].
  by apply insert_sorted_desc.
Qed.

Lemma sorted_fst {A} (f : A → Z) (l : list (A * Z)) :
  Forall (λ p, snd p = f (fst p)) l →
  StronglySorted (λ a b, snd b ≤ snd a) l →
  StronglySorted (λ a b, f b ≤ f a) (map fst l).
Proof.
  intros Hf Hs. induction Hs as [|y l Hs IH Hy]; simpl; [constructor|].
  apply Forall_cons in Hf as [Hfy Hf].
  constructor; [by apply IH|].
  apply Forall_fmap. apply Forall_forall. intros z Hz. simpl.
  rewrite Forall_forall in Hy, Hf. rewrite <- (Hf z Hz), <- Hfy. by apply Hy.
Qed.

Lemma accounts_by_balance_eq (gm : list Z) (d : Z) (w : world) :
  effective_config w !! "DefaultBalance" = Some (CfgInt d) →
  ∃ l, Bank.get_accounts_by_balance gm true w = (w, inr l) ∧
       l ≡ₚ account_holders gm w ∧
       StronglySorted (λ a b, balance_of w b ≤ balance_of w a) l.
Proof.
  intros Hd. unfold Bank.get_accounts_by_balance.
  unfold bind at 1. rewrite (get_accounts_eq gm d w Hd).
  unfold bind at 1. rewrite (map_M_balances _ w (holders_have_accounts gm w)).
  set (h := account_holders gm w).
  assert (Hzip : zip h (map (balance_of w) h) = map (λ m, (m, balance_of w m)) h).
  { induction h as [|m h IH]; simpl; [done|]. by rewrite IH. }
  rewrite Hzip. eexists. split; [done|]. split.
  - rewrite sorted_by_key_perm. rewrite <- list_fmap_compose.
    by rewrite list_fmap_id.
  - apply sorted_fst; [|apply sorted_by_key_desc].
    rewrite sorted_by_key_perm. apply Forall_fmap. by apply Forall_true.
Qed.

Lemma sorted_around {A} (f : A → Z) (l : list A) (k : nat) (x : A) :
  StronglySorted (λ a b, f b ≤ f a) l →
  l !! k = Some x →
  Forall (λ y, f x ≤ f y) (take (S k) l) ∧ Forall (λ y, f y ≤ f x) (drop k l).
Proof.
  intros Hs. revert k. induction Hs as [|y l Hs IH Hy]; intros k Hk; [done|].
  destruct k as [|k]; simpl in Hk.
  - injection Hk as ->. simpl. split.
    + rewrite take_0. constructor; [lia | constructor].
    + constructor; [lia | done].
  - destruct (IH k Hk) as [H1 H2]. split.
    + cbn [take]. constructor; [|done].
      rewrite Forall_forall in Hy. apply Hy. by eapply list_elem_of_lookup_2.
    + done.
Qed.

Lemma count_at_least {A} (P : A → Prop) `{∀ x, Decision (P x)} (l : list A) (k : nat) :
  Forall P (take k l) → (k ≤ length l)%nat → (k ≤ length (filter P l))%nat.
Proof.
  intros Hf Hk. rewrite <- (take_drop k l) at 1. rewrite filter_app, length_app.
  assert (E : filter P (take k l) = take k l).
  { induction Hf as [|x t Hx Hf IH]; [done|]. rewrite filter_cons_True by done.
    by rewrite IH. }
  rewrite E, length_take. lia.
Qed.

Lemma count_from {A} (P : A → Prop) `{∀ x, Decision (P x)} (l : list A) (k : nat) :
  Forall P (drop k l) → (length l - k ≤ length (filter P l))%nat.
Proof.
  intros Hf. rewrite <- (take_drop k l) at 2. rewrite filter_app, length_app.
  assert (E : filter P (drop k l) = drop k l).
  { induction Hf as [|x t Hx Hf IH]; [done|]. rewrite filter_cons_True by done.
    by rewrite IH. }
  rewrite E, length_drop. lia.
Qed.

Lemma count_at_most {A} (P : A → Prop) `{∀ x, Decision (P x)} (l : list A) (k : nat) :
  Forall (λ x, ¬ P x) (drop k l) → (length (filter P l) ≤ k)%nat.
Proof.
  intros Hf. rewrite <- (take_drop k l). rewrite filter_app, length_app.
  assert (E : filter P (drop k l) = []).
  { induction Hf as [|x t Hx Hf IH]; [done|]. by rewrite filter_cons_False. }
  rewrite E. simpl. pose proof (length_filter P (take k l)).
  rewrite length_take in *. lia.
Qed.

Lemma count_perm {A} (P : A → Prop) `{∀ x, Decision (P x)} (l1 l2 : list A) :
  l1 ≡ₚ l2 → length (filter P l1) = length (filter P l2).
Proof. intros Hp. by rewrite Hp. Qed.

Lemma py_index_nat {A} (l : list A) (k : nat) (x : A) :
  l !! k = Some x → py_index l (Z.of_nat k) = inr x.
Proof.
  intros H. unfold py_index.
  destruct (Z.ltb_spec (Z.of_nat k) 0); [lia|].
  destruct (Z.ltb_spec (Z.of_nat k) 0); [lia|].
  by rewrite Nat2Z.id, H.
Qed.

(** X15: the median balance is the balance of a listed account such that
    more than half of the listed accounts hold at least as much and at least
    half (rounded up) hold at most as much; with an even number of accounts
    it is the lower of the two middle balances.  With no listed account the
    lookup raises [IndexError]. *)
Theorem median_balance_spec (w : world) (gm : list Z) (d : Z) :
  effective_config w !! "DefaultBalance" = Some (CfgInt d) →
  let holders := account_holders gm w in
  let n := length holders in
  (holders = [] →
   Bank.get_guild_median_balance gm w = (w, inr (inl IndexError))) ∧
  (holders ≠ [] →
   ∃ m b,
     Bank.get_guild_median_balance gm w = (w, inr (inr b)) ∧
     m ∈ holders ∧ accounts w !! m = Some b ∧
     (n / 2 < length (filter (λ u, (b ≤ balance_of w u)%Z) holders))%nat ∧
     (n - n / 2 ≤ length (filter (λ u, (balance_of w u ≤ b)%Z) holders))%nat).
Proof.
  intros Hd holders n.
  destruct (accounts_by_balance_eq gm d w Hd) as (l & Hl & Hperm & Hsorted).
  fold holders in Hperm.
  assert (Hlen : length l = n) by (by rewrite Hperm).
  split.
  - intros Hnil. unfold Bank.get_guild_median_balance.
    unfold bind at 1. rewrite Hl.
    assert (l = []) as ->.
    { apply Permutation_nil_r. by rewrite <- Hnil. }
    done.
  - intros Hne.
    assert (Hn : (0 < n)%nat) by (subst n; destruct holders; [done | simpl; lia]).
    assert (Hk : (n / 2 < length l)%nat).
    { rewrite Hlen. apply Nat.div_lt; lia. }
    destruct (lookup_lt_is_Some_2 l (n / 2) Hk) as [m Hm].
    assert (Hmh : m ∈ holders).
    { rewrite <- Hperm. by eapply list_elem_of_lookup_2. }
    assert (Hacc : is_Some (accounts w !! m)).
    { by apply list_elem_of_filter in Hmh as [Hs _]. }
    destruct Hacc as [b Hb].
    assert (Hbal : balance_of w m = b) by (unfold balance_of; by rewrite Hb).
    exists m, b. split.
    { unfold Bank.get_guild_median_balance.
      unfold bind at 1. rewrite Hl.
      rewrite Hlen.
      assert (Hdiv : Z.of_nat n / 2 = Z.of_nat (n / 2)).
      { rewrite (Nat2Z.inj_div n 2). done. }
      rewrite Hdiv, (py_index_nat l (n / 2) m Hm).
      unfold bind at 1. by rewrite (get_balance_some m b w Hb). }
    split; [done|]. split; [done|].
    destruct (sorted_around (balance_of w) l (n / 2) m Hsorted Hm) as [H1 H2].
    rewrite Hbal in H1, H2.
    split.
    + rewrite <- (count_perm _ l holders Hperm).
      apply (count_at_least (λ u, b ≤ balance_of w u) l (S (n / 2))); [done | lia].
    + rewrite <- (count_perm _ l holders Hperm).
      pose proof (count_from (λ u, balance_of w u ≤ b) l (n / 2) H2). lia.
Qed.

Lemma index_found (u : Z) (l : list Z) :
  u ∈ l → ∃ p : nat, Bank.index u l = inr (Z.of_nat p) ∧ l !! p = Some u.
Proof.
  induction l as [|y l IH]; intros Hin; [by apply elem_of_nil in Hin|].
  simpl. destruct (decide (y = u)) as [->|Hne].
  - rewrite bool_decide_eq_true_2 by done. by exists O.
  - rewrite bool_decide_eq_false_2 by done.
    apply elem_of_cons in Hin as [->|Hin]; [done|].
    destruct (IH Hin) as (p & -> & Hp). exists (S p). split; [|done].
    f_equal. lia.
Qed.

Lemma index_missing (u : Z) (l : list Z) :
  u ∉ l → Bank.index u l = inl ValueError_not_in_list.
Proof.
  induction l as [|y l IH]; intros Hin; [done|].
  simpl. apply not_elem_of_cons in Hin as [Hne Hin].
  rewrite bool_decide_eq_false_2 by done. by rewrite IH.
Qed.

(** X16: the rank of a listed account is above the number of listed
    accounts with a strictly larger balance and at most the number of those
    with a balance at least as large, hence between 1 and the number of
    listed accounts; for a user who is not listed [list.index] raises
    [ValueError]. *)
Theorem account_rank_spec (w : world) (gm : list Z) (d u : Z) :
  effective_config w !! "DefaultBalance" = Some (CfgInt d) →
  let holders := account_holders gm w in
  (u ∉ holders →
   Bank.get_account_rank u gm w = (w, inr (inl ValueError_not_in_list))) ∧
  (u ∈ holders →
   ∃ r, Bank.get_account_rank u gm w = (w, inr (inr r)) ∧
        Z.of_nat (length (filter (λ m, balance_of w u < balance_of w m) holders)) < r ∧
        r ≤ Z.of_nat (length (filter (λ m, balance_of w u ≤ balance_of w m) holders)) ∧
        1 ≤ r ≤ Z.of_nat (length holders)).
Proof.
  intros Hd holders.
  destruct (accounts_by_balance_eq gm d w Hd) as (l & Hl & Hperm & Hsorted).
  fold holders in Hperm.
  split.
  - intros Hu. unfold Bank.get_account_rank. unfold bind at 1. rewrite Hl.
    rewrite index_missing; [done|]. by rewrite Hperm.
  - intros Hu.
    destruct (index_found u l) as (p & Hidx & Hp); [by rewrite Hperm|].
    exists (Z.of_nat p + 1). split.
    { unfold Bank.get_account_rank. unfold bind at 1. rewrite Hl. by rewrite Hidx. }
    destruct (sorted_around (balance_of w) l p u Hsorted Hp) as [H1 H2].
    pose proof (lookup_lt_Some _ _ _ Hp) as Hlt.
    assert (Hlen : length l = length holders) by (by rewrite Hperm).
    split; [|split; [|lia]].
    + rewrite <- (count_perm _ l holders Hperm).
      pose proof (count_at_most (λ m, balance_of w u < balance_of w m) l p) as Hc.
      assert (Forall (λ x, ¬ (λ m, balance_of w u < balance_of w m) x) (drop p l)).
      { eapply Forall_impl; [exact H2|]. simpl. intros; lia. }
      specialize (Hc H). lia.
    + rewrite <- (count_perm _ l holders Hperm).
      pose proof (count_at_least (λ m, balance_of w u ≤ balance_of w m) l (S p) H1).
      lia.
Qed.

(** ** The last transactions of a guild *)

Lemma last_transactions_eq (w : world) (gm : list Z) (limit : option Z) (now : Z) :
  derived_ids (transactions w) = true →
  retained now (transactions w) = true →
  let ordered := Store.order_by_timestamp_desc (transactions w) in
  let window := match limit with
                | Some n => if 0 <? n then take (Z.to_nat n) ordered else ordered
                | None => ordered
                end in
  ∃ lc,
    Bank.get_last_transactions gm limit now w
    = (set_last_cleanup lc w,
       inr (map (λ r, Transaction.mk (row_user_id r) (row_amount r) (row_reason r)
                        (row_timestamp r) (row_id r))
              (filter (λ r, row_user_id r ∈ gm) window))) ∧
    (∀ r, r ∈ window → r ∈ transactions w) ∧
    StronglySorted (λ a b, row_timestamp b ≤ row_timestamp a) window.
Proof.
  intros Hd Hr ordered window.
  assert (Hsub : ∀ r, r ∈ window → r ∈ transactions w).
  { intros r Hin. apply (elem_of_order_by r (transactions w)). fold ordered.
    unfold window in Hin. destruct limit as [n|]; [|done].
    destruct (0 <? n); [|done]. by apply (subseteq_take (Z.to_nat n) ordered). }
  assert (Hsorted : StronglySorted (λ a b, row_timestamp b ≤ row_timestamp a) window).
  { pose proof (order_by_sorted (transactions w)) as Hs. fold ordered in Hs.
    unfold window. destruct limit as [n|]; [|done].
    destruct (0 <? n); [|done].
    rewrite <- (take_drop (Z.to_nat n) ordered) in Hs.
    by apply StronglySorted_app_1_l in Hs. }
  destruct (rebuild_spec gm now window w Hd Hr Hsub) as [lc Hlc].
  exists lc. split; [|done].
  assert (Hsel : (match limit with
                  | Some n => if n =? 0 then Store.transactions_select_all None
                              else Store.transactions_select_all (Some n)
                  | None => Store.transactions_select_all None
                  end) w = (w, inr window)).
  { unfold window, Store.transactions_select_all. fold ordered.
    destruct limit as [n|]; [|done].
    destruct (Z.eqb_spec n 0) as [->|Hn]; [done|].
    unfold bind, get, ret.
    destruct (Z.ltb_spec n 0), (Z.ltb_spec 0 n); try done; lia. }
  unfold Bank.get_last_transactions. unfold bind at 1. rewrite Hsel, Hlc.
  f_equal. f_equal. apply map_ext_in. intros r Hin.
  apply list_elem_of_In, list_elem_of_filter in Hin as [_ Hin].
  apply Hsub in Hin. destruct (derived_ids_row _ _ Hd Hin) as [Hid Hts].
  unfold tx_object. destruct (Z.eqb_spec (row_timestamp r) 0); [done|].
  by rewrite Hid.
Qed.

(** X30: [get_last_transactions] returns the transactions of the listed
    members among the [limit] most recent rows of the ledger, the most
    recent first: the rows of users who are not listed count against the
    limit, and a limit of [None], of 0 or below 0 is no limit.
    [get_transactions_by_amount] returns the same transactions as the
    unlimited listing, the largest amount first. *)
Theorem last_transactions_spec (w : world) (gm : list Z) (limit : option Z)
    (now : Z) :
  derived_ids (transactions w) = true →
  retained now (transactions w) = true →
  let ordered := Store.order_by_timestamp_desc (transactions w) in
  let window := match limit with
                | Some n => if 0 <? n then take (Z.to_nat n) ordered else ordered
                | None => ordered
                end in
  (∃ w' l,
     Bank.get_last_transactions gm limit now w = (w', inr l) ∧
     transactions w' = transactions w ∧ accounts w' = accounts w ∧
     map tx_row_of l = filter (λ r, row_user_id r ∈ gm) window ∧
     StronglySorted (λ a b, Transaction.timestamp b ≤ Transaction.timestamp a) l) ∧
  (∃ w' l0 l,
     Bank.get_last_transactions gm None now w = (w', inr l0) ∧
     Bank.get_transactions_by_amount gm true now w = (w', inr l) ∧
     l ≡ₚ l0 ∧
     StronglySorted (λ a b, Transaction.amount b ≤ Transaction.amount a) l).
Proof.
  intros Hd Hr ordered window. split.
  - destruct (last_transactions_eq w gm limit now Hd Hr) as (lc & Hrun & Hsub & Hs).
    fold ordered in Hrun, Hsub, Hs. fold window in Hrun, Hsub, Hs.
    eexists _, _. split; [exact Hrun|]. split; [done|]. split; [done|]. split.
    + rewrite <- list_fmap_compose.
      rewrite <- (list_fmap_id (filter _ window)) at 2.
      apply map_ext_in. intros r Hin. simpl.
      unfold tx_row_of. simpl. by destruct r.
    + apply (sorted_map (λ a b, row_timestamp b ≤ row_timestamp a)); [done|].
      by apply sorted_filter.
  - destruct (last_transactions_eq w gm None now Hd Hr) as (lc & Hrun & _).
    eexists _, _, _. split; [exact Hrun|]. split.
    + unfold Bank.get_transactions_by_amount. unfold bind at 1. rewrite Hrun.
      reflexivity.
    + split.
      * rewrite sorted_by_key_perm. rewrite <- list_fmap_compose.
        by rewrite list_fmap_id.
      * apply sorted_fst; [|apply sorted_by_key_desc].
        rewrite sorted_by_key_perm. apply Forall_fmap. by apply Forall_true.
Qed.

(** ** Gifts between members *)





(** ** Balances set by an administrator *)

(** X7: [_configbank_reset] leaves the member with the configured default
    balance and [_configbank_setbalance] with the amount given, whether the
    member had an account before or not. *)
Theorem configbank_sets_balance (w : world) (user amount d now : Z)
    (admin_name : string) (c : cfg_value) :
  user ∈ members w →
  effective_config w !! "DefaultBalance" = Some (CfgInt d) → 0 ≤ d →
  effective_config w !! "Currency" = Some c →
  0 ≤ amount →
  (∃ w', Bank._configbank_reset user now w = (w', inr (Bank.Balance_set d)) ∧
         accounts w' = <[user := d]> (accounts w)) ∧
  (∃ w', Bank._configbank_setbalance user amount admin_name now w
         = (w', inr (Bank.Balance_set amount)) ∧
         accounts w' = <[user := amount]> (accounts w)).
Proof.
  intros Hm Hd Hd0 Hc Ha.
  set (w0 := set_accounts (λ acc,
       match acc !! user with
       | Some _ => acc
       | None => if 0 <=? d then <[user := d]> acc else acc
       end) w).
  assert (Hopen : get_account user w = (w0, inr user)).
  { unfold get_account, Account.init, Account.create_if_not_exists.
    unfold bind at 1. unfold bind at 1. by rewrite (config_int_lookup _ _ _ Hd). }
  assert (He0 : effective_config w0 = effective_config w)
    by (by apply effective_config_same).
  assert (Hb0 : ∃ b, accounts w0 !! user = Some b ∧
                     <[user := b]> (accounts w) = accounts w0).
  { subst w0. simpl. destruct (accounts w !! user) as [b|] eqn:Hb.
    - exists b. split; [done|]. by apply insert_id.
    - destruct (Z.leb_spec 0 d); [|lia]. exists d. split; [|done].
      apply lookup_insert_eq. }
  destruct Hb0 as (b & Hb & Hins).
  split.
  - unfold Bank._configbank_reset. unfold bind at 1. unfold get at 1.
    rewrite bool_decide_eq_true_2 by done. cbn [negb].
    unfold bind at 1. rewrite Hopen.
    unfold bind at 1. unfold Account.reset. unfold bind at 1.
    rewrite (config_int_lookup "DefaultBalance" d) by (by rewrite He0).
    rewrite (set_balance_spec user b d R_reset now w0 Hb Hd0).
    set (w1 := recorded _ now _).
    assert (He1 : effective_config w1 = effective_config w).
    { subst w1. rewrite recorded_effective_config.
      by rewrite (effective_config_same w0). }
    unfold bind at 1.
    rewrite (config_int_lookup "DefaultBalance" d) by (by rewrite He1).
    unfold bind at 1.
    rewrite (config_text_lookup "Currency" c) by (by rewrite He1).
    exists w1. split; [done|].
    subst w1. rewrite recorded_accounts, accounts_set_accounts, <- Hins.
    by rewrite insert_insert_eq.
  - unfold Bank._configbank_setbalance. unfold bind at 1. unfold get at 1.
    rewrite bool_decide_eq_true_2 by done. cbn [negb].
    unfold bind at 1. rewrite Hopen.
    unfold bind at 1. unfold Account.set.
    destruct (Z.ltb_spec amount 0); [lia|].
    rewrite (set_balance_spec user b amount _ now w0 Hb Ha).
    set (w1 := recorded _ now _).
    assert (He1 : effective_config w1 = effective_config w).
    { subst w1. rewrite recorded_effective_config.
      by rewrite (effective_config_same w0). }
    unfold bind at 1.
    rewrite (config_text_lookup "Currency" c) by (by rewrite He1).
    exists w1. split; [done|].
    subst w1. rewrite recorded_accounts, accounts_set_accounts, <- Hins.
    by rewrite insert_insert_eq.
Qed.

(** ** The pages of the history view *)

Lemma page_loop_spec (l : list Transaction.t)
    (st : list (list Transaction.t) * list Transaction.t) :
  (length st.2 ≤ 20)%nat →
  Forall (λ p, length p = 20%nat) st.1 →
  let st' := foldl TransactionsHistoryView.page_step st l in
  concat st'.1 ++ st'.2 = concat st.1 ++ st.2 ++ listed_from (length st.2) l ∧
  (length st'.2 ≤ 20)%nat ∧
  Forall (λ p, length p = 20%nat) st'.1.
Proof.
  revert st. induction l as [|x l IH]; intros [E T] HT HE; cbv zeta in *;
    cbn [fst snd] in HT, HE.
  - cbn [foldl fst snd listed_from]. by rewrite app_nil_r.
  - cbn [foldl].
    assert (Hstep : TransactionsHistoryView.page_step (E, T) x
                    = if (length T <? 20)%nat then (E, T ++ [x]) else (E ++ [T], []))
      by done.
    rewrite Hstep. cbn [fst snd listed_from].
    destruct (Nat.ltb_spec (length T) 20).
    + destruct (IH (E, T ++ [x])) as (H1 & H2 & H3).
      { cbn [snd]. rewrite length_app. simpl. lia. }
      { done. }
      cbn [fst snd] in H1. rewrite H1. split; [|done].
      rewrite length_app. simpl. rewrite Nat.add_1_r. by rewrite <- !app_assoc.
    + destruct (IH (E ++ [T], [])) as (H1 & H2 & H3).
      { simpl. lia. }
      { cbn [fst]. apply Forall_app. split; [done|]. constructor; [lia | constructor]. }
      cbn [fst snd] in H1. rewrite H1. split; [|done].
      rewrite concat_app. simpl. by rewrite app_nil_r, <- app_assoc.
Qed.

Lemma get_pages_concat (l : list Transaction.t) (dt : TransactionsHistoryView.display) :
  concat (TransactionsHistoryView.get_pages l dt) = listed_from 0 l ∧
  Forall (λ p, (0 < length p ≤ 20)%nat) (TransactionsHistoryView.get_pages l dt).
Proof.
  unfold TransactionsHistoryView.get_pages.
  destruct (page_loop_spec l ([], [])) as (H1 & H2 & H3); [simpl; lia | done |].
  simpl in H1.
  destruct (foldl TransactionsHistoryView.page_step ([], []) l) as [E T].
  simpl in *.
  assert (HE : Forall (λ p, (0 < length p ≤ 20)%nat) E).
  { eapply Forall_impl; [exact H3|]. simpl. intros; lia. }
  destruct T as [|t T].
  - rewrite app_nil_r in H1. done.
  - split.
    + rewrite concat_app. simpl. by rewrite app_nil_r.
    + apply Forall_app. split; [done|]. constructor; [simpl in *; lia | constructor].
Qed.

Lemma listed_from_seq (s : nat) (l : list Transaction.t) :
  listed_from (s mod 21) l
  = map snd (filter (λ p, (fst p mod 21 ≠ 20)%nat) (zip (seq s (length l)) l)).
Proof.
  revert s. induction l as [|x l IH]; intros s; [done|].
  cbn [listed_from length seq zip zip_with].
  pose proof (Nat.mod_upper_bound s 21 ltac:(lia)) as Hb.
  destruct (Nat.ltb_spec (s mod 21) 20).
  - rewrite filter_cons_True by (cbn [fst]; lia). cbn [map snd]. f_equal.
    rewrite <- IH. f_equal.
    apply (Nat.mod_unique (S s) 21 (s / 21)); [lia|].
    pose proof (Nat.div_mod_eq s 21). lia.
  - rewrite filter_cons_False by (cbn [fst]; lia).
    rewrite <- IH. f_equal.
    apply (Nat.mod_unique (S s) 21 (S (s / 21))); [lia|].
    pose proof (Nat.div_mod_eq s 21). lia.
Qed.

Lemma listed_from_length (k : nat) (l : list Transaction.t) :
  (k ≤ 20)%nat →
  Z.of_nat (length (listed_from k l))
  = Z.of_nat (length l) - (Z.of_nat (length l) + Z.of_nat k) / 21.
Proof.
  revert k. induction l as [|x l IH]; intros k Hk.
  - simpl. rewrite Z.div_small; lia.
  - cbn [listed_from length]. destruct (Nat.ltb_spec k 20).
    + cbn [length]. rewrite !Nat2Z.inj_succ, IH by lia.
      rewrite Nat2Z.inj_succ.
      replace (Z.succ (Z.of_nat (length l)) + Z.of_nat k)
        with (Z.of_nat (length l) + Z.succ (Z.of_nat k)) by lia. lia.
    + assert (k = 20%nat) as -> by lia.
      rewrite IH by lia. rewrite Nat2Z.inj_succ.
      replace (Z.succ (Z.of_nat (length l)) + Z.of_nat 20)
        with (Z.of_nat (length l) + 0 + 1 * 21) by lia.
      rewrite Z.div_add by lia. simpl Z.of_nat. lia.
Qed.

Lemma page_loop_short (l T : list Transaction.t) :
  (length T + length l ≤ 20)%nat →
  foldl TransactionsHistoryView.page_step ([], T) l = ([], T ++ l).
Proof.
  revert T. induction l as [|x l IH]; intros T H; simpl in *.
  - by rewrite app_nil_r.
  - unfold TransactionsHistoryView.page_step at 2. cbn [fst snd].
    destruct (Nat.ltb_spec (length T) 20); [|lia].
    rewrite IH by (rewrite length_app; simpl; lia). by rewrite <- app_assoc.
Qed.

Lemma get_pages_short (l : list Transaction.t) (dt : TransactionsHistoryView.display) :
  (length l ≤ 20)%nat →
  TransactionsHistoryView.get_pages l dt
  = match l with
    | [] => []
    | _ :: _ => [l]
    end.
Proof.
  intros H. unfold TransactionsHistoryView.get_pages.
  rewrite page_loop_short by (simpl; lia). simpl. by destruct l.
Qed.

(** X18: the pages of the history list the transactions in order, at most
    20 on a page and at least one; every 21st transaction opens the next
    page without being listed on any, so [n] transactions leave
    [n - n / 21] rows.  With at most 20 transactions nothing is lost. *)
Theorem history_pages_rows (l : list Transaction.t)
    (dt : TransactionsHistoryView.display) :
  let pages := TransactionsHistoryView.get_pages l dt in
  concat pages = listed_rows l ∧
  Forall (λ p, (0 < length p ≤ 20)%nat) pages ∧
  Z.of_nat (length (concat pages)) = Z.of_nat (length l) - Z.of_nat (length l) / 21 ∧
  ((length l ≤ 20)%nat → concat pages = l) ∧
  (∀ x, l !! 20%nat = Some x → (20 < length l)%nat ∧
        concat pages = take 20 l ++ concat (TransactionsHistoryView.get_pages (drop 21 l) dt)).
Proof.
  intros pages. subst pages.
  destruct (get_pages_concat l dt) as [Hc Hf].
  split.
  { rewrite Hc. unfold listed_rows. by rewrite <- (listed_from_seq 0 l). }
  split; [done|].
  split.
  { rewrite Hc, listed_from_length by lia. by rewrite Z.add_0_r. }
  split.
  { intros H. rewrite get_pages_short by done. destruct l; [done|]. simpl.
    by rewrite app_nil_r. }
  intros x Hx. pose proof (lookup_lt_Some _ _ _ Hx) as Hlen. split; [done|].
  rewrite Hc. destruct (get_pages_concat (drop 21 l) dt) as [-> _].
  assert (Hgen : ∀ k (t : list Transaction.t),
            (k + length t = 20)%nat →
            ∀ y r, listed_from k (t ++ y :: r) = t ++ listed_from 0 r).
  { intros k t. revert k. induction t as [|z t IH]; intros k Hk y r.
    - simpl in *. destruct (Nat.ltb_spec k 20); [lia | done].
    - cbn [app listed_from]. simpl in Hk.
      destruct (Nat.ltb_spec k 20); [|lia].
      f_equal. apply IH. lia. }
  rewrite <- (take_drop 20 l) at 1.
  rewrite (drop_S l x 20 Hx).
  replace (drop 21 l) with (drop (S 20) l) by done.
  apply Hgen. rewrite length_take. lia.
Qed.

(** ** The view that the history command opens *)

Lemma map_M_init_length (owner now : Z) (rows : list tx_row) (w : world) :
  ∃ w' l,
    map_M (λ row, Transaction.init owner (row_amount row) (row_reason row)
                    (row_timestamp row) now) rows w = (w', inr l) ∧
    length l = length rows.
Proof.
  revert w. induction rows as [|r rows IH]; intros w.
  - by eexists _, _.
  - simpl. unfold bind at 1. rewrite init_spec.
    destruct (IH (recorded (tx_object owner (row_amount r) (row_reason r)
                              (row_timestamp r) now) now w)) as (w' & l & Hl & Hlen).
    unfold bind at 1. rewrite Hl. eexists _, _. split; [done|]. simpl. by rewrite Hlen.
Qed.

(** X19: the view that the history command opens holds at most five
    transactions of the account, hence at most one page, which lists them
    all; both paging buttons start disabled. *)
Theorem history_view_single_page (w : world) (account now : Z) :
  ∃ w' v,
    TransactionsHistoryView.init account now w = (w', inr v) ∧
    (length (TransactionsHistoryView.transactions v) ≤ 5)%nat ∧
    (length (TransactionsHistoryView.pages v) ≤ 1)%nat ∧
    concat (TransactionsHistoryView.pages v) = TransactionsHistoryView.transactions v ∧
    TransactionsHistoryView.current_page v = 0 ∧
    TransactionsHistoryView.previous_disabled v = true ∧
    TransactionsHistoryView.next_disabled v = true.
Proof.
  unfold TransactionsHistoryView.init, Account.get_transactions.
  cbn [Z.eqb]. unfold Store.transactions_select_user.
  unfold bind at 1. unfold bind at 1. unfold bind at 1.
  unfold get at 1. unfold ret at 1. cbn [Z.ltb Z.compare].
  set (rows := take (Z.to_nat 5) _).
  destruct (map_M_init_length account now rows w) as (w' & l & Hl & Hlen).
  rewrite Hl. eexists _, _. split; [done|].
  cbn [TransactionsHistoryView.transactions TransactionsHistoryView.pages
       TransactionsHistoryView.current_page TransactionsHistoryView.previous_disabled
       TransactionsHistoryView.next_disabled].
  assert (H5 : (length l ≤ 5)%nat).
  { rewrite Hlen. unfold rows. rewrite length_take. lia. }
  rewrite get_pages_short by lia.
  split; [done|].
  destruct l as [|t l]; simpl; [repeat split; lia|].
  rewrite app_nil_r. repeat split; lia.
Qed.

(** ** Turning the pages *)


(** X20: whatever buttons are pressed on a view whose current page exists,
    the pages are the same afterwards and the current page still exists, so
    showing it never raises [IndexError]; after any press the button
    [previous] is disabled exactly on the first page and the button [next]
    exactly on the last. *)
Theorem history_buttons_keep_page_valid (v : TransactionsHistoryView.t)
    (bs : list button) :
  TransactionsHistoryView.pages v
  = TransactionsHistoryView.get_pages (TransactionsHistoryView.transactions v)
      (TransactionsHistoryView.display_type v) →
  0 ≤ TransactionsHistoryView.current_page v
    < Z.of_nat (length (TransactionsHistoryView.pages v)) →
  let v' := foldl press v bs in
  TransactionsHistoryView.pages v' = TransactionsHistoryView.pages v ∧
  0 ≤ TransactionsHistoryView.current_page v'
    < Z.of_nat (length (TransactionsHistoryView.pages v')) ∧
  (∃ page, TransactionsHistoryView.shown v' = inr page) ∧
  (bs ≠ [] →
   (TransactionsHistoryView.previous_disabled v' = true
    ↔ TransactionsHistoryView.current_page v' = 0) ∧
   (TransactionsHistoryView.next_disabled v' = true
    ↔ TransactionsHistoryView.current_page v' + 1
      = Z.of_nat (length (TransactionsHistoryView.pages v')))).
Proof.
  intros Hp Hc.
  assert (Hdt : ∀ l d1 d2, TransactionsHistoryView.get_pages l d1
                           = TransactionsHistoryView.get_pages l d2) by done.
  assert (Hstep : ∀ u b,
    TransactionsHistoryView.pages u
    = TransactionsHistoryView.get_pages (TransactionsHistoryView.transactions u)
        (TransactionsHistoryView.display_type u) →
    0 ≤ TransactionsHistoryView.current_page u
      < Z.of_nat (length (TransactionsHistoryView.pages u)) →
    TransactionsHistoryView.pages (press u b) = TransactionsHistoryView.pages u ∧
    TransactionsHistoryView.transactions (press u b)
    = TransactionsHistoryView.transactions u ∧
    0 ≤ TransactionsHistoryView.current_page (press u b)
      < Z.of_nat (length (TransactionsHistoryView.pages u)) ∧
    (TransactionsHistoryView.previous_disabled (press u b) = true
     ↔ TransactionsHistoryView.current_page (press u b) = 0) ∧
    (TransactionsHistoryView.next_disabled (press u b) = true
     ↔ TransactionsHistoryView.current_page (press u b) + 1
       = Z.of_nat (length (TransactionsHistoryView.pages u)))).
  { intros u b Hpu Hcu. destruct b; simpl.
    - split; [done|]. split; [done|]. split; [lia|].
      rewrite Z.eqb_eq, Z.leb_le. lia.
    - rewrite (Hdt _ _ (TransactionsHistoryView.display_type u)), <- Hpu.
      split; [done|]. split; [done|]. split; [lia|].
      rewrite Z.eqb_eq, Z.leb_le. lia.
    - split; [done|]. split; [done|]. split; [lia|].
      rewrite Z.eqb_eq, Z.leb_le. lia. }
  assert (Hinv : ∀ bs u,
    TransactionsHistoryView.pages u
    = TransactionsHistoryView.get_pages (TransactionsHistoryView.transactions u)
        (TransactionsHistoryView.display_type u) →
    0 ≤ TransactionsHistoryView.current_page u
      < Z.of_nat (length (TransactionsHistoryView.pages u)) →
    TransactionsHistoryView.pages (foldl press u bs) = TransactionsHistoryView.pages u ∧
    0 ≤ TransactionsHistoryView.current_page (foldl press u bs)
      < Z.of_nat (length (TransactionsHistoryView.pages u)) ∧
    (bs ≠ [] →
     (TransactionsHistoryView.previous_disabled (foldl press u bs) = true
      ↔ TransactionsHistoryView.current_page (foldl press u bs) = 0) ∧
     (TransactionsHistoryView.next_disabled (foldl press u bs) = true
      ↔ TransactionsHistoryView.current_page (foldl press u bs) + 1
        = Z.of_nat (length (TransactionsHistoryView.pages u))))).
  { intros bs'. induction bs' as [|b bs' IH] using rev_ind; intros u Hpu Hcu.
    - simpl. split; [done|]. split; [done|]. done.
    - rewrite foldl_app. simpl.
      destruct (IH u Hpu Hcu) as (Hp1 & Hc1 & _).
      assert (Htr : ∀ bs0 u0,
                TransactionsHistoryView.transactions (foldl press u0 bs0)
                = TransactionsHistoryView.transactions u0
                ∧ (TransactionsHistoryView.pages u0
                   = TransactionsHistoryView.get_pages
                       (TransactionsHistoryView.transactions u0)
                       (TransactionsHistoryView.display_type u0) →
                   TransactionsHistoryView.pages (foldl press u0 bs0)
                   = TransactionsHistoryView.get_pages
                       (TransactionsHistoryView.transactions (foldl press u0 bs0))
                       (TransactionsHistoryView.display_type (foldl press u0 bs0)))).
      { intros bs0. induction bs0 as [|b0 bs0 IH0] using rev_ind; intros u0; [done|].
        rewrite foldl_app. simpl. destruct (IH0 u0) as [E1 E2].
        split.
        - rewrite <- E1. by destruct b0.
        - intros Hpu0. specialize (E2 Hpu0).
          destruct b0; simpl; try done. }
      destruct (Htr bs' u) as [Ht1 Ht2]. specialize (Ht2 Hpu).
      destruct (Hstep (foldl press u bs') b Ht2) as (H1 & H2 & H3 & H4 & H5).
      { by rewrite Hp1. }
      rewrite Hp1 in *. split; [done|]. split; [done|]. intros _. done. }
  intros v'. subst v'.
  destruct (Hinv bs v Hp Hc) as (H1 & H2 & H3).
  split; [done|]. rewrite H1. split; [done|]. split; [|done].
  unfold TransactionsHistoryView.shown. rewrite H1.
  destruct (lookup_lt_is_Some_2 (TransactionsHistoryView.pages v)
              (Z.to_nat (TransactionsHistoryView.current_page (foldl press v bs))))
    as [page Hpage]; [lia|].
  exists page.
  rewrite <- (Z2Nat.id (TransactionsHistoryView.current_page (foldl press v bs))) by lia.
  by apply py_index_nat.
Qed.


(** ** Joining and splitting the choices of a session *)

Lemma split_join (sep : ascii) (l : list (list ascii)) :
  l ≠ [] →
  Forall (λ x, free_of (λ c, Ascii.eqb c sep) x = true) l →
  Str.split sep (Str.join [sep] l) = l.
Proof.
  intros Hne Hl. induction Hl as [|x l Hx Hl IH]; [done|].
  destruct l as [|y l].
  - simpl. by apply split_no_sep.
  - change (Str.join [sep] (x :: y :: l)) with (x ++ sep :: Str.join [sep] (y :: l)).
    rewrite split_app_sep by done. f_equal. by apply IH.
Qed.

Lemma split_any_free (cls : ascii → bool) (s : list ascii) :
  Forall (λ x, free_of cls x = true) (Str.split_any cls s).
Proof.
  induction s as [|c s IH]; simpl.
  - constructor; [done | constructor].
  - destruct (cls c) eqn:Hc.
    + constructor; [done | exact IH].
    + destruct (Str.split_any cls s) as [|x xs].
      * constructor; [|constructor]. simpl. by rewrite Hc.
      * apply Forall_cons in IH as [Hx Hxs]. constructor; [|done].
        simpl. by rewrite Hc.
Qed.

Lemma free_of_lstrip (cls : ascii → bool) (s : list ascii) :
  free_of cls s = true → free_of cls (Str.lstrip s) = true.
Proof.
  unfold free_of. induction s as [|c s IH]; simpl; [done|].
  intros H. destruct (Str.is_space c); [|done].
  apply andb_true_iff in H as [_ H]. by apply IH.
Qed.

Lemma free_of_strip (cls : ascii → bool) (s : list ascii) :
  free_of cls s = true → free_of cls (Str.strip s) = true.
Proof.
  intros H. unfold Str.strip. unfold free_of. rewrite forallb_rev.
  apply free_of_lstrip. unfold free_of. rewrite forallb_rev.
  by apply free_of_lstrip.
Qed.

Lemma lower_char_idem (c : ascii) : Str.lower_char (Str.lower_char c) = Str.lower_char c.
Proof.
  destruct c as [[] [] [] [] [] [] [] []]; reflexivity.
Qed.

Lemma lower_idem (s : list ascii) : Str.lower (Str.lower s) = Str.lower s.
Proof.
  unfold Str.lower. rewrite <- list_fmap_compose. apply map_ext.
  intros c. apply lower_char_idem.
Qed.

Lemma lower_char_comma (c : ascii) :
  Ascii.eqb c "," = false → Ascii.eqb (Str.lower_char c) "," = false.
Proof.
  destruct c as [[] [] [] [] [] [] [] []]; done.
Qed.

Lemma free_of_comma_lower (s : list ascii) :
  free_of (λ c, Ascii.eqb c ",") s = true →
  free_of (λ c, Ascii.eqb c ",") (Str.lower s) = true.
Proof.
  unfold free_of, Str.lower. induction s as [|c s IH]; simpl; [done|].
  intros H. apply andb_true_iff in H as [Hc H]. apply negb_true_iff in Hc.
  rewrite (lower_char_comma c Hc). simpl. by apply IH.
Qed.

Lemma choices_of_free (choices : string) :
  Forall (λ x, free_of (λ c, Ascii.eqb c ",") x = true) (Gambling.choices_of choices)
  ∧ map Str.lower (Gambling.choices_of choices) = Gambling.choices_of choices.
Proof.
  unfold Gambling.choices_of.
  set (cls := λ c, Ascii.eqb c "," || Ascii.eqb c "|" || Ascii.eqb c ";").
  split.
  - apply Forall_fmap. apply Forall_forall. intros x Hx. simpl.
    apply list_elem_of_filter in Hx as [_ Hx].
    pose proof (split_any_free cls (Str.chars choices)) as Hf.
    rewrite Forall_forall in Hf. specialize (Hf x Hx).
    apply free_of_comma_lower, free_of_strip.
    unfold free_of in *. eapply forallb_impl; [|exact Hf].
    intros c Hc. simpl in Hc. unfold cls in Hc.
    apply negb_true_iff in Hc. apply orb_false_iff in Hc as [Hc _].
    apply orb_false_iff in Hc as [Hc _]. by rewrite Hc.
  - rewrite <- list_fmap_compose. apply map_ext. intros x. simpl. apply lower_idem.
Qed.

Lemma get_bet_eq (channel user : Z) (w : world) :
  Gambling.get_bet channel user w
  = (w, inr (head (filter (λ b, bet_channel_id b = channel ∧ bet_user_id b = user)
                     (bets w)))).
Proof. reflexivity. Qed.

Lemma get_betting_embed_no_bets (w : world) (channel : Z) (data : betting_row)
    (c : cfg_value) :
  bettings w !! channel = Some data →
  bets_of channel w = [] →
  effective_config w !! "Currency" = Some c →
  Gambling.get_betting_embed channel w = (w, inr tt).
Proof.
  intros Hd Hb Hc. unfold Gambling.get_betting_embed.
  unfold bind at 1. rewrite get_betting_eq, Hd.
  unfold bind at 1. rewrite (config_text_lookup "Currency" c w Hc).
  unfold bind at 1. by rewrite get_bets_eq, Hb.
Qed.

(** X21: [_start_gamble] in a channel without session, with a title and
    choices written in ASCII, a title of at most 100 characters and two to
    four choices, stores the session with the title, the minimal bet, the
    author and the message given; the stored text of the choices splits back
    into the choices as they were read (stripped, in lower case), which are
    therefore the choices that a bet or a result is checked against.
    Balances and bets are untouched. *)
Theorem start_gamble_stores_choices (w : world) (channel : Z) (title choices : string)
    (minimal_bet message author : Z) (c : cfg_value) :
  ascii_text (Str.chars title) = true →
  ascii_text (Str.chars choices) = true →
  bettings w !! channel = None →
  (String.length title ≤ 100)%nat →
  (2 ≤ length (Gambling.choices_of choices) ≤ 4)%nat →
  bets_of channel w = [] →
  effective_config w !! "Currency" = Some c →
  ∃ w' data,
    Gambling._start_gamble channel title choices minimal_bet message author w
    = (w', inr Gambling.Start_done) ∧
    Gambling.get_betting channel w' = (w', inr (Some data)) ∧
    bg_title data = title ∧ bg_minimal_bet data = minimal_bet ∧
    bg_author_id data = author ∧ bg_message_id data = message ∧
    Str.split "," (Str.chars (bg_choices data)) = Gambling.choices_of choices ∧
    accounts w' = accounts w ∧ bets w' = bets w.
Proof.
  intros _ _ Hnone Htitle Hlen Hbets Hc.
  destruct (choices_of_free choices) as [Hfree Hlow].
  set (chx := Gambling.choices_of choices) in *.
  set (data := mk_betting_row title
                 (String.string_of_list_ascii (Str.join (Str.chars ",") (map Str.lower chx)))
                 message minimal_bet author).
  set (w' := set_bettings <[channel := data]> w).
  assert (Hd' : bettings w' !! channel = Some data) by apply lookup_insert_eq.
  exists w', data. split.
  { unfold Gambling._start_gamble. unfold bind at 1. rewrite get_betting_eq, Hnone.
    destruct (Nat.ltb_spec 100 (String.length title)); [lia|].
    fold chx.
    destruct (Nat.ltb_spec (length chx) 2); [lia|].
    destruct (Nat.ltb_spec 4 (length chx)); [lia|]. cbn [orb].
    unfold bind at 1. unfold Gambling.set_betting, modify. fold data. fold w'.
    unfold bind at 1. unfold Gambling.update_display.
    unfold bind at 1. rewrite get_betting_eq, Hd'.
    by rewrite (get_betting_embed_no_bets w' channel data c). }
  split; [by rewrite get_betting_eq, Hd'|].
  repeat (split; [done|]).
  split; [|done].
  unfold data. cbn [bg_choices]. unfold Str.chars.
  rewrite String.list_ascii_of_string_of_list_ascii, Hlow.
  apply split_join; [|done].
  intros E. rewrite E in Hlen. simpl in Hlen. lia.
Qed.

(** ** Placing a bet *)

Lemma filter_key_map (channel user : Z) (choice : string) (amount : Z)
    (l : list bet_row) :
  map (λ b, (bet_channel_id b, bet_user_id b))
    (map (λ b, if bool_decide (bet_channel_id b = channel ∧ bet_user_id b = user)
               then mk_bet_row (bet_id b) (bet_user_id b) (bet_channel_id b)
                      choice amount
               else b) l)
  = map (λ b, (bet_channel_id b, bet_user_id b)) l.
Proof.
  rewrite <- list_fmap_compose. apply map_ext. intros b. simpl.
  by destruct (bool_decide _).
Qed.

Lemma head_filter_map (channel user : Z) (choice : string) (amount : Z)
    (l : list bet_row) (b0 : bet_row) :
  head (filter (λ b, bet_channel_id b = channel ∧ bet_user_id b = user) l) = Some b0 →
  head (filter (λ b, bet_channel_id b = channel ∧ bet_user_id b = user)
          (map (λ b, if bool_decide (bet_channel_id b = channel ∧ bet_user_id b = user)
                     then mk_bet_row (bet_id b) (bet_user_id b) (bet_channel_id b)
                            choice amount
                     else b) l))
  = Some (mk_bet_row (bet_id b0) user channel choice amount).
Proof.
  induction l as [|b l IH]; [done|].
  cbn [map].
  destruct (decide (bet_channel_id b = channel ∧ bet_user_id b = user)) as [Hk|Hk].
  - rewrite filter_cons_True by done. simpl. intros [= ->].
    rewrite bool_decide_eq_true_2 by done.
    rewrite filter_cons_True by (simpl; tauto). simpl.
    destruct Hk as [-> ->]. done.
  - rewrite filter_cons_False by done. intros H.
    rewrite bool_decide_eq_false_2 by done.
    rewrite filter_cons_False by done. by apply IH.
Qed.

Lemma head_filter_none {A} (P : A → Prop) `{∀ x, Decision (P x)} (l : list A) :
  head (filter P l) = None → ∀ x, x ∈ l → ¬ P x.
Proof.
  intros H0 x Hx HP.
  assert (Hin : x ∈ filter P l) by (by apply list_elem_of_filter).
  destruct (filter P l); [by apply elem_of_nil in Hin | done].
Qed.

Lemma set_bet_eq (w : world) (channel user : Z) (choice : string) (amount : Z)
    (data : betting_row) :
  bettings w !! channel = Some data →
  Gambling.set_bet channel user choice amount w
  = match head (filter (λ b, bet_channel_id b = channel ∧ bet_user_id b = user)
                  (bets w)) with
    | Some _ =>
        (set_bets (map (λ b,
           if bool_decide (bet_channel_id b = channel ∧ bet_user_id b = user)
           then mk_bet_row (bet_id b) (bet_user_id b) (bet_channel_id b)
                  (lower_text choice) amount
           else b)) w, inr tt)
    | None =>
        (set_bets_seq (bets_seq w + 1)
           (set_bets (λ l, l ++ [mk_bet_row (bets_seq w + 1) user channel
                                   (lower_text choice) amount]) w), inr tt)
    end.
Proof.
  intros Hd. unfold Gambling.set_bet. unfold bind at 1. rewrite get_betting_eq, Hd.
  unfold bind at 1. rewrite get_bet_eq.
  destruct (head _); reflexivity.
Qed.

(** X22: for a choice written in ASCII, [set_bet] without a session raises
    and changes nothing.  With a session, [get_bet] afterwards returns a row
    of the user on the channel with the choice in lower case and the amount
    given; the rows of other users and channels are kept; a user who had a
    row has no second one (the rows are as many as before), and a table with
    at most one row for each channel and user stays so. *)
Theorem set_bet_get_bet (w : world) (channel user : Z) (choice : string) (amount : Z) :
  ascii_text (Str.chars choice) = true →
  let w' := fst (Gambling.set_bet channel user choice amount w) in
  (bettings w !! channel = None →
   Gambling.set_bet channel user choice amount w = (w, inl ValueError_no_betting)) ∧
  (is_Some (bettings w !! channel) →
   snd (Gambling.set_bet channel user choice amount w) = inr tt ∧
   (∃ b, Gambling.get_bet channel user w' = (w', inr (Some b)) ∧
         bet_channel_id b = channel ∧ bet_user_id b = user ∧
         bet_choice b = lower_text choice ∧ bet_amount b = amount) ∧
   (∀ b, b ∈ bets w → ¬ (bet_channel_id b = channel ∧ bet_user_id b = user) →
         b ∈ bets w') ∧
   (one_bet_each (bets w) → one_bet_each (bets w')) ∧
   length (bets w')
   = (if Gambling.get_bet channel user w is (_, inr (Some _)) then length (bets w)
      else S (length (bets w)))).
Proof.
  intros _ w'. split.
  { intros Hn. unfold Gambling.set_bet. unfold bind at 1.
    by rewrite get_betting_eq, Hn. }
  intros [data Hd]. subst w'. rewrite (set_bet_eq w channel user choice amount data Hd).
  rewrite !get_bet_eq.
  destruct (head (filter _ (bets w))) as [b0|] eqn:Hhead; cbn [fst snd].
  - split; [done|]. split.
    { eexists. cbn [bets set_bets].
      rewrite (head_filter_map channel user _ amount (bets w) b0 Hhead). done. }
    split.
    { intros b Hb Hk. cbn [bets set_bets]. apply list_elem_of_fmap. exists b.
      split; [|done]. by rewrite bool_decide_eq_false_2. }
    split.
    { unfold one_bet_each. cbn [bets set_bets]. by rewrite filter_key_map. }
    cbn [bets set_bets]. by rewrite length_map.
  - pose proof (head_filter_none _ _ Hhead) as Hnone.
    split; [done|]. split.
    { eexists. cbn [bets set_bets set_bets_seq].
      rewrite filter_app.
      assert (E : filter (λ b, bet_channel_id b = channel ∧ bet_user_id b = user)
                    (bets w) = []).
      { destruct (filter _ (bets w)) as [|x l] eqn:Hf; [done|]. done. }
      rewrite E. rewrite filter_cons_True by done. done. }
    split.
    { intros b Hb Hk. cbn [bets set_bets set_bets_seq]. apply elem_of_app. by left. }
    split.
    { unfold one_bet_each. cbn [bets set_bets set_bets_seq]. intros Hnd.
      rewrite map_app. apply NoDup_app. split; [done|]. split.
      - intros k Hk Hk'. simpl in Hk'. apply list_elem_of_singleton in Hk'. subst k.
        apply list_elem_of_fmap in Hk as (b & Hkb & Hb). injection Hkb as H1 H2.
        by apply (Hnone b Hb).
      - simpl. apply NoDup_singleton. }
    cbn [bets set_bets set_bets_seq]. rewrite length_app. simpl. lia.
Qed.

(** ** The command that places a bet *)

Lemma head_elem {A} (l : list A) (x : A) : head l = Some x → x ∈ l.
Proof. destruct l; [done|]. intros [= ->]. apply list_elem_of_here. Qed.

Lemma update_display_raises (w : world) (channel : Z) (data : betting_row) :
  bettings w !! channel = Some data →
  bets_of channel w ≠ [] →
  ∃ e, Gambling.update_display channel w = (w, inl e).
Proof.
  intros Hd Hb. unfold Gambling.update_display. unfold bind at 1.
  rewrite get_betting_eq, Hd. by apply (get_betting_embed_raises w channel data).
Qed.

Lemma bet_choice_checks (w : world) (channel user : Z) (choice : string)
    (amount b d : Z) (answer : option bool) (now : Z) (data : betting_row)
    (c : cfg_value) :
  user ∈ members w →
  bettings w !! channel = Some data →
  effective_config w !! "Currency" = Some c →
  effective_config w !! "DefaultBalance" = Some (CfgInt d) →
  accounts w !! user = Some b →
  Gambling._bet_choice channel user choice amount answer now w
  = if negb (bool_decide (Str.chars choice
                          ∈ Str.split "," (Str.chars (bg_choices data))))
    then (w, inr Gambling.Bet_invalid_choice)
    else if amount <? bg_minimal_bet data then (w, inr Gambling.Bet_too_low)
    else if b <? amount then (w, inr Gambling.Bet_insufficient)
    else
      match head (filter (λ x, bet_channel_id x = channel ∧ bet_user_id x = user)
                    (bets w)) with
      | None =>
          (Gambling.set_bet channel user choice amount ;;;
           Account.withdraw user amount (R_bet (bg_title data)) now ;;;
           Gambling.update_display channel ;;;
           ret Gambling.Bet_recorded) w
      | Some current_bet =>
          if bool_decide (bet_choice current_bet = choice) then
            match answer with
            | None => (w, inr Gambling.Bet_timeout)
            | Some false => (w, inr Gambling.Bet_declined)
            | Some true =>
                (Account.withdraw user amount (R_bet (bg_title data)) now ;;;
                 Gambling.set_bet channel user choice
                   (bet_amount current_bet + amount) ;;;
                 Gambling.update_display channel ;;;
                 ret Gambling.Bet_updated) w
            end
          else (w, inr Gambling.Bet_other_choice)
      end.
Proof.
  intros Hm Hd Hc Hdef Hb. unfold Gambling._bet_choice.
  unfold bind at 1. unfold get at 1.
  rewrite bool_decide_eq_true_2 by done. cbn [negb].
  unfold bind at 1. rewrite (config_text_lookup "Currency" c w Hc).
  unfold bind at 1. rewrite get_betting_eq, Hd.
  destruct (negb _); [done|].
  destruct (amount <? bg_minimal_bet data); [done|].
  unfold bind at 1. rewrite (get_account_present user b d w Hb Hdef).
  unfold bind at 1. rewrite (get_balance_some user b w Hb).
  destruct (b <? amount); [done|].
  unfold bind at 1. rewrite get_bet_eq.
  destruct (head _) as [cb|]; [|done].
  destruct (bool_decide _); [|done].
  by destruct answer as [[]|].
Qed.

(** X23: a bet that passes the checks costs the bettor exactly what it
    adds to the stake: a first bet appends one row with the amount and takes
    the amount from the balance; a confirmed addition to a bet on the same
    choice raises the stake of the stored row by the amount and takes the
    amount from the balance.  In both cases the refresh of the display that
    follows raises, as the session has a bet by then. *)
Theorem bet_choice_pays_the_stake (w : world) (channel user : Z) (choice : string)
    (amount b d now : Z) (data : betting_row) (c : cfg_value) :
  user ∈ members w →
  bettings w !! channel = Some data →
  effective_config w !! "Currency" = Some c →
  effective_config w !! "DefaultBalance" = Some (CfgInt d) →
  accounts w !! user = Some b →
  Str.chars choice ∈ Str.split "," (Str.chars (bg_choices data)) →
  bg_minimal_bet data ≤ amount → 0 ≤ amount ≤ b →
  (∀ answer,
     Gambling.get_bet channel user w = (w, inr None) →
     ∃ w' e,
       Gambling._bet_choice channel user choice amount answer now w = (w', inl e) ∧
       accounts w' = <[user := b - amount]> (accounts w) ∧
       bets w' = bets w ++ [mk_bet_row (bets_seq w + 1) user channel
                              (lower_text choice) amount] ∧
       bettings w' = bettings w) ∧
  (∀ current_bet,
     Gambling.get_bet channel user w = (w, inr (Some current_bet)) →
     bet_choice current_bet = choice →
     ∃ w' e stake,
       Gambling._bet_choice channel user choice amount (Some true) now w = (w', inl e) ∧
       accounts w' = <[user := b - amount]> (accounts w) ∧
       Gambling.get_bet channel user w' = (w', inr (Some stake)) ∧
       bet_amount stake = bet_amount current_bet + amount ∧
       length (bets w') = length (bets w) ∧
       bettings w' = bettings w).
Proof.
  intros Hm Hd Hc Hdef Hb Hchoice Hmin Ha.
  pose proof (bet_choice_checks w channel user choice amount b d) as Heq.
  split.
  - intros answer Hnone. rewrite get_bet_eq in Hnone. injection Hnone as Hnone.
    rewrite (Heq answer now data c Hm Hd Hc Hdef Hb).
    rewrite bool_decide_eq_true_2 by done. cbn [negb].
    destruct (Z.ltb_spec amount (bg_minimal_bet data)); [lia|].
    destruct (Z.ltb_spec b amount); [lia|].
    rewrite Hnone.
    unfold bind at 1. rewrite (set_bet_eq w channel user choice amount data Hd), Hnone.
    set (row := mk_bet_row (bets_seq w + 1) user channel (lower_text choice) amount).
    set (w1 := set_bets_seq _ _).
    assert (Hb1 : accounts w1 !! user = Some b) by done.
    unfold bind at 1.
    rewrite (withdraw_spec user amount b _ now w1 Hb1) by lia.
    replace (Z.abs amount) with amount by lia.
    set (w2 := recorded _ now _).
    assert (Hbets2 : bets w2 = bets w ++ [row]).
    { unfold w2. by rewrite recorded_bets. }
    assert (Hbg2 : bettings w2 = bettings w).
    { unfold w2. by rewrite recorded_bettings. }
    destruct (update_display_raises w2 channel data) as [e He].
    { by rewrite Hbg2. }
    { unfold bets_of. rewrite Hbets2, filter_app.
      rewrite (filter_cons_True _ row) by done.
      intros E. apply app_eq_nil in E as [_ E]. done. }
    unfold bind at 1. rewrite He.
    exists w2, e. split; [done|]. split; [|done].
    unfold w2. by rewrite recorded_accounts.
  - intros cb Hsome Hsame. rewrite get_bet_eq in Hsome. injection Hsome as Hsome.
    rewrite (Heq (Some true) now data c Hm Hd Hc Hdef Hb).
    rewrite bool_decide_eq_true_2 by done. cbn [negb].
    destruct (Z.ltb_spec amount (bg_minimal_bet data)); [lia|].
    destruct (Z.ltb_spec b amount); [lia|].
    rewrite Hsome. rewrite bool_decide_eq_true_2 by done.
    unfold bind at 1.
    rewrite (withdraw_spec user amount b _ now w Hb) by lia.
    replace (Z.abs amount) with amount by lia.
    set (w1 := recorded _ now _).
    assert (Hbets1 : bets w1 = bets w) by (unfold w1; by rewrite recorded_bets).
    assert (Hbg1 : bettings w1 = bettings w) by (unfold w1; by rewrite recorded_bettings).
    unfold bind at 1.
    rewrite (set_bet_eq w1 channel user choice _ data) by (by rewrite Hbg1).
    rewrite Hbets1, Hsome.
    set (w2 := set_bets _ w1).
    pose proof (head_filter_map channel user (lower_text choice)
                  (bet_amount cb + amount) (bets w) cb Hsome) as Hhead.
    assert (Hbets2 : bets w2
              = map (λ x, if bool_decide (bet_channel_id x = channel ∧ bet_user_id x = user)
                          then mk_bet_row (bet_id x) (bet_user_id x) (bet_channel_id x)
                                 (lower_text choice) (bet_amount cb + amount)
                          else x) (bets w)).
    { unfold w2. cbn [bets set_bets]. by rewrite Hbets1. }
    destruct (update_display_raises w2 channel data) as [e He].
    { unfold w2. cbn [bettings set_bets]. by rewrite Hbg1. }
    { unfold bets_of. rewrite Hbets2. intros E.
      assert (Hin : mk_bet_row (bet_id cb) user channel (lower_text choice)
                      (bet_amount cb + amount)
                    ∈ filter (λ x, bet_channel_id x = channel)
                        (map (λ x, if bool_decide (bet_channel_id x = channel
                                                   ∧ bet_user_id x = user)
                                   then mk_bet_row (bet_id x) (bet_user_id x)
                                          (bet_channel_id x) (lower_text choice)
                                          (bet_amount cb + amount)
                                   else x) (bets w))).
      { apply list_elem_of_filter. split; [done|].
        pose proof (head_elem _ _ Hhead) as Hrow.
        by apply list_elem_of_filter in Hrow as [_ Hrow]. }
      rewrite E in Hin. by apply elem_of_nil in Hin. }
    unfold bind at 1. rewrite He.
    exists w2, e, (mk_bet_row (bet_id cb) user channel (lower_text choice)
                     (bet_amount cb + amount)).
    split; [done|]. split.
    { unfold w2. cbn [accounts set_bets]. unfold w1. by rewrite recorded_accounts. }
    split.
    { rewrite get_bet_eq, Hbets2, Hhead. done. }
    split; [done|]. split.
    { rewrite Hbets2. by rewrite length_map. }
    unfold w2. cbn [bettings set_bets]. done.
Qed.


(** ** Stopping a session *)

(** X25: a confirmed [_stop_gamble] by a moderator or by the author, with
    a result that is one of the choices: when nobody has bet, the session is
    deleted and nothing else changes; when the channel is a text channel of
    the guild and the stakes are not zero, the command raises while the
    results are rendered and the world is as it was, the session and its
    bets included. *)
Theorem stop_gamble_spec (w : world) (channel user : Z) (manage_messages : bool)
    (result : string) (now : Z) (data : betting_row) :
  bettings w !! channel = Some data →
  manage_messages = true
  ∨ (bg_author_id data ∈ members w ∧ user = bg_author_id data) →
  Str.lower (Str.chars result) ∈ Str.split "," (Str.chars (bg_choices data)) →
  let run := Gambling._stop_gamble channel user manage_messages (Some true)
               result now w in
  (bets_of channel w = [] →
   ∃ w', run = (w', inr Gambling.Stop_done) ∧
         Gambling.get_betting channel w' = (w', inr None) ∧
         bettings w' = delete channel (bettings w) ∧
         bets w' = bets w ∧ accounts w' = accounts w) ∧
  (bets_of channel w ≠ [] → channel ∈ text_channels w →
   Gambling.total_stakes (bets_of channel w) ≠ 0 →
   ∃ e, run = (w, inl e)).
Proof.
  intros Hd Hauth Hres run. subst run.
  assert (Hpre : Gambling._stop_gamble channel user manage_messages (Some true)
                   result now w
                 = (Gambling.handle_winners channel result now ;;;
                    Gambling.delete_betting channel ;;;
                    Gambling.delete_all_bets channel ;;;
                    ret Gambling.Stop_done) w).
  { unfold Gambling._stop_gamble. unfold bind at 1. rewrite get_betting_eq, Hd.
    unfold bind at 1. unfold get at 1.
    assert (Hguard : negb manage_messages
                     && (negb (bool_decide (bg_author_id data ∈ members w))
                         || negb (bool_decide (user = bg_author_id data))) = false).
    { destruct Hauth as [->|[H1 H2]]; [done|].
      rewrite !bool_decide_eq_true_2 by done. by destruct manage_messages. }
    rewrite Hguard. by rewrite bool_decide_eq_true_2. }
  rewrite Hpre. split.
  - intros Hnone. unfold bind at 1.
    assert (Hw : Gambling.handle_winners channel result now w
                 = (w, inr Gambling.No_bets)).
    { unfold Gambling.handle_winners. unfold bind at 1. rewrite get_betting_eq, Hd.
      unfold bind at 1. by rewrite get_bets_eq, Hnone. }
    rewrite Hw. eexists. split; [reflexivity|].
    split.
    { rewrite get_betting_eq. cbn [bettings set_bets set_bettings].
      by rewrite lookup_delete_eq. }
    split; [done|]. split; [|done].
    cbn [bets set_bets set_bettings].
    fold (bets_of channel w) in Hnone.
    clear -Hnone. unfold bets_of in Hnone.
    induction (bets w) as [|x l IH]; [done|].
    destruct (decide (bet_channel_id x = channel)) as [E|E].
    + by rewrite filter_cons_True in Hnone.
    + rewrite filter_cons_False in Hnone by done.
      rewrite filter_cons_True by done. by rewrite IH.
  - intros Hb Hch Htot.
    destruct (handle_winners_raises w channel result now data Hd Hb Hch Hres Htot)
      as [e He].
    exists e. unfold bind at 1. by rewrite He.
Qed.

(** ** Integers as decimal texts *)

Lemma digit_char_spec (d : Z) :
  0 ≤ d < 10 →
  Str.is_digit (Str.digit_char d) = true ∧ Str.digit_value (Str.digit_char d) = d.
Proof.
  intros H.
  assert (d = 0 ∨ d = 1 ∨ d = 2 ∨ d = 3 ∨ d = 4 ∨ d = 5 ∨ d = 6 ∨ d = 7 ∨ d = 8 ∨ d = 9)
    as [-> | [-> | [-> | [-> | [-> | [-> | [-> | [-> | [-> | ->]]]]]]]]] by lia;
    by vm_compute.
Qed.

Lemma digits_value_snoc (s : list ascii) (c : ascii) :
  digits_value (s ++ [c]) = 10 * digits_value s + Str.digit_value c.
Proof. unfold digits_value. by rewrite foldl_app. Qed.

Lemma digits_S (f : nat) (n : Z) (acc : list ascii) :
  Str.digits (S f) n acc
  = if n <? 10 then Str.digit_char (n mod 10) :: acc
    else Str.digits f (n / 10) (Str.digit_char (n mod 10) :: acc).
Proof. reflexivity. Qed.

Lemma digits_spec (f : nat) (n : Z) (acc : list ascii) :
  0 ≤ n < 10 * 2 ^ Z.of_nat f →
  ∃ ds, Str.digits (S f) n acc = ds ++ acc ∧
        forallb Str.is_digit ds = true ∧ ds ≠ [] ∧ digits_value ds = n.
Proof.
  revert n acc. induction f as [|f IH]; intros n acc Hn.
  - simpl in Hn. cbn [Str.digits].
    destruct (Z.ltb_spec n 10); [|lia].
    rewrite Z.mod_small by lia.
    destruct (digit_char_spec n) as [H1 H2]; [lia|].
    exists [Str.digit_char n]. split; [done|]. split; [simpl; by rewrite H1|].
    split; [done|]. unfold digits_value. simpl. lia.
  - rewrite digits_S.
    pose proof (Z.mod_pos_bound n 10 ltac:(lia)) as Hm.
    destruct (digit_char_spec (n mod 10) Hm) as [H1 H2].
    destruct (Z.ltb_spec n 10).
    + rewrite Z.mod_small in * by lia.
      exists [Str.digit_char n]. split; [done|]. split; [simpl; by rewrite H1|].
      split; [done|]. unfold digits_value. simpl. lia.
    + destruct (IH (n / 10) (Str.digit_char (n mod 10) :: acc))
        as (ds & Hds & Hdig & Hne & Hval).
      { split; [apply Z.div_pos; lia|].
        apply Z.div_lt_upper_bound; [lia|].
        rewrite Nat2Z.inj_succ, Z.pow_succ_r in Hn by lia. lia. }
      exists (ds ++ [Str.digit_char (n mod 10)]).
      split; [by rewrite Hds, <- app_assoc|].
      split; [rewrite forallb_app, Hdig; simpl; by rewrite H1|].
      split; [by destruct ds|].
      rewrite digits_value_snoc, Hval, H2.
      pose proof (Z.div_mod n 10 ltac:(lia)). lia.
Qed.

Lemma of_int_nonneg (n : Z) :
  0 ≤ n →
  forallb Str.is_digit (Str.of_int n) = true ∧ Str.of_int n ≠ [] ∧
  Str.int (Str.of_int n) = inr n.
Proof.
  intros Hn. unfold Str.of_int. destruct (Z.ltb_spec n 0); [lia|].
  destruct (digits_spec (Z.to_nat (Z.log2 n)) n []) as (ds & Hds & Hdig & Hne & Hval).
  { split; [done|]. rewrite Z2Nat.id by apply Z.log2_nonneg.
    destruct (Z.eq_dec n 0) as [->|]; [done|].
    pose proof (Z.log2_spec n ltac:(lia)) as [_ Hup].
    rewrite Z.pow_succ_r in Hup by apply Z.log2_nonneg.
    pose proof (Z.pow_pos_nonneg 2 (Z.log2 n) ltac:(lia) (Z.log2_nonneg n)). lia. }
  rewrite Hds, app_nil_r. split; [done|]. split; [done|].
  unfold Str.int. rewrite Hdig. rewrite bool_decide_eq_false_2 by done.
  simpl. by rewrite <- Hval.
Qed.

Lemma is_digit_not_minus (c : ascii) :
  Str.is_digit c = true → c ≠ "-"%char.
Proof. intros H ->. done. Qed.

Lemma int_signed_digits (s : list ascii) :
  forallb Str.is_digit s = true → Str.int_signed s = Str.int s.
Proof.
  destruct s as [|c s]; [done|]. simpl. intros H.
  apply andb_true_iff in H as [Hc _].
  pose proof (is_digit_not_minus c Hc) as Hne.
  unfold Str.int_signed.
  destruct c as [[] [] [] [] [] [] [] []]; try done.
Qed.

Lemma int_signed_of_int (n : Z) : Str.int_signed (Str.of_int n) = inr n.
Proof.
  destruct (Z.lt_ge_cases n 0) as [Hneg|Hpos].
  - unfold Str.of_int. destruct (Z.ltb_spec n 0); [|lia].
    destruct (of_int_nonneg (- n)) as (Hdig & Hne & Hint); [lia|].
    unfold Str.of_int in Hint. destruct (Z.ltb_spec (- n) 0); [lia|].
    cbn [Str.int_signed]. rewrite Hint. simpl. f_equal. lia.
  - destruct (of_int_nonneg n Hpos) as (Hdig & Hne & Hint).
    by rewrite int_signed_digits.
Qed.

Lemma of_int_free (sep : ascii) (n : Z) :
  Str.is_digit sep = false → sep ≠ "-"%char →
  free_of (λ c, Ascii.eqb c sep) (Str.of_int n) = true.
Proof.
  intros Hsep Hminus.
  assert (Hdigits : ∀ s, forallb Str.is_digit s = true →
                         free_of (λ c, Ascii.eqb c sep) s = true).
  { intros s. unfold free_of. apply forallb_impl. intros c Hc.
    apply negb_true_iff. apply Ascii.eqb_neq. intros ->. congruence. }
  destruct (Z.lt_ge_cases n 0) as [Hneg|Hpos].
  - unfold Str.of_int. destruct (Z.ltb_spec n 0); [|lia].
    destruct (of_int_nonneg (- n)) as (Hdig & _ & _); [lia|].
    unfold Str.of_int in Hdig. destruct (Z.ltb_spec (- n) 0); [lia|].
    unfold free_of. cbn [forallb]. apply andb_true_iff. split.
    + apply negb_true_iff. apply Ascii.eqb_neq. congruence.
    + by apply Hdigits.
  - destruct (of_int_nonneg n Hpos) as (Hdig & _ & _). by apply Hdigits.
Qed.

(** ** The serialized form of a throw *)

Lemma join_free (sep : ascii) (c : ascii) (l : list (list ascii)) :
  Ascii.eqb c sep = false →
  Forall (λ x, free_of (λ a, Ascii.eqb a sep) x = true) l →
  free_of (λ a, Ascii.eqb a sep) (Str.join [c] l) = true.
Proof.
  intros Hc Hl. induction Hl as [|x l Hx Hl IH]; [done|].
  destruct l as [|y l]; [done|].
  change (Str.join [c] (x :: y :: l)) with (x ++ c :: Str.join [c] (y :: l)).
  unfold free_of in *. rewrite forallb_app, Hx. cbn [forallb andb].
  rewrite Hc. cbn [negb andb]. apply IH.
Qed.

Lemma ints_signed_of_int (faces : list Z) :
  GameTools.ints_signed (map Str.of_int faces) = inr faces.
Proof.
  induction faces as [|f faces IH]; [done|].
  simpl. rewrite int_signed_of_int. simpl. by rewrite IH.
Qed.

Lemma dice_round_trip (d : GameTools.dice) :
  GameTools.faces_of d ≠ [] →
  GameTools.Dice_from_string (GameTools.Dice_to_string d) = inr (plain d).
Proof.
  intros Hne. unfold GameTools.Dice_from_string, GameTools.Dice_to_string.
  change (Str.chars "/") with ["/"%char].
  rewrite split_join.
  - by rewrite ints_signed_of_int.
  - by destruct (GameTools.faces_of d).
  - apply Forall_fmap, Forall_forall. intros n _. simpl. by apply of_int_free.
Qed.

Lemma dice_no_faces (d : GameTools.dice) :
  GameTools.faces_of d = [] →
  GameTools.Dice_from_string (GameTools.Dice_to_string d) = inl ValueError_int.
Proof.
  intros He. unfold GameTools.Dice_from_string, GameTools.Dice_to_string.
  by rewrite He.
Qed.

Lemma dice_to_string_free (d : GameTools.dice) :
  free_of (λ a, Ascii.eqb a ",") (GameTools.Dice_to_string d) = true.
Proof.
  unfold GameTools.Dice_to_string. change (Str.chars "/") with ["/"%char].
  apply join_free; [done|].
  apply Forall_fmap, Forall_forall. intros n _. simpl. by apply of_int_free.
Qed.

Lemma throw_round_trip (dices : list GameTools.dice) :
  GameTools.DiceThrow_from_string (GameTools.DiceThrow_to_string dices)
  = if bool_decide (dices ≠ [] ∧ Forall (λ d, GameTools.faces_of d ≠ []) dices)
    then inr (map plain dices) else inl ValueError_int.
Proof.
  unfold GameTools.DiceThrow_from_string, GameTools.DiceThrow_to_string.
  change (Str.chars ",") with [","%char].
  destruct dices as [|d0 dices].
  { rewrite bool_decide_eq_false_2 by (intros [H _]; done). done. }
  rewrite split_join; first last.
  { apply Forall_fmap, Forall_forall. intros d _. simpl. apply dice_to_string_free. }
  { done. }
  assert (Hgen : ∀ l, GameTools.dices_from_strings (map GameTools.Dice_to_string l)
                 = if bool_decide (Forall (λ d, GameTools.faces_of d ≠ []) l)
                   then inr (map plain l) else inl ValueError_int).
  { intros l. induction l as [|d l IH]; [done|].
    cbn [map GameTools.dices_from_strings].
    destruct (decide (GameTools.faces_of d = [])) as [He|Hne].
    - rewrite (dice_no_faces d He). simpl.
      rewrite bool_decide_eq_false_2; [done|].
      intros H. apply Forall_cons in H as [H _]. done.
    - rewrite (dice_round_trip d Hne). simpl. rewrite IH.
      destruct (decide (Forall (λ d, GameTools.faces_of d ≠ []) l)) as [Hf|Hf].
      + rewrite !bool_decide_eq_true_2; [done | by constructor | done].
      + rewrite !bool_decide_eq_false_2; [done | | done].
        intros H. apply Forall_cons in H as [_ H]. done. }
  rewrite Hgen.
  destruct (decide (Forall (λ d, GameTools.faces_of d ≠ []) (d0 :: dices))) as [Hf|Hf].
  - by rewrite !bool_decide_eq_true_2.
  - rewrite bool_decide_eq_false_2 by done.
    by rewrite bool_decide_eq_false_2 by (intros [_ H]; done).
Qed.

(** ** The dice-throw parser against the grammar of throws *)





(** *** Spaces around a term *)




(** *** A well-formed term is read as the grammar says *)





(** *** What the parser accepts is a well-formed term *)





(** *** Expressions *)






(** ** Saved throws *)

(** X26: a throw with at least one die, each with at least one face, is
    read back from its serialized form with the same faces, die for die
    (equal under [Dice.__eq__], as plain dice), also through [save_throw]
    and [load_throw]; saving under one name leaves the other names alone and
    a deleted name loads as [None].  An empty throw, and a throw with a die
    without faces, such as the dice that the parser builds for ["2d0"], do
    not survive: reading them back raises [ValueError]. *)
Theorem saved_throw_round_trip (db : gmap string (list ascii)) (name : string)
    (throw : list GameTools.dice) :
  let db' := GameTools.save_throw name throw db in
  let sound := bool_decide (throw ≠ [] ∧ Forall (λ d, GameTools.faces_of d ≠ []) throw) in
  GameTools.DiceThrow_from_string (GameTools.DiceThrow_to_string throw)
  = (if sound then inr (map plain throw) else inl ValueError_int) ∧
  GameTools.load_throw name db'
  = (if sound then inr (Some (name, map plain throw)) else inl ValueError_int) ∧
  Forall2 (λ a b, GameTools.Dice_eqb a b = true) (map plain throw) throw ∧
  (∀ other, other ≠ name →
     GameTools.load_throw other db' = GameTools.load_throw other db) ∧
  GameTools.load_throw name (GameTools.delete_throw name db') = inr None ∧
  GameTools.transform "2d0" = inr [GameTools.classic 0; GameTools.classic 0] ∧
  GameTools.faces_of (GameTools.classic 0) = [].
Proof.
  intros db' sound.
  pose proof (throw_round_trip throw) as Hrt. fold sound in Hrt.
  split; [done|]. split.
  { unfold GameTools.load_throw. subst db'. unfold GameTools.save_throw.
    rewrite lookup_insert_eq, Hrt. by destruct sound. }
  split.
  { apply Forall2_fmap_l. apply Forall_Forall2_diag. apply Forall_forall.
    intros d _. unfold GameTools.Dice_eqb, plain. by apply bool_decide_eq_true. }
  split.
  { intros other Hne. unfold GameTools.load_throw, db', GameTools.save_throw.
    by rewrite lookup_insert_ne. }
  split.
  { unfold GameTools.load_throw, GameTools.delete_throw. by rewrite lookup_delete_eq. }
  split; by vm_compute.
Qed.

(** ** Rolling *)

Lemma choice_spec {A} (seq : list A) (draw : nat) :
  (seq = [] → GameTools.choice seq draw = inl IndexError) ∧
  (seq ≠ [] → ∃ x, GameTools.choice seq draw = inr x ∧ x ∈ seq).
Proof.
  split; [by intros ->|].
  intros Hne. destruct seq as [|x0 seq]; [done|].
  unfold GameTools.choice. eexists. split; [done|].
  apply list_elem_of_In. apply nth_In.
  apply Nat.mod_upper_bound. done.
Qed.

Lemma roll_all_spec (dices : list GameTools.dice) (draws : nat → nat) :
  (Forall (λ d, GameTools.faces_of d ≠ []) dices →
   ∃ xs, GameTools.roll_all dices draws = inr xs ∧
         Forall2 (λ x d, x ∈ GameTools.faces_of d) xs dices) ∧
  (Exists (λ d, GameTools.faces_of d = []) dices →
   GameTools.roll_all dices draws = inl IndexError).
Proof.
  revert draws. induction dices as [|d dices IH]; intros draws.
  - split; [by exists []|]. intros H. by apply Exists_nil in H.
  - cbn [GameTools.roll_all]. unfold GameTools.roll.
    destruct (choice_spec (GameTools.faces_of d) (draws O)) as [Hempty Hsome].
    destruct (IH (λ i, draws (S i))) as [IH1 IH2].
    split.
    + intros H. apply Forall_cons in H as [Hd Hds].
      destruct (Hsome Hd) as (x & -> & Hx).
      destruct (IH1 Hds) as (xs & -> & Hxs).
      exists (x :: xs). split; [done|]. by constructor.
    + intros H. destruct (decide (GameTools.faces_of d = [])) as [He|Hne].
      * by rewrite (Hempty He).
      * destruct (Hsome Hne) as (x & -> & Hx).
        apply Exists_cons in H as [H|H]; [done|].
        by rewrite (IH2 H).
Qed.

(** X27: rolling dice that all have a face gives one face of each die, and
    their sum; rolling a throw with a die without faces raises
    [IndexError]; [n] classic dice of [f >= 1] faces roll a sum between [n]
    and [n * f]. *)
Theorem roll_within_faces (dices : list GameTools.dice) (draws : nat → nat) :
  (Forall (λ d, GameTools.faces_of d ≠ []) dices →
   ∃ xs, GameTools.roll_all dices draws = inr xs ∧
         Forall2 (λ x d, x ∈ GameTools.faces_of d) xs dices ∧
         GameTools.roll_sum dices draws = inr (foldr Z.add 0 xs)) ∧
  (Exists (λ d, GameTools.faces_of d = []) dices →
   GameTools.roll_all dices draws = inl IndexError ∧
   GameTools.roll_sum dices draws = inl IndexError) ∧
  (∀ (n : nat) (f : Z),
     1 ≤ f → dices = replicate n (GameTools.classic f) →
     ∃ s, GameTools.roll_sum dices draws = inr s ∧
          Z.of_nat n ≤ s ≤ Z.of_nat n * f).
Proof.
  destruct (roll_all_spec dices draws) as [H1 H2].
  split; [|split].
  - intros Hf. destruct (H1 Hf) as (xs & Hxs & Hin). exists xs.
    split; [done|]. split; [done|]. unfold GameTools.roll_sum. by rewrite Hxs.
  - intros He. split; [by apply H2|]. unfold GameTools.roll_sum. by rewrite (H2 He).
  - intros n f Hf ->.
    assert (Hfaces : ∀ x, x ∈ GameTools.faces_of (GameTools.classic f) ↔ 1 ≤ x ≤ f).
    { intros x. unfold GameTools.classic. cbn [GameTools.faces_of].
      rewrite elem_of_seqZ. lia. }
    destruct H1 as (xs & Hxs & Hin).
    { apply Forall_forall. intros d Hd. apply elem_of_replicate in Hd as [-> _].
      intros He. assert (1 ∈ GameTools.faces_of (GameTools.classic f)) as Hone
        by (apply Hfaces; lia).
      rewrite He in Hone. by apply elem_of_nil in Hone. }
    exists (foldr Z.add 0 xs). unfold GameTools.roll_sum. rewrite Hxs.
    split; [done|].
    clear Hxs H2. revert xs Hin. induction n as [|n IH]; intros xs Hin.
    + apply Forall2_nil_inv_r in Hin as ->. simpl. lia.
    + cbn [replicate] in Hin. apply Forall2_cons_inv_r in Hin as (x & xs' & Hx & Hxs' & ->).
      apply Hfaces in Hx. specialize (IH xs' Hxs'). simpl foldr. lia.
Qed.

(** ** Truncating a text *)

(** X28: [troncate_text] returns a text that fits unchanged.  A longer
    text is cut to [length - 1] characters followed by the ellipsis, of
    length [length] exactly, when an ellipsis is asked for and [length] is
    at least 1; with a [length] of 0 or less the result is longer than
    [length]; and when no ellipsis is asked for the result is the empty
    text, not the cut text. *)
Theorem troncate_text_spec (text : list N) (length : Z) (add_ellipsis : bool) :
  let result := Pretty.troncate_text text length add_ellipsis in
  let len := Z.of_nat (List.length text) in
  (len ≤ length → result = text) ∧
  (length < len → add_ellipsis = false → result = []) ∧
  (length < len → add_ellipsis = true → 1 ≤ length →
   result = take (Z.to_nat (length - 1)) text ++ [Pretty.ellipsis] ∧
   Z.of_nat (List.length result) = length) ∧
  (length < len → add_ellipsis = true → length ≤ 0 →
   result = take (Z.to_nat (len + length - 1)) text ++ [Pretty.ellipsis] ∧
   length < Z.of_nat (List.length result)).
Proof.
  intros result len. subst result. unfold Pretty.troncate_text. fold len.
  split; [|split; [|split]].
  - intros H. by destruct (Z.leb_spec len length); [|lia].
  - intros H ->. by destruct (Z.leb_spec len length); [lia|].
  - intros H -> H1. destruct (Z.leb_spec len length); [lia|].
    unfold slice_to. destruct (Z.ltb_spec (length - 1) 0); [lia|].
    split; [reflexivity|].
    rewrite length_app, length_take. simpl. unfold len in *. lia.
  - intros H -> H1. destruct (Z.leb_spec len length); [lia|].
    unfold slice_to. destruct (Z.ltb_spec (length - 1) 0); [|lia].
    fold len. replace (len + (length - 1)) with (len + length - 1) by lia.
    split; [reflexivity|]. rewrite length_app. simpl. lia.
Qed.

(** ** Durations *)

(** X29: for a duration of [days] days and [seconds] seconds within the
    day, the hours, minutes and seconds that [parse_time] computes are those
    of the time within the day, whatever the sign of [days]: with the days
    they add up to the duration.  A duration of whole days that is not
    positive prints as the empty text. *)
Theorem parse_time_units (days seconds : Z) :
  0 ≤ seconds < 86400 →
  let h := seconds / 3600 in
  let m := seconds / 60 mod 60 in
  let s := seconds mod 60 in
  Pretty.units days seconds = [(Pretty.U_j, days); (Pretty.U_h, h);
                               (Pretty.U_m, m); (Pretty.U_s, s)] ∧
  days * 86400 + h * 3600 + m * 60 + s = days * 86400 + seconds ∧
  0 ≤ h < 24 ∧ 0 ≤ m < 60 ∧ 0 ≤ s < 60 ∧
  (days ≤ 0 → seconds = 0 → Pretty.parse_time days seconds = []).
Proof.
  intros Hs h m s.
  assert (Hh : (seconds + days * 24 * 3600) / 3600 mod 24 = h).
  { replace (seconds + days * 24 * 3600) with (seconds + (days * 24) * 3600) by lia.
    rewrite Z.div_add by lia.
    replace (seconds / 3600 + days * 24) with (seconds / 3600 + days * 24) by lia.
    rewrite Z.mod_add by lia. apply Z.mod_small. unfold h.
    split; [apply Z.div_pos; lia|]. apply Z.div_lt_upper_bound; lia. }
  assert (Hm : (seconds + days * 24 * 3600) / 60 mod 60 = m).
  { replace (seconds + days * 24 * 3600) with (seconds + (days * 1440) * 60) by lia.
    rewrite Z.div_add by lia.
    replace (days * 1440) with (days * 24 * 60) by lia.
    by rewrite Z.mod_add by lia. }
  assert (Hsec : (seconds + days * 24 * 3600) mod 60 = s).
  { replace (seconds + days * 24 * 3600) with (seconds + (days * 1440) * 60) by lia.
    by rewrite Z.mod_add by lia. }
  assert (Hunits : Pretty.units days seconds
                   = [(Pretty.U_j, days); (Pretty.U_h, h); (Pretty.U_m, m); (Pretty.U_s, s)]).
  { unfold Pretty.units. cbv zeta. by rewrite Hh, Hm, Hsec. }
  split; [done|].
  pose proof (Z.div_mod seconds 60 ltac:(lia)) as E1.
  pose proof (Z.div_mod (seconds / 60) 60 ltac:(lia)) as E2.
  assert (E3 : seconds / 60 / 60 = h).
  { unfold h. rewrite Z.div_div by lia. done. }
  pose proof (Z.mod_pos_bound seconds 60 ltac:(lia)).
  pose proof (Z.mod_pos_bound (seconds / 60) 60 ltac:(lia)).
  assert (0 ≤ h < 24).
  { unfold h. split; [apply Z.div_pos; lia|]. apply Z.div_lt_upper_bound; lia. }
  split; [unfold m, s; lia|].
  split; [done|]. split; [done|]. split; [done|].
  intros Hd ->. unfold Pretty.parse_time. rewrite Hunits.
  unfold h, m, s. simpl.
  destruct (Z.ltb_spec 0 days); [lia|]. done.
Qed.

(** ** The further properties on concrete worlds *)

Lemma defaultbalance_opens_accounts_witness :
  ∃ w1 w2,
    Bank._configbank_defaultbalance 250 Examples.w_configured
    = (w1, inr Bank.Setting_changed) ∧
    get_account 2 w1 = (w2, inr 2) ∧
    accounts w1 = accounts Examples.w_configured ∧
    accounts w2 = <[2 := 250]> (accounts Examples.w_configured) ∧
    Account._get_balance 2 w2 = (w2, inr 250).
Proof.
  apply (defaultbalance_opens_accounts Examples.w_configured 250 2 (CfgText "✦")).
  - lia.
  - reflexivity.
  - reflexivity.
Defined.

Lemma daily_disabled_by_zero_witness :
  ∃ w1 w2,
    Bank._configbank_daily 0 5000 Examples.w_configured = (w1, inr Bank.Daily_disabled) ∧
    Daily._bank_daily 1 "2023-11-14" Examples.now0 w1 = (w2, inr Daily.Unavailable) ∧
    transactions w2 = transactions Examples.w_configured ∧
    conditions w2 = conditions Examples.w_configured ∧
    ∀ u b, accounts Examples.w_configured !! u = Some b → accounts w2 !! u = Some b.
Proof.
  apply (daily_disabled_by_zero Examples.w_configured 0 5000 1 100).
  - left. reflexivity.
  - reflexivity.
Defined.


Lemma from_id_round_trip_witness :
  ∃ w1 w2 t,
    Transaction.init 1 5 (R_text "in") 0 (Examples.now0 + 1) Examples.w_alice
    = (w1, inr t) ∧
    Transaction.id t = Transaction.get_id (Examples.now0 + 1) 1 5 ∧
    Transaction.from_id (Transaction.id t) (Examples.now0 + 2) w1 = (w2, inr (inr t)).
Proof.
  apply (from_id_round_trip Examples.w_alice 1 5 (R_text "in") (Examples.now0 + 1)
           (Examples.now0 + 2)).
  - by vm_compute.
  - by vm_compute.
  - reflexivity.
Defined.

Lemma from_id_unknown_witness :
  Transaction.from_id (1700000000, 1, 5) Examples.now0 Examples.w_alice
  = (Examples.w_alice, inl TypeError) ∧
  Account.get_transaction 1 (1700000000, 1, 5) Examples.now0 Examples.w_alice
  = (Examples.w_alice, inl TypeError) ∧
  Bank._configbank_cancel (1700000000, 1, 5) (Some true) Examples.now0
    (Examples.now0 + 1) Examples.w_alice
  = (Examples.w_alice, inl TypeError).
Proof.
  apply (from_id_unknown Examples.w_alice (1700000000, 1, 5) 1 Examples.now0
           (Examples.now0 + 1) (Some true)).
  reflexivity.
Defined.


Lemma delete_forgets_transaction_witness :
  snd (Transaction.delete Examples.deposit_5 Examples.w_ledger) = inr tt ∧
  accounts (fst (Transaction.delete Examples.deposit_5 Examples.w_ledger))
  = accounts Examples.w_ledger ∧
  Transaction.from_id (Transaction.id Examples.deposit_5) (Examples.now0 + seconds 60)
    (fst (Transaction.delete Examples.deposit_5 Examples.w_ledger))
  = (fst (Transaction.delete Examples.deposit_5 Examples.w_ledger), inl TypeError) ∧
  snd (Account.cancel 1 Examples.deposit_5 (Examples.now0 + seconds 60)
         (fst (Transaction.delete Examples.deposit_5 Examples.w_ledger)))
  = inl ValueError_not_linked.
Proof.
  destruct (delete_forgets_transaction Examples.w_ledger Examples.deposit_5 1 50
              (Examples.now0 + seconds 60)) as (H1 & H2 & _ & H4 & H5).
  - reflexivity.
  - reflexivity.
  - reflexivity.
  - split; [exact H1|]. split; [exact H2|]. split; [exact H4 | exact H5].
Defined.

Lemma transactions_since_spec_witness :
  ∃ w' l,
    Bank.get_transactions_since [1; 2] Examples.now0 (Examples.now0 + seconds 60)
      Examples.w_ledger = (w', inr l) ∧
    transactions w' = transactions Examples.w_ledger ∧
    accounts w' = accounts Examples.w_ledger ∧
    (∀ r, r ∈ transactions Examples.w_ledger → row_user_id r ∈ [1; 2] →
          Examples.now0 < row_timestamp r → ∃ t, t ∈ l ∧ tx_row_of t = r).
Proof.
  destruct (transactions_since_spec Examples.w_ledger [1; 2] Examples.now0
              (Examples.now0 + seconds 60)) as (w' & l & H1 & H2 & H3 & _ & H5 & _).
  - reflexivity.
  - reflexivity.
  - exists w', l. split; [exact H1|]. split; [exact H2|]. split; [exact H3 | exact H5].
Defined.

Lemma last_transactions_spec_witness :
  ∃ w' l,
    Bank.get_last_transactions [1; 2] (Some 0) (Examples.now0 + seconds 60)
      Examples.w_ledger = (w', inr l) ∧
    transactions w' = transactions Examples.w_ledger ∧
    accounts w' = accounts Examples.w_ledger ∧
    map tx_row_of l
    = filter (λ r, row_user_id r ∈ [1; 2])
        (Store.order_by_timestamp_desc (transactions Examples.w_ledger)).
Proof.
  destruct (last_transactions_spec Examples.w_ledger [1; 2] (Some 0)
              (Examples.now0 + seconds 60)) as [(w' & l & H1 & H2 & H3 & H4 & _) _].
  - reflexivity.
  - reflexivity.
  - exists w', l. split; [exact H1|]. split; [exact H2|]. split; [exact H3 | exact H4].
Defined.

Lemma bank_give_moves_amount_witness :
  ∃ w' trs total,
    Bank._bank_give 1 2 "alice" "bob" 20 "gift" Examples.now0 (Examples.now0 + 1)
      Examples.w_pair = (w', inr (Bank.Give_done trs)) ∧
    Transaction.user trs = 2 ∧ Transaction.amount trs = 20 ∧
    accounts w' = <[2 := 10 + 20]> (<[1 := 50 - 20]> (accounts Examples.w_pair)) ∧
    Bank.get_guild_total_balance [1; 2] Examples.w_pair = (Examples.w_pair, inr total) ∧
    Bank.get_guild_total_balance [1; 2] w' = (w', inr total).
Proof.
  apply (bank_give_moves_amount Examples.w_pair [1; 2] 1 2 "alice" "bob" "gift" 20
           Examples.now0 (Examples.now0 + 1) 50 10 100 (CfgText "✦")).
  - lia.
  - by vm_compute.
  - by vm_compute.
  - reflexivity.
  - reflexivity.
  - lia.
  - lia.
  - reflexivity.
  - reflexivity.
  - apply (bool_decide_unpack _). by vm_compute.
  - apply (bool_decide_unpack _). by vm_compute.
  - apply (bool_decide_unpack _). by vm_compute.
Defined.

Lemma average_balance_spec_witness :
  ∃ avg, Bank.get_guild_average_balance [1; 2] Examples.w_pair
         = (Examples.w_pair, inr avg) ∧
         avg * Z.of_nat (length (account_holders [1; 2] Examples.w_pair))
         ≤ total_of Examples.w_pair (account_holders [1; 2] Examples.w_pair)
         < (avg + 1) * Z.of_nat (length (account_holders [1; 2] Examples.w_pair)).
Proof.
  destruct (average_balance_spec Examples.w_pair [1; 2] 100) as [_ H].
  - reflexivity.
  - apply H. by vm_compute.
Defined.

Lemma median_balance_spec_witness :
  ∃ m b,
    Bank.get_guild_median_balance [1; 2] Examples.w_pair
    = (Examples.w_pair, inr (inr b)) ∧
    m ∈ account_holders [1; 2] Examples.w_pair ∧
    accounts Examples.w_pair !! m = Some b.
Proof.
  destruct (median_balance_spec Examples.w_pair [1; 2] 100) as [_ H].
  - reflexivity.
  - destruct H as (m & b & H1 & H2 & H3 & _); [by vm_compute|].
    exists m, b. split; [exact H1|]. split; [exact H2 | exact H3].
Defined.

Lemma account_rank_spec_witness :
  ∃ r, Bank.get_account_rank 2 [1; 2] Examples.w_pair
       = (Examples.w_pair, inr (inr r)) ∧
       1 ≤ r ≤ Z.of_nat (length (account_holders [1; 2] Examples.w_pair)).
Proof.
  destruct (account_rank_spec Examples.w_pair [1; 2] 100 2) as [_ H].
  - reflexivity.
  - destruct H as (r & H1 & _ & _ & H4).
    + apply (bool_decide_unpack _). by vm_compute.
    + exists r. split; [exact H1 | exact H4].
Defined.


Lemma configbank_sets_balance_witness :
  (∃ w', Bank._configbank_reset 1 Examples.now0 Examples.w_alice
         = (w', inr (Bank.Balance_set 100)) ∧
         accounts w' = <[1 := 100]> (accounts Examples.w_alice)) ∧
  (∃ w', Bank._configbank_setbalance 1 7 "admin" Examples.now0 Examples.w_alice
         = (w', inr (Bank.Balance_set 7)) ∧
         accounts w' = <[1 := 7]> (accounts Examples.w_alice)).
Proof.
  apply (configbank_sets_balance Examples.w_alice 1 7 100 Examples.now0 "admin"
           (CfgText "✦")).
  - by vm_compute.
  - reflexivity.
  - lia.
  - reflexivity.
  - lia.
Defined.

Lemma history_buttons_keep_page_valid_witness :
  TransactionsHistoryView.pages
    (foldl press Examples.view [Next; Switch_display; Previous])
  = TransactionsHistoryView.pages Examples.view ∧
  ∃ page,
    TransactionsHistoryView.shown
      (foldl press Examples.view [Next; Switch_display; Previous]) = inr page.
Proof.
  destruct (history_buttons_keep_page_valid Examples.view
              [Next; Switch_display; Previous]) as (H1 & _ & H3 & _).
  - reflexivity.
  - simpl. lia.
  - split; [exact H1 | exact H3].
Defined.

Lemma start_gamble_stores_choices_witness :
  ∃ w' data,
    Gambling._start_gamble 10 "match" "Heads, Tails" 7 1 1 Examples.w_alice
    = (w', inr Gambling.Start_done) ∧
    Gambling.get_betting 10 w' = (w', inr (Some data)) ∧
    bg_title data = "match" ∧ bg_minimal_bet data = 7 ∧
    bg_author_id data = 1 ∧ bg_message_id data = 1 ∧
    Str.split "," (Str.chars (bg_choices data)) = Gambling.choices_of "Heads, Tails" ∧
    accounts w' = accounts Examples.w_alice ∧ bets w' = bets Examples.w_alice.
Proof.
  apply (start_gamble_stores_choices Examples.w_alice 10 "match" "Heads, Tails" 7 1 1
           (CfgText "✦")).
  - reflexivity.
  - reflexivity.
  - reflexivity.
  - simpl. lia.
  - vm_compute. lia.
  - reflexivity.
  - reflexivity.
Defined.

Lemma set_bet_get_bet_witness :
  ∃ b,
    Gambling.get_bet 10 3 (fst (Gambling.set_bet 10 3 "Heads" 25 Examples.w_session))
    = (fst (Gambling.set_bet 10 3 "Heads" 25 Examples.w_session), inr (Some b)) ∧
    bet_choice b = "heads" ∧ bet_amount b = 25.
Proof.
  destruct (set_bet_get_bet Examples.w_session 10 3 "Heads" 25) as [_ H].
  - reflexivity.
  - destruct H as (_ & (b & Hb & _ & _ & Hc & Ha) & _); [by eexists|].
    exists b. split; [exact Hb|]. split; [exact Hc | exact Ha].
Defined.

Lemma bet_choice_pays_the_stake_witness :
  ∃ w' e,
    Gambling._bet_choice 10 3 "heads" 25 None Examples.now0 Examples.w_session
    = (w', inl e) ∧
    accounts w' = <[3 := 40 - 25]> (accounts Examples.w_session) ∧
    bets w' = bets Examples.w_session
              ++ [mk_bet_row (bets_seq Examples.w_session + 1) 3 10
                    (lower_text "heads") 25] ∧
    bettings w' = bettings Examples.w_session.
Proof.
  destruct (bet_choice_pays_the_stake Examples.w_session 10 3 "heads" 25 40 100
              Examples.now0 Examples.session (CfgText "✦")) as [H _].
  - by vm_compute.
  - reflexivity.
  - reflexivity.
  - reflexivity.
  - reflexivity.
  - apply (bool_decide_unpack _). by vm_compute.
  - by vm_compute.
  - lia.
  - apply (H None). reflexivity.
Defined.


Lemma stop_gamble_spec_witness :
  (∃ w', Gambling._stop_gamble 10 1 false (Some true) "Heads" Examples.now0
           Examples.w_no_bets = (w', inr Gambling.Stop_done) ∧
         Gambling.get_betting 10 w' = (w', inr None) ∧
         bettings w' = delete 10 (bettings Examples.w_no_bets) ∧
         bets w' = bets Examples.w_no_bets ∧
         accounts w' = accounts Examples.w_no_bets) ∧
  (∃ e, Gambling._stop_gamble 10 1 false (Some true) "Heads" Examples.now0
          Examples.w_bets = (Examples.w_bets, inl e)).
Proof.
  split.
  - destruct (stop_gamble_spec Examples.w_no_bets 10 1 false "Heads" Examples.now0
                Examples.session) as [H _].
    + reflexivity.
    + right. split; [by vm_compute | reflexivity].
    + apply (bool_decide_unpack _). by vm_compute.
    + apply H. reflexivity.
  - destruct (stop_gamble_spec Examples.w_bets 10 1 false "Heads" Examples.now0
                Examples.session) as [_ H].
    + reflexivity.
    + right. split; [by vm_compute | reflexivity].
    + apply (bool_decide_unpack _). by vm_compute.
    + apply H; by vm_compute.
Defined.

Lemma parse_time_units_witness :
  Pretty.units 1 3661 = [(Pretty.U_j, 1); (Pretty.U_h, 3661 / 3600);
                         (Pretty.U_m, 3661 / 60 mod 60); (Pretty.U_s, 3661 mod 60)] ∧
  1 * 86400 + 3661 / 3600 * 3600 + 3661 / 60 mod 60 * 60 + 3661 mod 60
  = 1 * 86400 + 3661.
Proof.
  destruct (parse_time_units 1 3661) as (H1 & H2 & _).
  - lia.
  - split; [exact H1 | exact H2].
Defined.
